(** * Character-level RNN name generator: a shallow embedding

    The development follows the cells of [char_rnn_generation_tutorial.ipynb]
    in order: data preparation, the network, the training step and the
    sampling loop.  Python strings are sequences of Unicode code points,
    tensors are nested lists of scalars, Python exceptions are values of
    [exn], and the arithmetic of the tensor library is an interface
    ([Scalar]) so that nothing depends on a particular number format. *)

From Stdlib Require Import ZArith NArith QArith String Ascii.
From stdpp Require Import base option list gmap.

Local Open Scope nat_scope.

(** ** Python values *)

(** Exceptions the notebook can raise.  [RuntimeError] carries its message:
    the data-loading cell raises one explicitly, the tensor library raises
    others on shape mismatches.  [OSError] stands for its subclasses too
    ([FileNotFoundError], [IsADirectoryError], [PermissionError]). *)
Inductive exn :=
  | ValueError
  | IndexError
  | AttributeError
  | UnboundLocalError
  | OSError
  | UnicodeDecodeError
  | RuntimeError (msg : string).

Inductive result (A : Type) :=
  | Ok (a : A)
  | Raise (e : exn).
Arguments Ok {A} a.
Arguments Raise {A} e.

#[global] Instance result_ret : MRet result := λ A a, Ok a.
#[global] Instance result_bind : MBind result := λ A B f r,
  match r with
  | Ok a => f a
  | Raise e => Raise e
  end.

(** How one run of a loop body ends: with [break], or by going on. *)
Inductive flow (S : Type) :=
  | Break (s : S)
  | Continue (s : S).
Arguments Break {S} s.
Arguments Continue {S} s.

(** A code point, a string. *)
Abbreviation char := N (only parsing).
Abbreviation str := (list N) (only parsing).

Definition str_of (s : string) : str := map N_of_ascii (list_ascii_of_string s).

(** [range(a, b)] *)
Definition py_range (a b : nat) : list nat := seq a (b - a).

(** Index normalisation of [seq[i]]: negative indices count from the end. *)
Definition norm_index (n : nat) (i : Z) : result nat :=
  if bool_decide (0 ≤ i < Z.of_nat n)%Z then Ok (Z.to_nat i)
  else if bool_decide (- Z.of_nat n ≤ i < 0)%Z then Ok (Z.to_nat (i + Z.of_nat n))
  else Raise IndexError.

(** [l[i]] *)
Definition getitem {A} (l : list A) (i : Z) : result A :=
  k ← norm_index (length l) i;
  match l !! k with
  | Some x => Ok x
  | None => Raise IndexError
  end.

(** [l[i] = x] on a list-like object (here: one axis of a tensor). *)
Definition setitem {A} (l : list A) (i : Z) (x : A) : result (list A) :=
  k ← norm_index (length l) i;
  Ok (<[k := x]> l).

(** [l.index(x)]: the first position of [x], [ValueError] when absent. *)
Definition list_index `{EqDecision A} (x : A) (l : list A) : result nat :=
  match list_find (λ y, y = x) l with
  | Some (i, _) => Ok i
  | None => Raise ValueError
  end.

(** [s.find(c)] for a one-character [c]: the first position, [-1] when absent. *)
Definition str_find (s : str) (c : char) : Z :=
  match list_find (λ y, y = c) s with
  | Some (i, _) => Z.of_nat i
  | None => (-1)%Z
  end.

(** [c in s] for a one-character [c]. *)
Definition str_contains (s : str) (c : char) : bool := bool_decide (c ∈ s).

(** [for x in xs: acc = body(x, acc)] with exceptions. *)
Fixpoint for_each {X S} (xs : list X) (body : X → S → result S) (acc : S) : result S :=
  match xs with
  | [] => Ok acc
  | x :: xs' => acc' ← body x acc; for_each xs' body acc'
  end.

(** ** Cell 2: letters and Unicode clean-up *)

Definition ascii_lowercase : str := str_of "abcdefghijklmnopqrstuvwxyz".
Definition ascii_uppercase : str := str_of "ABCDEFGHIJKLMNOPQRSTUVWXYZ".
Definition ascii_letters : str := ascii_lowercase ++ ascii_uppercase.

Definition all_letters : str := ascii_letters ++ str_of " .,;'-".
Definition n_letters : nat := length all_letters + 1.

(** The Unicode character database is not part of the notebook: NFD
    normalisation, the test for general category [Mn] and the white space
    test of [str.strip] are parameters. *)
Class Unicode := {
  normalize_NFD : str → str;
  category_is_Mn : char → bool;
  char_isspace : char → bool;
}.

(** The facts about that database the notebook relies on: text made of
    [all_letters] only is already in NFD form and holds no combining mark. *)
Class UnicodeLaws `{Unicode} := {
  normalize_NFD_all_letters (s : str) :
    Forall (λ c, c ∈ all_letters) s → normalize_NFD s = s;
  category_all_letters (c : char) :
    c ∈ all_letters → category_is_Mn c = false;
}.

(** How [open(filename, encoding='utf-8').read()] can fail: the file cannot
    be opened or read (it is missing, a directory, not permitted), or its
    bytes are not UTF-8. *)
Inductive read_error :=
  | CannotOpen
  | CannotDecode.

(** The files on disk: what [glob.glob] returns for a pattern, and for a
    path the decoded text of the file or the way reading it fails. *)
Class FileSystem := {
  glob : str → list str;
  read_text : str → read_error + str;
}.

(** [open(filename, encoding='utf-8').read()] *)
Definition open_read `{FileSystem} (filename : str) : result str :=
  match read_text filename with
  | inr text => Ok text
  | inl CannotOpen => Raise OSError
  | inl CannotDecode => Raise UnicodeDecodeError
  end.

Definition names_dir : str := str_of "data/names/".
Definition txt_ext : str := str_of ".txt".
Definition names_pattern : str := names_dir ++ str_of "*" ++ txt_ext.

Definition chr_slash : char := 47%N.
Definition chr_dot : char := 46%N.
Definition chr_newline : char := 10%N.

(** What [glob] promises for [data/names/*.txt]: every path once, each one
    the directory, a file name without [/] that is not hidden, and the
    extension. *)
Class FileSystemLaws `{FileSystem} := {
  glob_NoDup : NoDup (glob names_pattern);
  glob_names (p : str) :
    p ∈ glob names_pattern →
    ∃ stem : str, p = names_dir ++ stem ++ txt_ext
      ∧ (chr_slash ∉ stem) ∧ head stem ≠ Some chr_dot ∧ stem ≠ [];
}.

(** [s.rfind(c)]: the last position of [c], [-1] when absent. *)
Definition str_rfind (s : str) (c : char) : Z :=
  match list_find (λ y, y = c) (reverse s) with
  | Some (i, _) => Z.of_nat (length s) - 1 - Z.of_nat i
  | None => (-1)%Z
  end.

(** [os.path.basename] (POSIX) *)
Definition basename (p : str) : str :=
  let i := (str_rfind p chr_slash + 1)%Z in
  drop (Z.to_nat i) p.

(** [os.path.splitext] (POSIX): split at the last dot of the last path
    component, unless only dots come before it. *)
Definition splitext (p : str) : str * str :=
  let sepIndex := str_rfind p chr_slash in
  let dotIndex := str_rfind p chr_dot in
  if bool_decide (sepIndex < dotIndex)%Z then
    let filenameIndex := Z.to_nat (sepIndex + 1) in
    if existsb (λ k, bool_decide (p !! k ≠ Some chr_dot))
               (py_range filenameIndex (Z.to_nat dotIndex))
    then (take (Z.to_nat dotIndex) p, drop (Z.to_nat dotIndex) p)
    else (p, [])
  else (p, []).

(** [s.strip()] *)
Definition lstrip `{Unicode} (s : str) : str :=
  from_option (λ ix, drop ix.1 s) [] (list_find (λ c, char_isspace c = false) s).
Definition py_strip `{Unicode} (s : str) : str := reverse (lstrip (reverse (lstrip s))).

(** [s.split(sep)] for a one-character separator. *)
Fixpoint py_split (sep : char) (s : str) : list str :=
  match s with
  | [] => [[]]
  | c :: s' =>
      if bool_decide (c = sep) then [] :: py_split sep s'
      else match py_split sep s' with
           | [] => [[c]]
           | w :: ws => (c :: w) :: ws
           end
  end.

Section Data.
Context `{Unicode} `{FileSystem}.

Definition findFiles (path : str) : list str := glob path.

Definition unicodeToAscii (s : str) : str :=
  filter (λ c, category_is_Mn c = false ∧ str_contains all_letters c = true)
         (normalize_NFD s).

Definition readLines (filename : str) : result (list str) :=
  text ← open_read filename;
  let lines := py_split chr_newline (py_strip text) in
  Ok (map unicodeToAscii lines).

Definition category_of (filename : str) : str := (splitext (basename filename)).1.

(** One pass of the loop that fills [category_lines] and [all_categories]. *)
Definition load_step (filename : str) (acc : gmap (list N) (list (list N)) * list (list N))
    : result (gmap (list N) (list (list N)) * list (list N)) :=
  let '(category_lines, all_categories) := acc in
  let category := category_of filename in
  let all_categories := all_categories ++ [category] in
  lines ← readLines filename;
  Ok (<[category := lines]> category_lines, all_categories).

Definition data_not_found : string :=
  "Data not found. Make sure that you downloaded data from https://download.pytorch.org/tutorial/data.zip and extract it to the current directory.".

(** The data part of cell 2: the two globals, or the exception that ends
    the cell. *)
Definition load_data : result (gmap (list N) (list (list N)) * list (list N)) :=
  '(category_lines, all_categories) ←
    for_each (findFiles names_pattern) load_step (∅, []);
  let n_categories := length all_categories in
  if bool_decide (n_categories = 0) then Raise (RuntimeError data_not_found)
  else Ok (category_lines, all_categories).
End Data.

(** ** Tensors *)

(** The arithmetic of tensor elements and of Python floats. *)
Class Scalar := {
  scalar : Type;
  s_zero : scalar;
  s_one : scalar;
  s_add : scalar → scalar → scalar;
  s_sub : scalar → scalar → scalar;
  s_mul : scalar → scalar → scalar;
  s_div : scalar → scalar → scalar;
  s_neg : scalar → scalar;
  s_exp : scalar → scalar;
  s_log : scalar → scalar;
  s_sqrt : scalar → scalar;
  s_ltb : scalar → scalar → bool;
  s_of_nat : nat → scalar;
  s_of_Q : Q → scalar;
}.

(** A 2-D tensor is the list of its rows, a 3-D tensor the list of its
    2-D slices. *)
Abbreviation tensor2 := (list (list scalar)).
Abbreviation tensor3 := (list (list (list scalar))).

(** The ways an operation of the tensor library fails in the notebook:
    [torch.cat] on no tensor or on tensors with different numbers of rows,
    a matrix product, an element-wise operation or a gradient of
    mismatched shapes, and [topk(1)] on an empty row.  All are
    [RuntimeError]s. *)
Inductive library_error :=
  | CatNoTensors
  | CatSizes
  | LinearShapes
  | TensorSizes
  | GradShape
  | TopkRange.

(** What the library decides and its documentation leaves open, or what
    differs between its versions: the message of each [RuntimeError], and
    the position [topk(1)] reports for a row, which matters when the
    largest value stands at several positions. *)
Class Library `{Scalar} := {
  error_text : library_error → string;
  topk_pick : list scalar → nat;
}.

Section Tensors.
Context `{Scalar}.

(** [torch.zeros(r, c)] and [torch.zeros(d, r, c)] *)
Definition zeros2 (r c : nat) : tensor2 := replicate r (replicate c s_zero).
Definition zeros3 (d r c : nat) : tensor3 := replicate d (zeros2 r c).

(** [t[i][j] = v] *)
Definition setitem2 (t : tensor2) (i j : Z) (v : scalar) : result tensor2 :=
  row ← getitem t i;
  row' ← setitem row j v;
  setitem t i row'.

(** [t[i][j][k] = v] *)
Definition setitem3 (t : tensor3) (i j k : Z) (v : scalar) : result tensor3 :=
  slice ← getitem t i;
  slice' ← setitem2 slice j k v;
  setitem t i slice'.
End Tensors.

(** ** Cell 8: tensors of a training example *)

Section Examples.
Context `{Scalar}.
Variable all_categories : list str.

Definition n_categories : nat := length all_categories.

Definition categoryTensor (category : str) : result tensor2 :=
  li ← list_index category all_categories;
  let tensor := zeros2 1 n_categories in
  setitem2 tensor 0 (Z.of_nat li) s_one.

Definition inputTensor (line : str) : result tensor3 :=
  let tensor := zeros3 (length line) 1 n_letters in
  for_each (py_range 0 (length line)) (λ li tensor,
    letter ← getitem line (Z.of_nat li);
    setitem3 tensor (Z.of_nat li) 0 (str_find all_letters letter) s_one) tensor.

Definition targetTensor (line : str) : result (list Z) :=
  letter_indexes ← mapM (M := result) (λ li,
      c ← getitem line (Z.of_nat li); Ok (str_find all_letters c))
    (py_range 1 (length line));
  Ok (letter_indexes ++ [Z.of_nat n_letters - 1]%Z).
End Examples.

(** ** Cell 4: the network *)

(** The random number generator of the tensor library: a state type with the
    two draws the notebook causes, a uniform sample from an interval
    (parameter initialisation) and a Bernoulli sample (dropout masks). *)
Class Rng `{Scalar} := {
  rng : Type;
  rng_uniform : scalar → scalar → rng → scalar * rng;
  rng_bernoulli : scalar → rng → bool * rng;
}.

Section Network.
Context `{SC : Scalar} `{LB : !Library}.

(** A parameter: its values and the gradient slot filled by [backward].
    A 1-D parameter (a bias) is stored as the single row of [data]. *)
Record Param := {
  data : tensor2;
  grad : option tensor2;
}.

(** [nn.Linear(in_features, out_features)] *)
Record Linear := {
  in_features : nat;
  out_features : nat;
  weight : Param;
  bias : Param;
}.

(** The module built by [RNN.__init__].  The dropout probability is the
    [0.1] of the source; the module is never switched to evaluation mode,
    so dropout is active in training and in sampling alike. *)
Record RNN := {
  hidden_size : nat;
  i2h : Linear;
  i2o : Linear;
  o2o : Linear;
  dropout_p : scalar;
}.

(** [torch.cat(ts, 1)]: rows are joined; all tensors need the same number
    of rows. *)
Fixpoint cat_dim1 (ts : list tensor2) : result tensor2 :=
  match ts with
  | [] => Raise (RuntimeError (error_text CatNoTensors))
  | [t] => Ok t
  | t :: ts' =>
      r ← cat_dim1 ts';
      if bool_decide (length t = length r) then Ok (zip_with app t r)
      else Raise (RuntimeError (error_text CatSizes))
  end.

Definition dot (x w : list scalar) : scalar :=
  foldl (λ acc xw, s_add acc (s_mul xw.1 xw.2)) s_zero (zip x w).

Definition bias_row (l : Linear) : list scalar := default [] (head (data (bias l))).

(** [nn.Linear.forward]: [x W^T + b], one output row per input row. *)
Definition Linear_forward (l : Linear) (x : tensor2) : result tensor2 :=
  if forallb (λ r, length r =? in_features l) x then
    Ok (map (λ r, zip_with s_add (map (dot r) (data (weight l))) (bias_row l)) x)
  else Raise (RuntimeError (error_text LinearShapes)).

(** [nn.LogSoftmax(dim=1)] *)
Definition log_softmax_row (r : list scalar) : list scalar :=
  let lse := s_log (foldl s_add s_zero (map s_exp r)) in
  map (λ x, s_sub x lse) r.
Definition log_softmax (t : tensor2) : tensor2 := map log_softmax_row t.

(** [rnn.parameters()], in registration order. *)
Definition Linear_parameters (l : Linear) : list Param := [weight l; bias l].
Definition parameters (self : RNN) : list Param :=
  Linear_parameters (i2h self) ++ Linear_parameters (i2o self) ++ Linear_parameters (o2o self).

Definition Linear_with (l : Linear) (w b : Param) : Linear :=
  {| in_features := in_features l; out_features := out_features l;
     weight := w; bias := b |}.

(** The network with its six parameters replaced, in the order of
    [parameters]; a list of another length leaves the network as it is. *)
Definition with_parameters (self : RNN) (ps : list Param) : RNN :=
  match ps with
  | [w1; b1; w2; b2; w3; b3] =>
      {| hidden_size := hidden_size self;
         i2h := Linear_with (i2h self) w1 b1;
         i2o := Linear_with (i2o self) w2 b2;
         o2o := Linear_with (o2o self) w3 b3;
         dropout_p := dropout_p self |}
  | _ => self
  end.

(** Shapes. *)
Definition shape2 (t : tensor2) : list nat := map length t.
Definition has_shape (r c : nat) (t : tensor2) : bool :=
  bool_decide (shape2 t = replicate r c).

Definition Param_wf (p : Param) : bool :=
  match grad p with
  | None => true
  | Some g => bool_decide (shape2 g = shape2 (data p))
  end.

Definition Linear_wf (l : Linear) : bool :=
  has_shape (out_features l) (in_features l) (data (weight l))
  && has_shape 1 (out_features l) (data (bias l))
  && Param_wf (weight l) && Param_wf (bias l).

(** The shapes [RNN(input_size, hidden_size, output_size)] creates when
    there are [n_cat] categories. *)
Definition RNN_wf (n_cat input_size output_size : nat) (self : RNN) : bool :=
  Linear_wf (i2h self) && Linear_wf (i2o self) && Linear_wf (o2o self)
  && bool_decide (in_features (i2h self) = n_cat + input_size + hidden_size self)
  && bool_decide (out_features (i2h self) = hidden_size self)
  && bool_decide (in_features (i2o self) = n_cat + input_size + hidden_size self)
  && bool_decide (out_features (i2o self) = output_size)
  && bool_decide (in_features (o2o self) = hidden_size self + output_size)
  && bool_decide (out_features (o2o self) = output_size).
End Network.

(** ** The state of the notebook and its monad *)

(** Reverse-mode differentiation belongs to the tensor library.  It is
    taken as the map from a scalar-valued function of the parameter values
    and a point to one gradient tensor per parameter. *)
Class Autograd `{Scalar} := {
  gradient : (list tensor2 → scalar) → list tensor2 → list tensor2;
}.

(** A gradient has the shape of its parameter. *)
Class AutogradLaws `{Autograd} := {
  gradient_shape (f : list tensor2 → scalar) (θ : list tensor2) :
    map shape2 (gradient f θ) = map shape2 θ;
}.

Section Machine.
Context `{SC : Scalar} `{LB : !Library} `{RG : !Rng} `{AG : !Autograd}.

(** What the notebook asks of the library, in order, with the values that
    went in and came out. *)
Inductive event :=
  | EvZeroGrad
  | EvForward (category input hidden output hidden' : tensor2)
  | EvCriterion (output : tensor2) (target : list Z) (l : scalar)
  | EvBackward (loss : scalar).

(** The global [rnn], the generator state of the library and the log. *)
Record World := {
  net : RNN;
  gen : rng;
  trace : list event;
}.

(** A computation changes the world and returns or raises; what it did to
    the world before raising stays done. *)
Definition M (A : Type) : Type := World → result A * World.

#[global] Instance M_ret : MRet M := λ A a w, (Ok a, w).
#[global] Instance M_bind : MBind M := λ A B f m w,
  match m w with
  | (Ok a, w') => f a w'
  | (Raise e, w') => (Raise e, w')
  end.

Definition lift {A} (r : result A) : M A := λ w, (r, w).
Definition get_net : M RNN := λ w, (Ok (net w), w).
Definition set_net (self : RNN) : M unit :=
  λ w, (Ok tt, {| net := self; gen := gen w; trace := trace w |}).
Definition log (e : event) : M unit :=
  λ w, (Ok tt, {| net := net w; gen := gen w; trace := trace w ++ [e] |}).

(** [for x in xs: body], the loop-carried locals passed along. *)
Fixpoint for_eachM {X S} (xs : list X) (body : X → S → M S) (acc : S) : M S :=
  match xs with
  | [] => mret acc
  | x :: xs' => acc' ← body x acc; for_eachM xs' body acc'
  end.

(** The same with [break]. *)
Fixpoint for_each_break {X S} (xs : list X) (body : X → S → M (flow S)) (acc : S) : M S :=
  match xs with
  | [] => mret acc
  | x :: xs' =>
      r ← body x acc;
      match r with
      | Break acc' => mret acc'
      | Continue acc' => for_each_break xs' body acc'
      end
  end.

(** *** [nn.Dropout] in training mode: every element is kept with
    probability [1 - p] and rescaled, or zeroed. *)
Fixpoint dropout_row (p : scalar) (r : list scalar) (g : rng) : list scalar * rng :=
  match r with
  | [] => ([], g)
  | x :: r' =>
      let '(keep, g1) := rng_bernoulli (s_sub s_one p) g in
      let '(r'', g2) := dropout_row p r' g1 in
      (s_mul x (if keep then s_div s_one (s_sub s_one p) else s_zero) :: r'', g2)
  end.

Fixpoint dropout_rows (p : scalar) (t : tensor2) (g : rng) : tensor2 * rng :=
  match t with
  | [] => ([], g)
  | r :: t' =>
      let '(r1, g1) := dropout_row p r g in
      let '(t1, g2) := dropout_rows p t' g1 in
      (r1 :: t1, g2)
  end.

Definition dropout (p : scalar) (t : tensor2) : M tensor2 :=
  λ w, let '(t', g) := dropout_rows p t (gen w) in
       (Ok t', {| net := net w; gen := g; trace := trace w |}).

(** *** [RNN.forward] and [RNN.initHidden] *)
Definition forward (self : RNN) (category input hidden : tensor2) : M (tensor2 * tensor2) :=
  input_combined ← lift (cat_dim1 [category; input; hidden]);
  hidden ← lift (Linear_forward (i2h self) input_combined);
  output ← lift (Linear_forward (i2o self) input_combined);
  output_combined ← lift (cat_dim1 [hidden; output]);
  output ← lift (Linear_forward (o2o self) output_combined);
  output ← dropout (dropout_p self) output;
  let output := log_softmax output in
  mret (output, hidden).

Definition initHidden (self : RNN) : tensor2 := zeros2 1 (hidden_size self).

(** [rnn(category, input, hidden)] on the global network. *)
Definition rnn_call (category input hidden : tensor2) : M (tensor2 * tensor2) :=
  self ← get_net;
  '(output, hidden') ← forward self category input hidden;
  log (EvForward category input hidden output hidden');;
  mret (output, hidden').

(** *** [nn.NLLLoss]: the mean over the batch of [-output[n][target[n]]];
    a class index outside the row raises.  (The library skips the target
    [-100]; [str.find] never yields it.) *)
Definition nll_term (row_t : list scalar * Z) : result scalar :=
  let '(row, t) := row_t in
  if bool_decide (0 ≤ t < Z.of_nat (length row))%Z then
    match row !! Z.to_nat t with
    | Some v => Ok (s_neg v)
    | None => Raise IndexError
    end
  else Raise IndexError.

Definition NLLLoss (output : tensor2) (target : list Z) : result scalar :=
  if bool_decide (length output = length target) then
    terms ← mapM nll_term (zip output target);
    Ok (s_div (foldl s_add s_zero terms) (s_of_nat (length output)))
  else Raise ValueError.

Definition criterion (output : tensor2) (target : list Z) : M scalar :=
  l ← lift (NLLLoss output target);
  log (EvCriterion output target l);;
  mret l.
End Machine.

(** ** Cell 12: the training step *)

Section Training.
Context `{SC : Scalar} `{LB : !Library} `{RG : !Rng} `{AG : !Autograd}.

Definition learning_rate : scalar := s_of_Q (5 # 10000).

(** The local [loss]: the Python integer it starts as, or a 0-d tensor. *)
Inductive py_num :=
  | PyInt (n : nat)
  | Tensor0 (v : scalar).

(** [loss += l] *)
Definition iadd (loss : py_num) (l : scalar) : py_num :=
  match loss with
  | PyInt n => Tensor0 (s_add (s_of_nat n) l)
  | Tensor0 v => Tensor0 (s_add v l)
  end.

(** [loss.item()] *)
Definition item (loss : py_num) : result scalar :=
  match loss with
  | PyInt _ => Raise AttributeError
  | Tensor0 v => Ok v
  end.

(** [t.unsqueeze_(-1)] on a 1-D tensor. *)
Definition unsqueeze_last (t : list Z) : list (list Z) := map (λ x, [x]) t.

(** An element-wise operation on two tensors of one shape. *)
Definition tensor_zip_with (f : scalar → scalar → scalar) (a b : tensor2) : result tensor2 :=
  if bool_decide (shape2 a = shape2 b) then Ok (zip_with (zip_with f) a b)
  else Raise (RuntimeError (error_text TensorSizes)).

(** [rnn.zero_grad()] *)
Definition zero_grad_param (p : Param) : Param :=
  {| data := data p; grad := (λ g, map (map (λ _, s_zero)) g) <$> grad p |}.

Definition zero_grad : M unit :=
  self ← get_net;
  set_net (with_parameters self (map zero_grad_param (parameters self)));;
  log EvZeroGrad.

(** The network with other parameter values, gradients kept. *)
Definition with_data (self : RNN) (θ : list tensor2) : RNN :=
  with_parameters self
    (zip_with (λ p d, {| data := d; grad := grad p |}) (parameters self) θ).

(** Running [c] also yields the function autograd differentiates: the
    result of the same computation, from the same starting world, at other
    parameter values. *)
Definition recording {A} (c : M A) : M (A * (list tensor2 → result A)) :=
  λ w, match c w with
       | (Ok a, w') =>
           (Ok (a, λ θ, (c {| net := with_data (net w) θ; gen := gen w; trace := trace w |}).1), w')
       | (Raise e, w') => (Raise e, w')
       end.

Definition loss_value (r : result (option tensor2 * tensor2 * py_num)) : scalar :=
  match r with
  | Ok (_, _, Tensor0 v) => v
  | _ => s_zero
  end.

(** [loss.backward()]: the gradient of the loss is added into the [grad]
    slot of every parameter (stored, when the slot is empty). *)
Definition accumulate_grad (p : Param) (g : tensor2) : result Param :=
  match grad p with
  | None =>
      if bool_decide (shape2 (data p) = shape2 g) then Ok {| data := data p; grad := Some g |}
      else Raise (RuntimeError (error_text GradShape))
  | Some g0 =>
      g1 ← tensor_zip_with s_add g0 g;
      Ok {| data := data p; grad := Some g1 |}
  end.

Definition backward (loss : py_num) (graph : list tensor2 → scalar) : M unit :=
  match loss with
  | PyInt _ => lift (Raise AttributeError)
  | Tensor0 v =>
      self ← get_net;
      let gs := gradient graph (map data (parameters self)) in
      ps ← lift (mapM (λ pg : Param * tensor2, accumulate_grad pg.1 pg.2)
                      (zip (parameters self) gs));
      set_net (with_parameters self ps);;
      log (EvBackward v)
  end.

(** [p.data.add_(-learning_rate, p.grad.data)] *)
Definition sgd_update (p : Param) : result Param :=
  match grad p with
  | None => Raise AttributeError
  | Some g =>
      d ← tensor_zip_with (λ x gx, s_add x (s_mul (s_neg learning_rate) gx)) (data p) g;
      Ok {| data := d; grad := grad p |}
  end.

Definition update_parameter (k : nat) (_ : unit) : M unit :=
  self ← get_net;
  p ← lift (match parameters self !! k with
            | Some p => Ok p
            | None => Raise IndexError
            end);
  p' ← lift (sgd_update p);
  set_net (with_parameters self (<[k := p']> (parameters self))).

Definition train_step (category_tensor : tensor2) (input_line_tensor : tensor3)
    (target_line_tensor : list (list Z)) (i : nat)
    (locals : option tensor2 * tensor2 * py_num) : M (option tensor2 * tensor2 * py_num) :=
  let '(_, hidden, loss) := locals in
  x ← lift (getitem input_line_tensor (Z.of_nat i));
  '(output, hidden) ← rnn_call category_tensor x hidden;
  t ← lift (getitem target_line_tensor (Z.of_nat i));
  l ← criterion output t;
  let loss := iadd loss l in
  mret (Some output, hidden, loss).

Definition train (category_tensor : tensor2) (input_line_tensor : tensor3)
    (target_line_tensor : list Z) : M (tensor2 * scalar) :=
  let target_line_tensor := unsqueeze_last target_line_tensor in
  self ← get_net;
  let hidden := initHidden self in
  zero_grad;;
  let loss := PyInt 0 in
  '((output, hidden, loss), graph) ← recording
    (for_eachM (py_range 0 (length input_line_tensor))
       (train_step category_tensor input_line_tensor target_line_tensor)
       (None, hidden, loss));
  backward loss (λ θ, loss_value (graph θ));;
  self ← get_net;
  for_eachM (py_range 0 (length (parameters self))) update_parameter tt;;
  output ← lift (match output with
                 | Some o => Ok o
                 | None => Raise UnboundLocalError
                 end);
  v ← lift (item loss);
  mret (output, s_div v (s_of_nat (length input_line_tensor))).
End Training.

(** ** Cell 20: sampling *)

Section Sampling.
Context `{SC : Scalar} `{LB : !Library} `{RG : !Rng} `{AG : !Autograd}.
Variable all_categories : list str.

Definition max_length : nat := 20.

(** The largest value of a row by [<], and the first position it stands
    at. *)
Fixpoint argmax_from (best : scalar) (besti i : nat) (r : list scalar) : scalar * nat :=
  match r with
  | [] => (best, besti)
  | x :: r' =>
      if s_ltb best x then argmax_from x i (S i) r'
      else argmax_from best besti (S i) r'
  end.

(** [row.topk(1)]: the largest value of the row and a position it stands
    at.  When the largest value stands at several positions the library
    reports one of them, not always the first.  [topk_pick] is the
    position it reports; it is followed when no entry of the row is above
    the entry there, and the first position of the largest value is taken
    otherwise. *)
Definition topk1_row (r : list scalar) : result (list scalar * list nat) :=
  match r with
  | [] => Raise (RuntimeError (error_text TopkRange))
  | x :: r' =>
      let '(v, i) := argmax_from x 0 1 r' in
      match r !! topk_pick r with
      | Some y =>
          if forallb (λ z, negb (s_ltb y z)) r then Ok ([y], [topk_pick r])
          else Ok ([v], [i])
      | None => Ok ([v], [i])
      end
  end.

(** [output.topk(1)] on a 2-D tensor works along the last axis. *)
Definition topk1 (t : tensor2) : result (tensor2 * list (list nat)) :=
  rows ← mapM topk1_row t;
  Ok (map fst rows, map snd rows).

(** One pass of the loop.  [input = inputTensor(letter)] stands after the
    [if] in the source and is reached from the [else] branch only, since
    the other branch leaves the loop. *)
Definition sample_step (category_tensor : tensor2) (i : nat)
    (locals : tensor3 * tensor2 * list N) : M (flow (tensor3 * tensor2 * list N)) :=
  let '(input, hidden, output_name) := locals in
  x ← lift (getitem input 0);
  '(output, hidden) ← rnn_call category_tensor x hidden;
  '(topv, topi) ← lift (topk1 output);
  topi ← lift (row ← getitem topi 0; getitem row 0);
  if bool_decide (topi = n_letters - 1) then mret (Break (input, hidden, output_name))
  else
    letter ← lift (getitem all_letters (Z.of_nat topi));
    let output_name := output_name ++ [letter] in
    input ← lift (inputTensor [letter]);
    mret (Continue (input, hidden, output_name)).

Definition sample (category : str) (start_letter : str) : M (list N) :=
  category_tensor ← lift (categoryTensor all_categories category);
  input ← lift (inputTensor start_letter);
  self ← get_net;
  let hidden := initHidden self in
  let output_name := start_letter in
  '(_, _, output_name) ← for_each_break (py_range 0 max_length)
      (sample_step category_tensor) (input, hidden, output_name);
  mret output_name.
End Sampling.

(** ** Cell 16: building the network *)

Section Construction.
Context `{SC : Scalar} `{LB : !Library} `{RG : !Rng}.

Fixpoint uniform_row (n : nat) (lo hi : scalar) (g : rng) : list scalar * rng :=
  match n with
  | 0 => ([], g)
  | S n' =>
      let '(x, g1) := rng_uniform lo hi g in
      let '(r, g2) := uniform_row n' lo hi g1 in
      (x :: r, g2)
  end.

Fixpoint uniform_rows (r c : nat) (lo hi : scalar) (g : rng) : tensor2 * rng :=
  match r with
  | 0 => ([], g)
  | S r' =>
      let '(x, g1) := uniform_row c lo hi g in
      let '(t, g2) := uniform_rows r' c lo hi g1 in
      (x :: t, g2)
  end.

(** [nn.Linear(in_features, out_features)]: weight and bias are drawn
    uniformly from [-1/sqrt(in_features), 1/sqrt(in_features)]. *)
Definition Linear_init (in_f out_f : nat) (g : rng) : Linear * rng :=
  let bound := s_div s_one (s_sqrt (s_of_nat in_f)) in
  let '(w, g1) := uniform_rows out_f in_f (s_neg bound) bound g in
  let '(b, g2) := uniform_rows 1 out_f (s_neg bound) bound g1 in
  ({| in_features := in_f; out_features := out_f;
      weight := {| data := w; grad := None |};
      bias := {| data := b; grad := None |} |}, g2).

(** [RNN(input_size, hidden_size, output_size)] with [n_cat] categories. *)
Definition RNN_init (n_cat input_size hidden_sz output_size : nat) (g : rng) : RNN * rng :=
  let '(l1, g1) := Linear_init (n_cat + input_size + hidden_sz) hidden_sz g in
  let '(l2, g2) := Linear_init (n_cat + input_size + hidden_sz) output_size g1 in
  let '(l3, g3) := Linear_init (hidden_sz + output_size) output_size g2 in
  ({| hidden_size := hidden_sz; i2h := l1; i2o := l2; o2o := l3;
      dropout_p := s_of_Q (1 # 10) |}, g3).

(** [rnn = RNN(n_letters, 128, n_letters)] *)
Definition rnn_init (n_cat : nat) (g : rng) : RNN * rng :=
  RNN_init n_cat n_letters 128 n_letters g.
End Construction.

(** ** Running the model: small instances of the interfaces

    Fixed-point numbers with sixteen fractional bits stand in for floating
    point, a linear congruential generator for the random number generator,
    and a two-file directory for the data set.  They serve to evaluate the
    definitions on examples. *)

Module Demo.

Definition fx_one : Z := 65536.
Definition fx_mul (x y : Z) : Z := (x * y) ÷ fx_one.
Definition fx_div (x y : Z) : Z := (x * fx_one) ÷ y.

#[export] Instance fx_scalar : Scalar := {|
  scalar := Z;
  s_zero := 0%Z;
  s_one := fx_one;
  s_add := Z.add;
  s_sub := Z.sub;
  s_mul := fx_mul;
  s_div := fx_div;
  s_neg := Z.opp;
  s_exp x := (fx_one + x + fx_mul x x ÷ 2)%Z;
  s_log x := (x - fx_one)%Z;
  s_sqrt x := Z.sqrt (x * fx_one);
  s_ltb := Z.ltb;
  s_of_nat n := (Z.of_nat n * fx_one)%Z;
  s_of_Q q := ((Qnum q * fx_one) ÷ Z.pos (Qden q))%Z;
|}.

Definition lcg (g : N) : N := ((g * 1103515245 + 12345) mod 2147483648)%N.
Definition unit_draw (g : N) : Z := ((Z.of_N (g / 65536 mod 1000)%N * fx_one) ÷ 1000)%Z.

#[export] Instance lcg_rng : Rng := {|
  rng := N;
  rng_uniform lo hi g := ((lo + fx_mul (hi - lo) (unit_draw g))%Z, lcg g);
  rng_bernoulli p g := ((unit_draw g <? p)%Z, lcg g);
|}.

(** Stand-ins for the messages of the library, and [topk] reporting the
    last position of the largest value. *)
Fixpoint last_max (best : Z) (besti i : nat) (r : list Z) : nat :=
  match r with
  | [] => besti
  | x :: r' => if (best <=? x)%Z then last_max x i (S i) r' else last_max best besti (S i) r'
  end.

#[export] Instance fx_library : Library := {|
  error_text e :=
    match e with
    | CatNoTensors => "torch.cat(): expected a non-empty list of Tensors"
    | CatSizes => "Sizes of tensors must match except in dimension 1"
    | LinearShapes => "mat1 and mat2 shapes cannot be multiplied"
    | TensorSizes => "The size of tensor a must match the size of tensor b"
    | GradShape => "grad and param do not obey the gradient layout contract"
    | TopkRange => "selected index k out of range"
    end%string;
  topk_pick r :=
    match r with
    | [] => 0
    | x :: r' => last_max x 0 1 r'
    end;
|}.

(** Every gradient entry is the loss itself: a stand-in of the right shape. *)
#[export] Instance const_autograd : Autograd := {|
  gradient f θ := let v := f θ in map (map (map (λ _ : Z, v))) θ;
|}.

(** Decomposition of the two accented letters of the notebook's example,
    [e] acute and [a] grave; combining marks are U+0300 to U+036F. *)
Definition nfd_char (c : N) : list N :=
  if bool_decide (c = 233%N) then [101%N; 769%N]
  else if bool_decide (c = 224%N) then [97%N; 768%N]
  else [c].

#[export] Instance small_unicode : Unicode := {|
  normalize_NFD s := concat (map nfd_char s);
  category_is_Mn c := bool_decide (768 ≤ c ≤ 879)%N;
  char_isspace c := bool_decide (c ∈ [9%N; 10%N; 11%N; 12%N; 13%N; 32%N]);
|}.

(** Two files: [Irish.txt] with the lines O'Néàl and Adam, [French.txt]
    with the lines Abel and René. *)
Definition irish_txt : list N := str_of "data/names/Irish.txt".
Definition french_txt : list N := str_of "data/names/French.txt".

#[export] Instance two_files : FileSystem := {|
  glob pat := if bool_decide (pat = names_pattern) then [irish_txt; french_txt] else [];
  read_text f :=
    if bool_decide (f = irish_txt) then
      inr [79; 39; 78; 233; 224; 108; 10; 65; 100; 97; 109; 10]%N
    else if bool_decide (f = french_txt) then
      inr [65; 98; 101; 108; 10; 82; 101; 110; 233; 10]%N
    else inl CannotOpen;
|}.

Definition no_files : FileSystem := {| glob _ := []; read_text _ := inl CannotOpen |}.

(** A directory entry [Dir.txt] that is itself a directory: [glob] lists
    it, [open] raises [IsADirectoryError]. *)
Definition dir_txt : list N := str_of "data/names/Dir.txt".

Definition directory_entry : FileSystem := {|
  glob pat := if bool_decide (pat = names_pattern) then [dir_txt] else [];
  read_text _ := inl CannotOpen;
|}.

Definition categories : list (list N) := [str_of "Irish"; str_of "French"].

(** A network of the notebook's shapes with three hidden units. *)
Definition small_rnn : RNN := (RNN_init (length categories) n_letters 3 n_letters 42%N).1.

Definition world0 : World := {| net := small_rnn; gen := 7%N; trace := [] |}.

(** The tensors of one training example. *)
Definition unwrap {A} (d : A) (r : result A) : A :=
  match r with
  | Ok a => a
  | Raise _ => d
  end.

Definition french : list N := str_of "French".
Definition abel : list N := str_of "Abel".
Definition oneal : list N := [79; 39; 78; 233; 224; 108]%N.

Definition french_tensor : tensor2 := unwrap [] (categoryTensor categories french).
Definition abel_input : tensor3 := unwrap [] (inputTensor abel).
Definition abel_target : list Z := unwrap [] (targetTensor abel).

End Demo.

(** ** What the specification says, as predicates on the model *)

(** What floating-point arithmetic gives for subtraction by way of
    negation: [x + (-a) * b] is [x - a * b]. *)
Class ScalarLaws `{Scalar} := {
  add_neg_mul (x a b : scalar) : s_add x (s_mul (s_neg a) b) = s_sub x (s_mul a b);
}.

(** What [<] on floating-point numbers is, not-a-number included: a strict
    partial order. *)
Class ScalarOrder `{Scalar} := {
  s_ltb_irrefl (x : scalar) : s_ltb x x = false;
  s_ltb_trans (x y z : scalar) : s_ltb x y = true → s_ltb y z = true → s_ltb x z = true;
}.

Section DataStatements.
Context `{UC : Unicode} `{FS : FileSystem}.




(** The lines stored for a file that could be read. *)
Definition stored_lines (filename : str) : list str :=
  match readLines filename with
  | Ok lines => lines
  | Raise _ => []
  end.
End DataStatements.

Section TensorStatements.
Context `{Scalar}.

(** [row] has [n] entries, a one at [k] and zeros elsewhere. *)
Definition one_hot_at (row : list scalar) (n k : nat) : Prop :=
  length row = n ∧ row !! k = Some s_one ∧ ∀ j, j < n → j ≠ k → row !! j = Some s_zero.

Definition one_hot (n k : nat) : list scalar := <[k := s_one]> (replicate n s_zero).

(** [inputTensor(line)] is [len(line) x 1 x n_letters], and the row of every
    position is one-hot at the index of its letter in [all_letters]. *)
Definition inputTensor_spec (line : list N) : Prop :=
  ∃ t, inputTensor line = Ok t ∧ length t = length line
    ∧ ∀ li c, line !! li = Some c →
        ∃ row k, t !! li = Some [row] ∧ all_letters !! k = Some c
                 ∧ one_hot_at row n_letters k.

(** Where [inputTensor] puts the one of a character: its position in
    [all_letters], or, through index [-1], the last position. *)
Definition letter_slot (c : N) : nat :=
  let k := str_find all_letters c in
  Z.to_nat (if bool_decide (k < 0)%Z then k + Z.of_nat n_letters else k)%Z.

Definition letter_row (c : N) : list scalar := one_hot n_letters (letter_slot c).
End TensorStatements.

(** [targetTensor(line)] has [len(line)] elements: the indices in
    [all_letters] of the letters from the second on, then the EOS index. *)
Definition targetTensor_spec (line : list N) : Prop :=
  ∃ t, targetTensor line = Ok t ∧ length t = length line
    ∧ (∀ i, i < length line - 1 →
         ∃ c k, line !! S i = Some c ∧ all_letters !! k = Some c
                ∧ t !! i = Some (Z.of_nat k))
    ∧ t !! (length line - 1) = Some (Z.of_nat n_letters - 1)%Z.

Section MachineStatements.
Context `{SC : Scalar} `{LB : !Library} `{RG : !Rng} `{AG : !Autograd}.

(** The sampling loop as a recursive function: at most [steps] times, call
    the network on the current row and the hidden state, read the index
    off [topk(1)], stop at EOS, otherwise append the letter of that index
    and go on with its one-hot row. *)
Fixpoint greedy (steps : nat) (category_tensor current hidden : tensor2)
    (name : list N) : M (list N) :=
  match steps with
  | 0 => mret name
  | S steps' =>
      '(output, hidden') ← rnn_call category_tensor current hidden;
      '(_, topi) ← lift (topk1 output);
      best ← lift (row ← getitem topi 0; getitem row 0);
      if bool_decide (best = n_letters - 1) then mret name
      else
        match all_letters !! best with
        | Some letter =>
            greedy steps' category_tensor [one_hot n_letters best] hidden' (name ++ [letter])
        | None => lift (Raise IndexError)
        end
  end.

Definition sample_greedy (all_categories : list (list N)) (category start_letter : list N)
    : M (list N) :=
  category_tensor ← lift (categoryTensor all_categories category);
  current ← lift (input ← inputTensor start_letter; getitem input 0);
  self ← get_net;
  greedy max_length category_tensor current (initHidden self) start_letter.

(** No entry of [row] is above the entry at position [i]. *)
Definition highest_at (row : list scalar) (i : nat) : Prop :=
  ∃ x, row !! i = Some x ∧ ∀ j v, row !! j = Some v → s_ltb x v = false.

(** One pass of the sampling loop: the rows that went into the network,
    the rows that came out, and the index selected. *)
Record sample_iter := {
  si_input : list scalar;
  si_hidden : list scalar;
  si_output : list scalar;
  si_hidden' : list scalar;
  si_index : nat;
}.

Definition sample_iter_event (category_tensor : tensor2) (s : sample_iter) : event :=
  EvForward category_tensor [si_input s] [si_hidden s] [si_output s] [si_hidden' s].

(** The passes of the sampling loop in the words of the specification.
    With [k] passes left, the current input row [x] and the hidden row
    [h]: a pass feeds [x] and [h], selects an index by [selects] on the
    output, stops without appending when that is the EOS index
    [n_letters - 1], and otherwise appends the letter at that index of
    [all_letters] and goes on with the one-hot row of the index and the
    hidden row that came back.  [letters] are the letters appended. *)
Fixpoint loop_passes (selects : list scalar → nat → Prop) (k : nat) (x h : list scalar)
    (steps : list sample_iter) (letters : list N) : Prop :=
  match steps with
  | [] => k = 0 ∧ letters = []
  | s :: steps' =>
      ∃ k', k = S k'
        ∧ si_input s = x ∧ si_hidden s = h
        ∧ selects (si_output s) (si_index s)
        ∧ if bool_decide (si_index s = n_letters - 1) then steps' = [] ∧ letters = []
          else ∃ letter letters' x',
                 all_letters !! si_index s = Some letter
                 ∧ letters = letter :: letters'
                 ∧ one_hot_at x' n_letters (si_index s)
                 ∧ loop_passes selects k' x' (si_hidden' s) steps' letters'
  end.

(** Greedy: the index selected is one with the highest output. *)
Definition greedy_passes := loop_passes highest_at.

(** What [topk(1)] reports for a row. *)
Definition topk_reports (row : list scalar) (i : nat) : Prop :=
  ∃ v, topk1 [row] = Ok ([[v]], [[i]]).

Definition is_forward (e : event) : bool :=
  match e with
  | EvForward _ _ _ _ _ => true
  | _ => false
  end.

(** The hidden state computed by [i2h] from the joined inputs. *)
Definition i2h_step (self : RNN) (category input hidden hidden' : tensor2) : Prop :=
  ∃ input_combined,
    cat_dim1 [category; input; hidden] = Ok input_combined
    ∧ Linear_forward (i2h self) input_combined = Ok hidden'.

(** The forward calls of a log pass the hidden state along, from [h] on:
    each call receives the hidden state the call before returned. *)
Fixpoint hidden_chain (self : RNN) (h : tensor2) (evs : list event) : Prop :=
  match evs with
  | [] => True
  | EvForward c x hin _ hout :: evs' =>
      hin = h ∧ i2h_step self c x hin hout ∧ hidden_chain self hout evs'
  | _ :: evs' => hidden_chain self h evs'
  end.

(** The same with the hidden state the log ends in. *)
Fixpoint chain_to (self : RNN) (h : tensor2) (evs : list event) (h_end : tensor2) : Prop :=
  match evs with
  | [] => h_end = h
  | EvForward c x hin _ hout :: evs' =>
      hin = h ∧ i2h_step self c x hin hout ∧ chain_to self hout evs' h_end
  | _ :: evs' => chain_to self h evs' h_end
  end.

(** The hidden state is handed from call to call, from [h] on: every call
    (input, hidden state passed in, hidden state returned) receives the
    hidden state the call before returned and returns the one [i2h]
    computes. *)
Fixpoint hidden_threaded (self : RNN) (category : tensor2) (h : tensor2)
    (calls : list (tensor2 * tensor2 * tensor2)) : Prop :=
  match calls with
  | [] => True
  | (x, hin, hout) :: calls' =>
      hin = h ∧ i2h_step self category x hin hout
      ∧ hidden_threaded self category hout calls'
  end.

Definition sample_call (s : sample_iter) : tensor2 * tensor2 * tensor2 :=
  ([si_input s], [si_hidden s], [si_hidden' s]).

(** [p'] has the shape of [p], and a gradient of that shape if any. *)
Definition same_shapes (p p' : Param) : Prop :=
  shape2 (data p') = shape2 (data p) ∧ Param_wf p' = true.

(** The network after [zero_grad]. *)
Definition zero_grad_net (self : RNN) : RNN :=
  with_parameters self (map zero_grad_param (parameters self)).

(** One pass of the training loop: what went into the network, what came
    out, the target class and the loss term. *)
Record train_iter := {
  ti_input : tensor2;
  ti_hidden : tensor2;
  ti_output : tensor2;
  ti_hidden' : tensor2;
  ti_target : Z;
  ti_loss : scalar;
}.

Definition train_iter_events (category_tensor : tensor2) (s : train_iter) : list event :=
  [EvForward category_tensor (ti_input s) (ti_hidden s) (ti_output s) (ti_hidden' s);
   EvCriterion (ti_output s) [ti_target s] (ti_loss s)].

Definition train_call (s : train_iter) : tensor2 * tensor2 * tensor2 :=
  (ti_input s, ti_hidden s, ti_hidden' s).

(** A training step on the tensors of [category] and [line]: one forward
    call and one loss term per input character, the terms summed from 0,
    one [backward] on the sum, and the last output returned with the sum
    divided by the number of characters. *)
Definition train_spec (all_categories : list (list N)) (category line : list N)
    (w : World) : Prop :=
  ∃ category_tensor input_line_tensor target_line_tensor steps output w',
    categoryTensor all_categories category = Ok category_tensor
    ∧ inputTensor line = Ok input_line_tensor
    ∧ targetTensor line = Ok target_line_tensor
    ∧ length input_line_tensor = length line
    ∧ length steps = length input_line_tensor
    ∧ (∀ i s, steps !! i = Some s →
         input_line_tensor !! i = Some (ti_input s)
         ∧ target_line_tensor !! i = Some (ti_target s)
         ∧ NLLLoss (ti_output s) [ti_target s] = Ok (ti_loss s))
    ∧ (∃ s, last steps = Some s ∧ output = ti_output s)
    ∧ train category_tensor input_line_tensor target_line_tensor w
      = (Ok (output,
             s_div (foldl s_add (s_of_nat 0) (map ti_loss steps))
                   (s_of_nat (length input_line_tensor))), w')
    ∧ trace w'
      = trace w ++ [EvZeroGrad]
        ++ concat (map (train_iter_events category_tensor) steps)
        ++ [EvBackward (foldl s_add (s_of_nat 0) (map ti_loss steps))].

(** [p1] is [p0] after one step of gradient descent along the gradient in
    its slot: [p0 - learning_rate * grad]. *)
Definition gradient_step (p0 p1 : Param) : Prop :=
  ∃ g, grad p1 = Some g ∧ shape2 g = shape2 (data p0)
       ∧ data p1 = zip_with (zip_with (λ x gx, s_sub x (s_mul learning_rate gx)))
                            (data p0) g.
End MachineStatements.

(** ** The cells around the model: random examples, printing, the clock *)

(** The exceptions of these cells: those of the library calls above, and
    the [KeyError] of a dictionary. *)
Inductive py_exn :=
  | KeyError
  | ZeroDivisionError
  | Lib (e : exn).

Inductive outcome (A : Type) :=
  | Returns (a : A)
  | Raises (e : py_exn).
Arguments Returns {A} a.
Arguments Raises {A} e.

Definition outcome_of {A} (r : result A) : outcome A :=
  match r with
  | Ok a => Returns a
  | Raise e => Raises (Lib e)
  end.

(** Python's [random] module: the state of its generator and [randint]
    on a non-empty range. *)
Class PyRandom := {
  py_random : Type;
  randint_draw : Z → Z → py_random → Z * py_random;
}.

(** [randint(a, b)] lies between [a] and [b]. *)
Class PyRandomLaws `{PyRandom} := {
  randint_draw_range (a b : Z) (g : py_random) :
    (a ≤ b)%Z → (a ≤ (randint_draw a b g).1 ≤ b)%Z;
}.

(** The clock and the formatting of the progress line; [math.floor] and
    the [%] formats work on floats and are parameters. *)
Class Console `{Scalar} := {
  clock : Type;
  time_time : clock → scalar * clock;
  math_floor : scalar → Z;
  s_of_Z : Z → scalar;
  format_time : Z → scalar → list N;
  format_progress : list N → nat → scalar → scalar → list N;
}.

Section Notebook.
Context `{SC : Scalar} `{LB : !Library} `{RG : !Rng} `{AG : !Autograd} `{PR : PyRandom} `{CO : !Console}.

(** The globals of the notebook that change: the network with the library's
    state, the generator of [random], the clock and what was printed. *)
Record Notebook := {
  nb_world : World;
  nb_random : py_random;
  nb_clock : clock;
  nb_stdout : list (list N);
}.

Definition NB (A : Type) : Type := Notebook → outcome A * Notebook.

#[global] Instance NB_ret : MRet NB := λ A a s, (Returns a, s).
#[global] Instance NB_bind : MBind NB := λ A B f m s,
  match m s with
  | (Returns a, s') => f a s'
  | (Raises e, s') => (Raises e, s')
  end.

Definition nb_lift {A} (r : result A) : NB A := λ s, (outcome_of r, s).
Definition nb_raise {A} (e : py_exn) : NB A := λ s, (Raises e, s).

(** A computation on the network run inside the notebook. *)
Definition nb_run {A} (c : M A) : NB A :=
  λ s, let '(r, w) := c (nb_world s) in
       (outcome_of r,
        {| nb_world := w; nb_random := nb_random s; nb_clock := nb_clock s;
           nb_stdout := nb_stdout s |}).

(** [print(line)] *)
Definition print (line : list N) : NB unit :=
  λ s, (Returns tt,
        {| nb_world := nb_world s; nb_random := nb_random s; nb_clock := nb_clock s;
           nb_stdout := nb_stdout s ++ [line] |}).

(** [time.time()] *)
Definition time_now : NB scalar :=
  λ s, let '(t, c) := time_time (nb_clock s) in
       (Returns t,
        {| nb_world := nb_world s; nb_random := nb_random s; nb_clock := c;
           nb_stdout := nb_stdout s |}).

(** [random.randint(a, b)]: an empty range raises [ValueError]. *)
Definition randint (a b : Z) : NB Z :=
  λ s, if bool_decide (a ≤ b)%Z then
         let '(n, g) := randint_draw a b (nb_random s) in
         (Returns n,
          {| nb_world := nb_world s; nb_random := g; nb_clock := nb_clock s;
             nb_stdout := nb_stdout s |})
       else (Raises (Lib ValueError), s).

(** [for x in xs: body] in the notebook. *)
Fixpoint for_eachNB {X S} (xs : list X) (body : X → S → NB S) (acc : S) : NB S :=
  match xs with
  | [] => mret acc
  | x :: xs' => acc' ← body x acc; for_eachNB xs' body acc'
  end.

(** *** Cell 6 *)
Definition randomChoice {A} (l : list A) : NB A :=
  i ← randint 0 (Z.of_nat (length l) - 1);
  nb_lift (getitem l i).

Section Cells.
Variable all_categories : list (list N).
Variable category_lines : gmap (list N) (list (list N)).

Definition randomTrainingPair : NB (list N * list N) :=
  category ← randomChoice all_categories;
  lines ← match category_lines !! category with
          | Some lines => mret lines
          | None => nb_raise KeyError
          end;
  line ← randomChoice lines;
  mret (category, line).

(** *** Cell 10 *)
Definition randomTrainingExample : NB (tensor2 * tensor3 * list Z) :=
  '(category, line) ← randomTrainingPair;
  category_tensor ← nb_lift (categoryTensor all_categories category);
  input_line_tensor ← nb_lift (inputTensor line);
  target_line_tensor ← nb_lift (targetTensor line);
  mret (category_tensor, input_line_tensor, target_line_tensor).

(** *** Cell 14 *)
Definition timeSince (since : scalar) : NB (list N) :=
  now ← time_now;
  let s := s_sub now since in
  let m := math_floor (s_div s (s_of_nat 60)) in
  let s := s_sub s (s_of_Z (m * 60)) in
  mret (format_time m s).

(** *** Cell 16 *)
Definition n_iters : nat := 100 * 1000.
Definition print_every : nat := 5 * 1000.
Definition plot_every : nat := 500.

(** [a % b] on non-negative integers. *)
Definition py_mod (a b : nat) : NB nat :=
  if bool_decide (b = 0) then nb_raise ZeroDivisionError else mret (a mod b).

(** One pass of the training loop; [total_loss] and [all_losses] are the
    globals it updates. *)
Definition training_pass (start : scalar) (iter : nat) (globals : scalar * list scalar)
    : NB (scalar * list scalar) :=
  let '(total_loss, all_losses) := globals in
  '(category_tensor, input_line_tensor, target_line_tensor) ← randomTrainingExample;
  '(output, loss) ← nb_run (train category_tensor input_line_tensor target_line_tensor);
  let total_loss := s_add total_loss loss in
  r ← py_mod iter print_every;
  (if bool_decide (r = 0) then
     elapsed ← timeSince start;
     print (format_progress elapsed iter
              (s_mul (s_div (s_of_nat iter) (s_of_nat n_iters)) (s_of_nat 100)) loss)
   else mret tt);;
  r ← py_mod iter plot_every;
  if bool_decide (r = 0) then
    mret (s_of_nat 0, all_losses ++ [s_div total_loss (s_of_nat plot_every)])
  else mret (total_loss, all_losses).

(** The loop of cell 16 after [rnn] was built; it returns [total_loss] and
    [all_losses]. *)
Definition training_loop : NB (scalar * list scalar) :=
  let all_losses := [] in
  let total_loss := s_of_nat 0 in
  start ← time_now;
  for_eachNB (py_range 1 (n_iters + 1)) (training_pass start) (total_loss, all_losses).

(** [rnn = RNN(n_letters, 128, n_letters)] *)
Definition build_rnn : NB unit :=
  λ s, let '(r, g) := rnn_init (n_categories all_categories) (gen (nb_world s)) in
       (Returns tt,
        {| nb_world := {| net := r; gen := g; trace := trace (nb_world s) |};
           nb_random := nb_random s; nb_clock := nb_clock s; nb_stdout := nb_stdout s |}).

(** Cell 16 as a whole. *)
Definition training_cell : NB (scalar * list scalar) :=
  build_rnn;;
  training_loop.

(** *** Cell 20 *)
Definition samples (category : list N) (start_letters : list N) : NB unit :=
  for_eachNB start_letters (λ start_letter _,
    name ← nb_run (sample all_categories category [start_letter]);
    print name) tt.
End Cells.
End Notebook.

(** ** Further predicates on the model *)

Section ModelPredicates.
Context `{SC : Scalar} `{LB : !Library} `{RG : !Rng}.
(** What of a network is not a parameter: the sizes and the dropout rate. *)
Definition same_frame (self self' : RNN) : Prop :=
  hidden_size self' = hidden_size self
  ∧ dropout_p self' = dropout_p self
  ∧ in_features (i2h self') = in_features (i2h self)
  ∧ out_features (i2h self') = out_features (i2h self)
  ∧ in_features (i2o self') = in_features (i2o self)
  ∧ out_features (i2o self') = out_features (i2o self)
  ∧ in_features (o2o self') = in_features (o2o self)
  ∧ out_features (o2o self') = out_features (o2o self).

(** The name built so far put in front of what a run of the sampling loop
    appends. *)
Definition with_prefix (name : list N) (rw : result (list N) * World)
    : result (list N) * World :=
  (match rw.1 with
   | Ok n => Ok (name ++ n)
   | Raise e => Raise e
   end, rw.2).
End ModelPredicates.

(** ** Instances for the cells around the model *)

Module DemoCells.
Import Demo.

(** [randint] from the linear congruential generator. *)
#[export] Instance lcg_random : PyRandom := {|
  py_random := N;
  randint_draw a b g := ((a + Z.of_N (g / 65536) `mod` (b - a + 1))%Z, lcg g);
|}.

(** Decimal digits of a natural number. *)
Fixpoint digits (fuel : nat) (n : N) (acc : list N) : list N :=
  let acc := (48 + n mod 10)%N :: acc in
  match fuel with
  | 0 => acc
  | S fuel => if (n / 10 =? 0)%N then acc else digits fuel (n / 10) acc
  end.

Definition decimal (z : Z) : list N :=
  (if (z <? 0)%Z then str_of "-" else [])
  ++ digits (N.to_nat (N.log2 (Z.abs_N z))) (Z.abs_N z) [].

(** A clock that is a second further at every reading; ['%dm %ds'] and
    ['%s (%d %d%%) %.4f'] on fixed-point numbers. *)
#[export] Instance ticking_console : Console := {|
  clock := Z;
  time_time c := (c, (c + fx_one)%Z);
  math_floor x := (x / fx_one)%Z;
  s_of_Z z := (z * fx_one)%Z;
  format_time m s := decimal m ++ str_of "m " ++ decimal (s ÷ fx_one) ++ str_of "s";
  format_progress elapsed iter percent loss :=
    elapsed ++ str_of " (" ++ decimal (Z.of_nat iter) ++ str_of " "
    ++ decimal (percent ÷ fx_one) ++ str_of "%) "
    ++ decimal (loss ÷ fx_one) ++ str_of "."
    ++ drop 1 (decimal (10000 + (Z.abs loss `mod` fx_one * 10000) ÷ fx_one));
|}.

Definition notebook0 : Notebook :=
  {| nb_world := world0; nb_random := 2024%N; nb_clock := 0%Z; nb_stdout := [] |}.

(** What cell 2 loads from the two files. *)
Definition tables : gmap (list N) (list (list N)) * list (list N) :=
  unwrap (∅, []) (@load_data small_unicode two_files).

(** A directory whose only file holds white space. *)
Definition blank_txt : list N := str_of "data/names/Blank.txt".

Definition blank_file : FileSystem := {|
  glob pat := if bool_decide (pat = names_pattern) then [blank_txt] else [];
  read_text _ := inr [32; 10; 9]%N;
|}.

Definition blank_tables : gmap (list N) (list (list N)) * list (list N) :=
  unwrap (∅, []) (@load_data small_unicode blank_file).

Definition blank_notebook : Notebook :=
  {| nb_world := {| net := (RNN_init 1 n_letters 3 n_letters 42%N).1; gen := 7%N;
                   trace := [] |};
     nb_random := 2024%N; nb_clock := 0%Z; nb_stdout := [] |}.

End DemoCells.

(** * Proofs *)

Ltac rsimpl := cbn [mbind mret result_bind result_ret].

Opaque n_letters all_letters.

Lemma norm_index_nat (n k : nat) : k < n → norm_index n (Z.of_nat k) = Ok k.
Proof.
  intros Hk. unfold norm_index. rewrite bool_decide_eq_true_2 by lia.
  by rewrite Nat2Z.id.
Qed.

Lemma getitem_nat {A} (l : list A) (k : nat) x :
  l !! k = Some x → getitem l (Z.of_nat k) = Ok x.
Proof.
  intros Hx. unfold getitem.
  rewrite norm_index_nat by (by eapply lookup_lt_Some). simpl. by rewrite Hx.
Qed.

Lemma setitem_nat {A} (l : list A) (k : nat) x :
  k < length l → setitem l (Z.of_nat k) x = Ok (<[k := x]> l).
Proof. intros Hk. unfold setitem. by rewrite norm_index_nat. Qed.

Lemma str_find_lookup (s : list N) (c : N) k :
  NoDup s → s !! k = Some c → str_find s c = Z.of_nat k.
Proof.
  intros Hnd Hk. unfold str_find.
  destruct (list_find (λ y, y = c) s) as [[i y]|] eqn:Hf.
  - apply list_find_Some in Hf as (Hi & -> & _).
    f_equal. eapply NoDup_lookup; eauto.
  - apply list_find_None in Hf. rewrite Forall_forall in Hf.
    exfalso. eapply Hf; [|reflexivity]. by eapply list_elem_of_lookup_2.
Qed.

Lemma str_find_elem_of (s : list N) (c : N) :
  c ∈ s → ∃ k, s !! k = Some c ∧ str_find s c = Z.of_nat k.
Proof.
  intros Hc. unfold str_find.
  destruct (list_find (λ y, y = c) s) as [[i y]|] eqn:Hf.
  - apply list_find_Some in Hf as (Hi & -> & _). eauto.
  - apply list_find_None in Hf. rewrite Forall_forall in Hf.
    exfalso. by eapply Hf.
Qed.

Lemma str_find_not_elem_of (s : list N) (c : N) : c ∉ s → str_find s c = (-1)%Z.
Proof.
  intros Hc. unfold str_find.
  destruct (list_find (λ y, y = c) s) as [[i y]|] eqn:Hf; [|done].
  apply list_find_Some in Hf as (Hi & -> & _).
  exfalso. apply Hc. by eapply list_elem_of_lookup_2.
Qed.

Lemma length_all_letters : length all_letters = 58.
Proof. by vm_compute. Qed.

Lemma n_letters_eq : n_letters = 59.
Proof. by vm_compute. Qed.

Lemma NoDup_all_letters : NoDup all_letters.
Proof. apply (bool_decide_unpack _). by vm_compute. Qed.

Section TensorFacts.
Context `{Scalar}.

Lemma one_hot_at_insert (n k : nat) :
  k < n → one_hot_at (<[k := s_one]> (replicate n s_zero)) n k.
Proof.
  intros Hk. split_and!.
  - by rewrite length_insert, length_replicate.
  - apply list_lookup_insert_eq. by rewrite length_replicate.
  - intros j Hj Hne. rewrite list_lookup_insert_ne by done.
    by apply lookup_replicate_2.
Qed.

Lemma length_one_hot (n k : nat) : length (one_hot n k) = n.
Proof. unfold one_hot. by rewrite length_insert, length_replicate. Qed.

Lemma setitem2_row0 (row : list scalar) (k : nat) v :
  k < length row → setitem2 [row] 0 (Z.of_nat k) v = Ok [<[k := v]> row].
Proof.
  intros Hk. unfold setitem2. change 0%Z with (Z.of_nat 0).
  rewrite (getitem_nat [row] 0 row) by done. rsimpl.
  rewrite setitem_nat by done. rsimpl.
  by rewrite (setitem_nat [row] 0) by (cbn; lia).
Qed.
End TensorFacts.

Section ExampleTensors.
Context `{Scalar}.
Variable all_categories : list (list N).

Lemma categoryTensor_row (category : list N) :
  category ∈ all_categories →
  ∃ li,
    all_categories !! li = Some category
    ∧ (∀ j, j < li → all_categories !! j ≠ Some category)
    ∧ categoryTensor all_categories category
      = Ok [one_hot (n_categories all_categories) li].
Proof.
  intros Hin. unfold categoryTensor, list_index.
  destruct (list_find_elem_of (λ y, y = category) all_categories category)
    as [[li y] Hf]; [done..|].
  rewrite Hf. apply list_find_Some in Hf as (Hli & -> & Hleast).
  exists li. split_and!; [done| |].
  - intros j Hj Hc. by eapply Hleast.
  - rsimpl. unfold zeros2. cbn [replicate]. apply setitem2_row0.
    rewrite length_replicate. by eapply lookup_lt_Some.
Qed.

Lemma categoryTensor_ok (category : list N) :
  category ∈ all_categories →
  ∃ row, categoryTensor all_categories category = Ok [row]
         ∧ length row = n_categories all_categories.
Proof.
  intros (li & _ & _ & Hct)%categoryTensor_row.
  eexists. split; [exact Hct|]. apply length_one_hot.
Qed.

(** C5: for a category of [all_categories], [categoryTensor] returns a
    [1 x n_categories] tensor whose only row holds a one at the (first)
    index of the category in [all_categories] and zeros at every other
    index. *)
Theorem categoryTensor_one_hot (category : list N) :
  category ∈ all_categories →
  ∃ li row,
    categoryTensor all_categories category = Ok [row]
    ∧ all_categories !! li = Some category
    ∧ (∀ j, j < li → all_categories !! j ≠ Some category)
    ∧ one_hot_at row (n_categories all_categories) li.
Proof.
  intros Hin.
  destruct (categoryTensor_row category Hin) as (li & Hli & Hleast & Hct).
  exists li, (one_hot (n_categories all_categories) li).
  split_and!; [exact Hct|exact Hli|exact Hleast|].
  apply one_hot_at_insert. by eapply lookup_lt_Some.
Qed.
End ExampleTensors.

Section InputTensor.
Context `{Scalar}.

Lemma str_find_range (s : list N) (c : N) :
  (-1 ≤ str_find s c < Z.of_nat (length s))%Z.
Proof.
  unfold str_find. destruct (list_find _ s) as [[i y]|] eqn:Hf; [|lia].
  apply list_find_Some in Hf as (Hi & _). apply lookup_lt_Some in Hi. lia.
Qed.

Lemma letter_slot_lt (c : N) : letter_slot c < n_letters.
Proof.
  unfold letter_slot. pose proof (str_find_range all_letters c) as Hr.
  rewrite length_all_letters in Hr. rewrite n_letters_eq.
  case_bool_decide; lia.
Qed.

Lemma norm_index_letter (c : N) :
  norm_index n_letters (str_find all_letters c) = Ok (letter_slot c).
Proof.
  unfold norm_index, letter_slot. pose proof (str_find_range all_letters c) as Hr.
  rewrite length_all_letters in Hr. rewrite n_letters_eq.
  repeat case_bool_decide; try lia; done.
Qed.

Lemma setitem2_letter (c : N) :
  setitem2 (zeros2 1 n_letters) 0 (str_find all_letters c) s_one = Ok [letter_row c].
Proof.
  unfold setitem2, zeros2. change 0%Z with (Z.of_nat 0).
  rewrite (getitem_nat _ 0 (replicate n_letters s_zero)) by done. rsimpl.
  unfold setitem. rewrite length_replicate, norm_index_letter. rsimpl.
  change 0%Z with (Z.of_nat 0). by rewrite norm_index_nat by lia.
Qed.

Lemma inputTensor_loop (line : list N) (k i : nat) :
  i + k = length line →
  for_each (seq i k) (λ li tensor,
      letter ← getitem line (Z.of_nat li);
      setitem3 tensor (Z.of_nat li) 0 (str_find all_letters letter) s_one)
    (map (λ c, [letter_row c]) (take i line) ++ replicate k (zeros2 1 n_letters))
  = Ok (map (λ c, [letter_row c]) line).
Proof.
  revert i. induction k as [|k IH]; intros i Hik; simpl.
  - rewrite take_ge by lia. by rewrite app_nil_r.
  - destruct (lookup_lt_is_Some_2 line i) as [c Hc]; [lia|].
    rewrite (getitem_nat _ _ _ Hc). rsimpl.
    specialize (IH (S i) ltac:(lia)).
    rewrite (take_S_r _ _ _ Hc), map_app, <- app_assoc in IH. simpl in IH.
    assert (length (map (λ c, [letter_row c]) (take i line)) = i) as Hlen.
    { rewrite length_map, length_take. lia. }
    revert IH Hlen. generalize (map (λ c, [letter_row c]) (take i line)).
    intros D IH Hlen.
    unfold setitem3. rewrite (getitem_nat _ i (zeros2 1 n_letters)).
    2:{ rewrite lookup_app_r by lia. by rewrite Hlen, Nat.sub_diag. }
    rsimpl. rewrite setitem2_letter. rsimpl.
    rewrite setitem_nat by (rewrite length_app; cbn [length]; lia). rsimpl.
    rewrite insert_app_r_alt by lia. rewrite Hlen, Nat.sub_diag. exact IH.
Qed.

Lemma inputTensor_eq (line : list N) :
  inputTensor line = Ok (map (λ c, [letter_row c]) line).
Proof.
  unfold inputTensor, py_range, zeros3. rewrite Nat.sub_0_r.
  apply (inputTensor_loop line (length line) 0). lia.
Qed.

Lemma letter_slot_elem_of (c : N) :
  c ∈ all_letters → all_letters !! letter_slot c = Some c.
Proof.
  intros (k & Hk & Hf)%str_find_elem_of. unfold letter_slot. rewrite Hf.
  rewrite bool_decide_eq_false_2 by lia. by rewrite Nat2Z.id.
Qed.

(** C6 (amended): for every line whose characters all belong to
    [all_letters], [inputTensor] returns a [len(line) x 1 x n_letters]
    tensor whose row at each position is one-hot at the index of that
    position's letter in [all_letters]. *)
Theorem inputTensor_one_hot (line : list N) :
  Forall (λ c, c ∈ all_letters) line → inputTensor_spec line.
Proof.
  intros Hall. exists (map (λ c, [letter_row c]) line). split_and!.
  - apply inputTensor_eq.
  - by rewrite length_map.
  - intros li c Hc. exists (letter_row c), (letter_slot c).
    assert (c ∈ all_letters) as Hin by (by apply (Forall_lookup_1 _ _ _ _ Hall Hc)).
    split_and!.
    + by rewrite list_lookup_fmap, Hc.
    + by apply letter_slot_elem_of.
    + apply one_hot_at_insert, letter_slot_lt.
Qed.
End InputTensor.

Section TargetTensor.

Lemma mapM_getitem_seq {B} (line : list N) (f : N → B) (k i : nat) :
  i + k ≤ length line →
  mapM (M := result) (λ li, c ← getitem line (Z.of_nat li); Ok (f c)) (seq i k)
  = Ok (map f (take k (drop i line))).
Proof.
  revert i. induction k as [|k IH]; intros i Hik; [done|].
  destruct (lookup_lt_is_Some_2 line i) as [c Hc]; [lia|].
  cbn [seq mapM]. rewrite (getitem_nat _ _ _ Hc). rsimpl.
  rewrite IH by lia. rsimpl.
  rewrite (drop_S _ _ _ Hc). done.
Qed.

Lemma targetTensor_eq (line : list N) :
  targetTensor line
  = Ok (map (str_find all_letters) (tail line) ++ [Z.of_nat n_letters - 1]%Z).
Proof.
  unfold targetTensor, py_range. destruct line as [|c line]; [done|].
  rewrite mapM_getitem_seq by (cbn [length]; lia). rsimpl.
  do 3 f_equal. cbn [length drop tail]. rewrite Nat.sub_succ, Nat.sub_0_r, drop_0.
  by rewrite take_ge by lia.
Qed.

(** C2 (amended): for every non-empty line whose characters from the
    second on belong to [all_letters], [targetTensor] returns [len(line)]
    elements, the indices in [all_letters] of [line[1]], ..., followed by
    the EOS index [n_letters - 1]. *)
Theorem targetTensor_shifted_with_EOS (line : list N) :
  line ≠ [] → Forall (λ c, c ∈ all_letters) (tail line) → targetTensor_spec line.
Proof.
  intros Hne Hall. destruct line as [|c0 line]; [done|]. cbn [tail] in Hall.
  exists (map (str_find all_letters) line ++ [Z.of_nat n_letters - 1]%Z).
  split_and!.
  - apply targetTensor_eq.
  - rewrite length_app, length_map. cbn [length]. lia.
  - cbn [length]. rewrite Nat.sub_succ, Nat.sub_0_r. intros i Hi.
    destruct (lookup_lt_is_Some_2 line i) as [c Hc]; [done|].
    assert (c ∈ all_letters) as Hin by (by apply (Forall_lookup_1 _ _ _ _ Hall Hc)).
    destruct (str_find_elem_of _ _ Hin) as (k & Hk & Hf).
    exists c, k. split_and!; [done..|].
    rewrite lookup_app_l by (rewrite length_map; lia).
    by rewrite list_lookup_fmap, Hc, <- Hf.
  - cbn [length]. rewrite Nat.sub_succ, Nat.sub_0_r.
    rewrite lookup_app_r by (rewrite length_map; lia).
    by rewrite length_map, Nat.sub_diag.
Qed.
End TargetTensor.

(** ** Unicode clean-up and data loading *)

Section UnicodeFacts.
Context `{Unicode}.

Lemma unicodeToAscii_all_letters (s : list N) :
  Forall (λ c, c ∈ all_letters) (unicodeToAscii s).
Proof.
  apply Forall_forall. intros c Hc. unfold unicodeToAscii in Hc.
  apply list_elem_of_filter in Hc as [[_ Hin] _].
  unfold str_contains in Hin. by apply bool_decide_eq_true_1 in Hin.
Qed.

Lemma filter_Forall_id {A} (P : A → Prop) `{∀ x, Decision (P x)} (l : list A) :
  Forall P l → filter P l = l.
Proof.
  induction 1 as [|x l Hx Hl IH]; [done|].
  rewrite filter_cons_True by done. by rewrite IH.
Qed.

Context `{!UnicodeLaws}.

(** C10: every character of [unicodeToAscii s] is in [all_letters], and
    [unicodeToAscii] is idempotent. *)
Theorem unicodeToAscii_letters_idempotent (s : list N) :
  Forall (λ c, c ∈ all_letters) (unicodeToAscii s)
  ∧ unicodeToAscii (unicodeToAscii s) = unicodeToAscii s.
Proof.
  pose proof (unicodeToAscii_all_letters s) as Hall. split; [done|].
  unfold unicodeToAscii at 1.
  rewrite normalize_NFD_all_letters by done.
  apply filter_Forall_id. eapply Forall_impl; [exact Hall|].
  intros c Hc. split; [by apply category_all_letters|].
  unfold str_contains. by apply bool_decide_eq_true_2.
Qed.
End UnicodeFacts.

(** ** Paths *)

Lemma str_rfind_absent (s : list N) (c : N) : c ∉ s → str_rfind s c = (-1)%Z.
Proof.
  intros Hc. unfold str_rfind.
  destruct (list_find _ (reverse s)) as [[i y]|] eqn:Hf; [|done].
  apply list_find_Some in Hf as (Hi & -> & _).
  exfalso. apply Hc. apply elem_of_reverse. by eapply list_elem_of_lookup_2.
Qed.

Lemma str_rfind_last (s t : list N) (c : N) :
  c ∉ t → str_rfind (s ++ c :: t) c = Z.of_nat (length s).
Proof.
  intros Hc. unfold str_rfind.
  rewrite reverse_app, reverse_cons, <- app_assoc.
  rewrite list_find_app_r.
  2:{ apply list_find_None, Forall_forall. intros y Hy ->.
      by apply Hc, elem_of_reverse. }
  rewrite length_reverse. cbn [app list_find].
  rewrite decide_True by done. cbn.
  rewrite length_app. cbn [length]. lia.
Qed.

Lemma names_dir_split : names_dir = str_of "data/names" ++ [chr_slash].
Proof. by vm_compute. Qed.

Lemma txt_ext_split : txt_ext = chr_dot :: str_of "txt".
Proof. by vm_compute. Qed.

Lemma basename_names (stem : list N) :
  chr_slash ∉ stem → basename (names_dir ++ stem ++ txt_ext) = stem ++ txt_ext.
Proof.
  intros Hs. unfold basename.
  assert (chr_slash ∉ stem ++ txt_ext) as Hno.
  { rewrite elem_of_app. intros [?|Ht]; [done|].
    revert Ht. apply (bool_decide_unpack _). by vm_compute. }
  rewrite names_dir_split at 1. rewrite <- app_assoc. cbn [app].
  rewrite str_rfind_last by done.
  replace (Z.to_nat (Z.of_nat (length (str_of "data/names")) + 1)) with (length names_dir)
    by (by vm_compute).
  apply drop_app_length.
Qed.

Lemma splitext_names (stem : list N) :
  chr_slash ∉ stem → head stem ≠ Some chr_dot → stem ≠ [] →
  splitext (stem ++ txt_ext) = (stem, txt_ext).
Proof.
  intros Hs Hd Hne. unfold splitext.
  assert (chr_slash ∉ stem ++ txt_ext) as Hno.
  { rewrite elem_of_app. intros [?|Ht]; [done|].
    revert Ht. apply (bool_decide_unpack _). by vm_compute. }
  rewrite (str_rfind_absent _ _ Hno).
  rewrite txt_ext_split. rewrite str_rfind_last.
  2:{ apply (bool_decide_unpack _). by vm_compute. }
  rewrite bool_decide_eq_true_2 by lia.
  rewrite Nat2Z.id. change (Z.to_nat (-1 + 1)) with 0. unfold py_range.
  rewrite Nat.sub_0_r.
  destruct stem as [|c0 stem]; [done|]. cbn [length seq existsb app].
  cbn [lookup list_lookup]. rewrite bool_decide_eq_true_2.
  2:{ intros Heq. apply Hd. by rewrite <- Heq. }
  cbn [orb].
  change (c0 :: stem ++ chr_dot :: str_of "txt") with ((c0 :: stem) ++ chr_dot :: str_of "txt").
  change (S (length stem)) with (length (c0 :: stem)).
  by rewrite take_app_length, drop_app_length.
Qed.

Section Loading.
Context `{UC : Unicode} `{FS : FileSystem}.

Lemma category_of_names (stem : list N) :
  chr_slash ∉ stem → head stem ≠ Some chr_dot → stem ≠ [] →
  category_of (names_dir ++ stem ++ txt_ext) = stem.
Proof.
  intros. unfold category_of. rewrite basename_names by done.
  by rewrite splitext_names.
Qed.

Lemma load_data_eq :
  load_data
  = match for_each (glob names_pattern) load_step (∅, []) with
    | Ok (category_lines, all_categories) =>
        if bool_decide (length all_categories = 0) then Raise (RuntimeError data_not_found)
        else Ok (category_lines, all_categories)
    | Raise e => Raise e
    end.
Proof.
  unfold load_data, findFiles. by destruct (for_each _ _ _) as [[??]|?].
Qed.


Lemma readLines_Ok (filename text : list N) :
  open_read filename = Ok text →
  readLines filename = Ok (map unicodeToAscii (py_split chr_newline (py_strip text))).
Proof. intros Hr. unfold readLines. by rewrite Hr. Qed.

Lemma readLines_Raise (filename : list N) (e : exn) :
  open_read filename = Raise e → readLines filename = Raise e.
Proof. intros Hr. unfold readLines. by rewrite Hr. Qed.

Lemma stored_lines_Ok (filename text : list N) :
  open_read filename = Ok text →
  stored_lines filename = map unicodeToAscii (py_split chr_newline (py_strip text)).
Proof. intros Hr. unfold stored_lines. by rewrite (readLines_Ok _ _ Hr). Qed.

Lemma load_step_eq (f : list N) m ac :
  load_step f (m, ac)
  = match readLines f with
    | Ok lines => Ok (<[category_of f := lines]> m, ac ++ [category_of f])
    | Raise e => Raise e
    end.
Proof. unfold load_step. by destruct (readLines f). Qed.

(** The loop over files that can all be read. *)
Lemma load_loop_Ok (files : list (list N)) m ac :
  Forall (λ f, ∃ text, open_read f = Ok text) files →
  for_each files load_step (m, ac)
  = Ok (foldl (λ m f, <[category_of f := stored_lines f]> m) m files,
        ac ++ map category_of files).
Proof.
  intros Hall. revert m ac.
  induction Hall as [|f files [text Hf] _ IH]; intros m ac; cbn [for_each foldl map].
  - by rewrite app_nil_r.
  - rewrite load_step_eq, (readLines_Ok _ _ Hf). rsimpl.
    rewrite IH, (stored_lines_Ok _ _ Hf). by rewrite <- app_assoc.
Qed.

(** The loop ends with the error of the first file that cannot be read. *)
Lemma load_loop_inv (files : list (list N)) m ac :
  match for_each files load_step (m, ac) with
  | Ok _ => Forall (λ f, ∃ text, open_read f = Ok text) files
  | Raise e => ∃ f, f ∈ files ∧ open_read f = Raise e
  end.
Proof.
  revert m ac. induction files as [|f files IH]; intros m ac; cbn [for_each].
  { constructor. }
  rewrite load_step_eq. destruct (open_read f) as [text|e] eqn:Hf.
  - rewrite (readLines_Ok _ _ Hf). rsimpl.
    specialize (IH (<[category_of f := map unicodeToAscii
                                          (py_split chr_newline (py_strip text))]> m)
                  (ac ++ [category_of f])).
    destruct (for_each files load_step _) as [r|e].
    + constructor; [by exists text|done].
    + destruct IH as (f' & Hin & Hf'). exists f'. split; [by apply elem_of_cons; right|done].
  - rewrite (readLines_Raise _ _ Hf). rsimpl.
    exists f. split; [by apply elem_of_cons; left|done].
Qed.

Lemma lookup_foldl_insert_fresh (files : list (list N)) (m : gmap (list N) (list (list N))) c :
  c ∉ map category_of files →
  foldl (λ m f, <[category_of f := stored_lines f]> m) m files !! c = m !! c.
Proof.
  revert m. induction files as [|f files IH]; intros m Hc; [done|].
  cbn [foldl]. cbn [map] in Hc. apply not_elem_of_cons in Hc as [Hne Hc].
  rewrite IH by done. by rewrite lookup_insert_ne.
Qed.


Context `{FL : !FileSystemLaws}.

Lemma glob_categories_NoDup : NoDup (map category_of (glob names_pattern)).
Proof.
  apply NoDup_fmap_2_strong; [|apply glob_NoDup].
  intros p q Hp Hq Heq.
  destruct (glob_names p Hp) as (sp & -> & ? & ? & ?).
  destruct (glob_names q Hq) as (sq & -> & ? & ? & ?).
  rewrite !category_of_names in Heq by done. by rewrite Heq.
Qed.

End Loading.

(** ** The monad, shapes and the forward pass *)

Section MonadFacts.
Context `{SC : Scalar} `{LB : !Library} `{RG : !Rng} `{AG : !Autograd}.

Lemma M_bind_eq {A B} (m : M A) (k : A → M B) (w : World) :
  (m ≫= k) w = match m w with
               | (Ok a, w') => k a w'
               | (Raise e, w') => (Raise e, w')
               end.
Proof. reflexivity. Qed.

Lemma bind_lift {A B} (r : result A) (k : A → M B) (w : World) :
  (lift r ≫= k) w = match r with
                    | Ok a => k a w
                    | Raise e => (Raise e, w)
                    end.
Proof. rewrite M_bind_eq. unfold lift. by destruct r. Qed.

Lemma bind_lift_Ok {A B} (r : result A) (k : A → M B) (w : World) a :
  r = Ok a → (lift r ≫= k) w = k a w.
Proof. intros ->. by rewrite bind_lift. Qed.

Lemma bind_get_net {B} (k : RNN → M B) (w : World) : (get_net ≫= k) w = k (net w) w.
Proof. reflexivity. Qed.

Lemma getitem_nat_eq {A} (l : list A) (k : nat) :
  getitem l (Z.of_nat k) = match l !! k with
                           | Some x => Ok x
                           | None => Raise IndexError
                           end.
Proof.
  destruct (l !! k) as [x|] eqn:Hk; [by apply getitem_nat|].
  apply lookup_ge_None in Hk. unfold getitem, norm_index.
  by rewrite !bool_decide_eq_false_2 by lia.
Qed.
End MonadFacts.

Section Shapes.
Context `{SC : Scalar} `{LB : !Library} `{RG : !Rng} `{AG : !Autograd}.

Lemma has_shape_1 (c : nat) (t : tensor2) :
  has_shape 1 c t = true ↔ ∃ row, t = [row] ∧ length row = c.
Proof.
  unfold has_shape, shape2. rewrite bool_decide_eq_true. cbn [replicate]. split.
  - destruct t as [|row [|??]]; try done. intros [= Hlen]. eauto.
  - by intros (row & -> & <-).
Qed.

Lemma has_shape_length (r c : nat) (t : tensor2) : has_shape r c t = true → length t = r.
Proof.
  unfold has_shape, shape2. rewrite bool_decide_eq_true. intros Ht.
  by rewrite <- (length_map length t), Ht, length_replicate.
Qed.

Lemma cat_dim1_rows3 (a b c : list scalar) : cat_dim1 [[a]; [b]; [c]] = Ok [a ++ b ++ c].
Proof. reflexivity. Qed.

Lemma cat_dim1_rows2 (a b : list scalar) : cat_dim1 [[a]; [b]] = Ok [a ++ b].
Proof. reflexivity. Qed.

Lemma Linear_forward_row (l : Linear) (r : list scalar) :
  length r = in_features l →
  Linear_forward l [r]
  = Ok [zip_with s_add (map (dot r) (data (weight l))) (bias_row l)].
Proof.
  intros Hr. unfold Linear_forward. cbn [forallb].
  apply Nat.eqb_eq in Hr. by rewrite Hr.
Qed.

Lemma Linear_wf_out (l : Linear) (r : list scalar) :
  Linear_wf l = true →
  length (zip_with s_add (map (dot r) (data (weight l))) (bias_row l)) = out_features l.
Proof.
  unfold Linear_wf. rewrite !andb_true_iff. intros [[[Hw Hb] _] _].
  apply has_shape_length in Hw. apply has_shape_1 in Hb as (b & Hb & Hlen).
  unfold bias_row. rewrite Hb. cbn [head default].
  rewrite length_zip_with, length_map. unfold id. lia.
Qed.

Lemma dropout_row_length (p : scalar) (r : list scalar) (g : rng) :
  length (dropout_row p r g).1 = length r.
Proof.
  revert g. induction r as [|x r IH]; intros g; [done|]. cbn [dropout_row].
  destruct (rng_bernoulli _ g) as [keep g1]. specialize (IH g1).
  destruct (dropout_row p r g1) as [r' g2]. cbn in *. by rewrite IH.
Qed.

Lemma dropout_one_row (p : scalar) (r : list scalar) (w : World) :
  dropout p [r] w
  = (Ok [(dropout_row p r (gen w)).1],
     {| net := net w; gen := (dropout_row p r (gen w)).2; trace := trace w |}).
Proof.
  unfold dropout. cbn [dropout_rows]. by destruct (dropout_row p r (gen w)).
Qed.

Lemma log_softmax_row_length (r : list scalar) : length (log_softmax_row r) = length r.
Proof. unfold log_softmax_row. by rewrite length_map. Qed.

Lemma RNN_wf_fields (n_cat isz osz : nat) (self : RNN) :
  RNN_wf n_cat isz osz self = true →
  Linear_wf (i2h self) = true ∧ Linear_wf (i2o self) = true ∧ Linear_wf (o2o self) = true
  ∧ in_features (i2h self) = n_cat + isz + hidden_size self
  ∧ out_features (i2h self) = hidden_size self
  ∧ in_features (i2o self) = n_cat + isz + hidden_size self
  ∧ out_features (i2o self) = osz
  ∧ in_features (o2o self) = hidden_size self + osz
  ∧ out_features (o2o self) = osz.
Proof.
  unfold RNN_wf. rewrite !andb_true_iff, !bool_decide_eq_true. tauto.
Qed.

(** With matching shapes the forward pass returns, touching only the
    generator. *)
Lemma forward_ok (n_cat isz osz : nat) (self : RNN) (rc rx rh : list scalar) (w : World) :
  RNN_wf n_cat isz osz self = true →
  length rc = n_cat → length rx = isz → length rh = hidden_size self →
  ∃ ro rh' g',
    forward self [rc] [rx] [rh] w
    = (Ok ([ro], [rh']), {| net := net w; gen := g'; trace := trace w |})
    ∧ length ro = osz ∧ length rh' = hidden_size self
    ∧ Linear_forward (i2h self) [rc ++ rx ++ rh] = Ok [rh'].
Proof.
  intros Hwf Hc Hx Hh.
  destruct (RNN_wf_fields _ _ _ _ Hwf) as (W1 & W2 & W3 & I1 & O1 & I2 & O2 & I3 & O3).
  assert (length (rc ++ rx ++ rh) = in_features (i2h self)) as Hin1.
  { rewrite !length_app. lia. }
  assert (length (rc ++ rx ++ rh) = in_features (i2o self)) as Hin2.
  { rewrite !length_app. lia. }
  pose proof (Linear_forward_row _ _ Hin1) as E1.
  pose proof (Linear_forward_row _ _ Hin2) as E2.
  pose proof (Linear_wf_out _ (rc ++ rx ++ rh) W1) as L1.
  pose proof (Linear_wf_out _ (rc ++ rx ++ rh) W2) as L2.
  set (h1 := zip_with s_add (map (dot (rc ++ rx ++ rh)) (data (weight (i2h self))))
               (bias_row (i2h self))) in *.
  set (o1 := zip_with s_add (map (dot (rc ++ rx ++ rh)) (data (weight (i2o self))))
               (bias_row (i2o self))) in *.
  assert (length (h1 ++ o1) = in_features (o2o self)) as Hin3.
  { rewrite length_app. lia. }
  pose proof (Linear_forward_row _ _ Hin3) as E3.
  pose proof (Linear_wf_out _ (h1 ++ o1) W3) as L3.
  set (o2 := zip_with s_add (map (dot (h1 ++ o1)) (data (weight (o2o self))))
               (bias_row (o2o self))) in *.
  exists (log_softmax_row (dropout_row (dropout_p self) o2 (gen w)).1), h1,
         (dropout_row (dropout_p self) o2 (gen w)).2.
  split_and!.
  - unfold forward.
    rewrite (bind_lift_Ok _ _ _ _ (cat_dim1_rows3 rc rx rh)).
    rewrite (bind_lift_Ok _ _ _ _ E1), (bind_lift_Ok _ _ _ _ E2).
    rewrite (bind_lift_Ok _ _ _ _ (cat_dim1_rows2 h1 o1)).
    rewrite (bind_lift_Ok _ _ _ _ E3).
    rewrite M_bind_eq, dropout_one_row. reflexivity.
  - rewrite log_softmax_row_length, dropout_row_length. lia.
  - lia.
  - exact E1.
Qed.

(** Whatever the shapes, a forward pass leaves network and log alone, and
    a hidden state it returns is the one [i2h] computes. *)
Lemma forward_inv (self : RNN) (c x h : tensor2) (w : World) r w' :
  forward self c x h w = (r, w') →
  net w' = net w ∧ trace w' = trace w
  ∧ ∀ o h', r = Ok (o, h') → i2h_step self c x h h'.
Proof.
  unfold forward. rewrite bind_lift.
  destruct (cat_dim1 [c; x; h]) as [ic|e] eqn:Hic; [|by intros [= <- <-]].
  rewrite bind_lift.
  destruct (Linear_forward (i2h self) ic) as [h1|e] eqn:Hh1; [|by intros [= <- <-]].
  rewrite bind_lift.
  destruct (Linear_forward (i2o self) ic) as [o1|e]; [|by intros [= <- <-]].
  rewrite bind_lift.
  destruct (cat_dim1 [h1; o1]) as [oc|e]; [|by intros [= <- <-]].
  rewrite bind_lift.
  destruct (Linear_forward (o2o self) oc) as [o2|e]; [|by intros [= <- <-]].
  rewrite M_bind_eq. unfold dropout.
  destruct (dropout_rows (dropout_p self) o2 (gen w)) as [o3 g'].
  intros [= <- <-]. split_and!; [done..|].
  intros o h' [= <- <-]. by exists ic.
Qed.
End Shapes.

Section Calls.
Context `{SC : Scalar} `{LB : !Library} `{RG : !Rng} `{AG : !Autograd}.

Lemma rnn_call_ok (n_cat isz osz : nat) (rc rx rh : list scalar) (w : World) :
  RNN_wf n_cat isz osz (net w) = true →
  length rc = n_cat → length rx = isz → length rh = hidden_size (net w) →
  ∃ ro rh' g',
    rnn_call [rc] [rx] [rh] w
    = (Ok ([ro], [rh']),
       {| net := net w; gen := g';
          trace := trace w ++ [EvForward [rc] [rx] [rh] [ro] [rh']] |})
    ∧ length ro = osz ∧ length rh' = hidden_size (net w).
Proof.
  intros Hwf Hc Hx Hh.
  destruct (forward_ok _ _ _ _ rc rx rh w Hwf Hc Hx Hh) as (ro & rh' & g' & Hf & ? & ? & _).
  exists ro, rh', g'. split_and!; [|done..].
  unfold rnn_call. rewrite bind_get_net, M_bind_eq, Hf. reflexivity.
Qed.

Lemma rnn_call_inv (c x h : tensor2) (w : World) r w' :
  rnn_call c x h w = (r, w') →
  net w' = net w
  ∧ match r with
    | Ok (o, h') => trace w' = trace w ++ [EvForward c x h o h'] ∧ i2h_step (net w) c x h h'
    | Raise _ => trace w' = trace w
    end.
Proof.
  unfold rnn_call. rewrite bind_get_net, M_bind_eq.
  destruct (forward (net w) c x h w) as [[[o h']|e] w1] eqn:Hf;
    apply forward_inv in Hf as (Hn & Ht & Hstep).
  - intros [= <- <-]. cbn. rewrite Hn, Ht. split_and!; [done..|]. by apply (Hstep o h').
  - by intros [= <- <-].
Qed.
End Calls.

Section SampleRefinement.
Context `{SC : Scalar} `{LB : !Library} `{RG : !Rng} `{AG : !Autograd}.
Variable all_categories : list (list N).

Lemma letter_row_lookup (k : nat) (letter : N) :
  all_letters !! k = Some letter → letter_row letter = one_hot n_letters k.
Proof.
  intros Hk. unfold letter_row, one_hot, letter_slot.
  rewrite (str_find_lookup _ _ _ NoDup_all_letters Hk).
  rewrite bool_decide_eq_false_2 by lia. by rewrite Nat2Z.id.
Qed.

Lemma sample_loop_greedy (k i : nat) (ct : tensor2) (input : tensor3)
    (current hidden : tensor2) (name : list N) (w : World) :
  getitem input 0 = Ok current →
  (locals ← for_each_break (seq i k) (sample_step ct) (input, hidden, name);
   mret locals.2) w
  = greedy k ct current hidden name w.
Proof.
  revert i input current hidden name w.
  induction k as [|k IH]; intros i input current hidden name w Hcur; [done|].
  cbn [seq for_each_break greedy]. rewrite !M_bind_eq.
  unfold sample_step at 1. rewrite (bind_lift_Ok _ _ _ _ Hcur). rewrite !M_bind_eq.
  destruct (rnn_call ct current hidden w) as [[[output hidden']|e] w1]; [|done].
  rewrite !bind_lift.
  destruct (topk1 output) as [[topv topi]|e]; [|done].
  rewrite !bind_lift.
  destruct (getitem topi 0 ≫= _) as [best|e]; [|done].
  case_bool_decide; [done|].
  rewrite bind_lift, getitem_nat_eq.
  destruct (all_letters !! best) as [letter|] eqn:Hbest; [|done].
  rewrite bind_lift, inputTensor_eq. cbn [map].
  rewrite <- (IH (S i) [[letter_row letter]]).
  - by rewrite M_bind_eq.
  - by rewrite (letter_row_lookup _ _ Hbest).
Qed.

Lemma sample_greedy_eq (category start_letter : list N) (w : World) :
  sample all_categories category start_letter w
  = sample_greedy all_categories category start_letter w.
Proof.
  unfold sample, sample_greedy. rewrite !bind_lift.
  destruct (categoryTensor all_categories category) as [ct|e]; [|done].
  rewrite !bind_lift, inputTensor_eq. rsimpl.
  rewrite !bind_get_net.
  destruct (getitem (map (λ c, [letter_row c]) start_letter) 0) as [current|e] eqn:Hcur.
  - rewrite bind_get_net.
    rewrite <- (sample_loop_greedy max_length 0 ct _ current) by done.
    unfold py_range. rewrite Nat.sub_0_r, !M_bind_eq.
    destruct (for_each_break _ _ _ w) as [[[[??]?]|?]?]; done.
  - unfold py_range, max_length. cbn [Nat.sub seq for_each_break].
    rewrite !M_bind_eq. unfold sample_step at 1. by rewrite bind_lift, Hcur.
Qed.

Lemma argmax_from_bound (best : scalar) (besti i : nat) (r : list scalar) :
  besti < i → (argmax_from best besti i r).2 < i + length r.
Proof.
  revert best besti i. induction r as [|x r IH]; intros best besti i Hi; cbn; [lia|].
  destruct (s_ltb best x).
  - specialize (IH x i (S i) ltac:(lia)). lia.
  - specialize (IH best besti (S i) ltac:(lia)). lia.
Qed.

Lemma topk1_row_eq (x : scalar) (r : list scalar) :
  topk1 [x :: r]
  = match (x :: r) !! topk_pick (x :: r) with
    | Some y =>
        if forallb (λ z, negb (s_ltb y z)) (x :: r) then Ok ([[y]], [[topk_pick (x :: r)]])
        else Ok ([[(argmax_from x 0 1 r).1]], [[(argmax_from x 0 1 r).2]])
    | None => Ok ([[(argmax_from x 0 1 r).1]], [[(argmax_from x 0 1 r).2]])
    end.
Proof.
  unfold topk1, topk1_row. cbn [mapM]. destruct (argmax_from x 0 1 r) as [v i].
  destruct ((x :: r) !! topk_pick (x :: r)) as [y|]; [|done].
  by destruct (forallb _ _).
Qed.

Lemma topk1_one_row (ro : list scalar) :
  0 < length ro → ∃ v i, topk1 [ro] = Ok ([[v]], [[i]]) ∧ i < length ro.
Proof.
  destruct ro as [|x r]; cbn [length]; [lia|]. intros _.
  pose proof (argmax_from_bound x 0 1 r ltac:(lia)) as Hb. cbn in Hb.
  rewrite topk1_row_eq.
  destruct ((x :: r) !! topk_pick (x :: r)) as [y|] eqn:Hy.
  - destruct (forallb _ _).
    + eexists _, _. split; [done|]. apply lookup_lt_Some in Hy. exact Hy.
    + eexists _, _. split; [done|]. cbn [length]. lia.
  - eexists _, _. split; [done|]. cbn [length]. lia.
Qed.

(** Under a strict partial order, the scan leaves a value that no entry
    is above, at the position it reports. *)
Lemma argmax_from_highest `{SO : !ScalarOrder} (pre r : list scalar) (best : scalar)
    (besti : nat) :
  pre !! besti = Some best →
  (∀ v, v ∈ pre → s_ltb best v = false) →
  (pre ++ r) !! (argmax_from best besti (length pre) r).2
  = Some (argmax_from best besti (length pre) r).1
  ∧ ∀ v, v ∈ pre ++ r → s_ltb (argmax_from best besti (length pre) r).1 v = false.
Proof.
  revert pre best besti. induction r as [|x r IH]; intros pre best besti Hb Hmax.
  { cbn. by rewrite app_nil_r. }
  cbn [argmax_from].
  replace (S (length pre)) with (length (pre ++ [x])) by (rewrite length_app; cbn; lia).
  rewrite (cons_middle x pre r), app_assoc.
  destruct (s_ltb best x) eqn:Hlt.
  - apply IH.
    + by rewrite lookup_app_r, Nat.sub_diag by lia.
    + intros v [Hv|Hv%list_elem_of_singleton]%elem_of_app;
        [|subst v; apply s_ltb_irrefl].
      destruct (s_ltb x v) eqn:Hxv; [|done].
      pose proof (Hmax v Hv) as Hbv. by rewrite (s_ltb_trans _ _ _ Hlt Hxv) in Hbv.
  - apply IH.
    + rewrite lookup_app_l; [done|]. by eapply lookup_lt_Some.
    + intros v [Hv|Hv%list_elem_of_singleton]%elem_of_app; [by apply Hmax|by subst v].
Qed.

Lemma forallb_lookup {A} (f : A → bool) (l : list A) (j : nat) (v : A) :
  forallb f l = true → l !! j = Some v → f v = true.
Proof.
  revert j. induction l as [|a l IH]; intros j; [done|].
  cbn [forallb]. intros [Ha Hl]%andb_true_iff. destruct j as [|j]; cbn.
  - by intros [= <-].
  - by apply IH.
Qed.

(** What [topk(1)] reports is a position with the highest value. *)
Lemma topk_reports_highest `{SO : !ScalarOrder} (ro : list scalar) (i : nat) :
  topk_reports ro i → highest_at ro i.
Proof.
  intros [v Htop]. destruct ro as [|x r]; [done|].
  rewrite topk1_row_eq in Htop.
  assert (highest_at (x :: r) (argmax_from x 0 1 r).2) as Hfirst.
  { destruct (argmax_from_highest [x] r x 0) as [Hat Hmax]; [done| |].
    { intros v' Hv'%list_elem_of_singleton. subst v'. apply s_ltb_irrefl. }
    exists (argmax_from x 0 1 r).1. split; [exact Hat|].
    intros j v' Hj. apply Hmax. by eapply list_elem_of_lookup_2. }
  destruct ((x :: r) !! topk_pick (x :: r)) as [y|] eqn:Hy.
  - destruct (forallb _ _) eqn:Hall.
    + injection Htop as <- <-. exists y. split; [done|].
      intros j v' Hj. apply negb_true_iff. exact (forallb_lookup _ _ _ _ Hall Hj).
    + by injection Htop as <- <-.
  - by injection Htop as <- <-.
Qed.

Lemma loop_passes_impl (P Q : list scalar → nat → Prop) (k : nat) (x h : list scalar)
    (steps : list sample_iter) (letters : list N) :
  (∀ ro i, P ro i → Q ro i) →
  loop_passes P k x h steps letters → loop_passes Q k x h steps letters.
Proof.
  intros HPQ. revert k x h letters.
  induction steps as [|s steps IH]; intros k x h letters; [done|].
  cbn [loop_passes]. intros (k' & -> & Hx & Hh & Hsel & Hrest).
  exists k'. split_and!; [done|done|done|by apply HPQ|].
  case_bool_decide; [done|].
  destruct Hrest as (letter & letters' & x' & Hl & -> & Hx' & Hrest).
  exists letter, letters', x'. split_and!; [done..|]. by apply IH.
Qed.

Lemma length_letter_row (c : N) : length (letter_row c) = n_letters.
Proof. unfold letter_row, one_hot. by rewrite length_insert, length_replicate. Qed.

Lemma greedy_ok (n_cat k : nat) (rc rx rh : list scalar) (name : list N) (w : World) :
  RNN_wf n_cat n_letters n_letters (net w) = true →
  length rc = n_cat → length rx = n_letters → length rh = hidden_size (net w) →
  ∃ rest evs w',
    greedy k [rc] [rx] [rh] name w = (Ok (name ++ rest), w')
    ∧ length rest ≤ length evs ∧ length evs ≤ k
    ∧ net w' = net w ∧ trace w' = trace w ++ evs
    ∧ forallb is_forward evs = true.
Proof.
  revert rx rh name w. induction k as [|k IH]; intros rx rh name w Hwf Hc Hx Hh.
  { exists [], [], w. cbn. by rewrite !app_nil_r. }
  destruct (rnn_call_ok _ _ _ rc rx rh w Hwf Hc Hx Hh) as (ro & rh' & g' & Hcall & Hro & Hrh').
  destruct (topk1_one_row ro) as (v & best & Htop & Hbest).
  { rewrite Hro, n_letters_eq. lia. }
  cbn [greedy]. rewrite M_bind_eq, Hcall.
  rewrite (bind_lift_Ok _ _ _ _ Htop).
  rewrite (bind_lift_Ok _ _ _ best) by done.
  set (w1 := {| net := net w; gen := g';
                trace := trace w ++ [EvForward [rc] [rx] [rh] [ro] [rh']] |}).
  case_bool_decide as Heos.
  - exists [], [EvForward [rc] [rx] [rh] [ro] [rh']], w1.
    rewrite app_nil_r. cbn. split_and!; [done|lia|lia|done..].
  - destruct (lookup_lt_is_Some_2 all_letters best) as [letter Hl].
    { rewrite length_all_letters. rewrite Hro, n_letters_eq in Hbest.
      rewrite n_letters_eq in Heos. lia. }
    rewrite Hl.
    destruct (IH (one_hot n_letters best) rh' (name ++ [letter]) w1)
      as (rest & evs & w' & Hg & Hlen & Hk & Hnet & Htr & Hfw);
      [done|done|apply length_one_hot|done|].
    exists (letter :: rest), (EvForward [rc] [rx] [rh] [ro] [rh'] :: evs), w'.
    rewrite Hg, <- app_assoc. cbn [app length forallb is_forward andb].
    split_and!; [done|lia|lia|done| |done].
    rewrite Htr. cbn. by rewrite <- app_assoc.
Qed.

(** The run of the loop on a well-shaped network, pass by pass. *)
Lemma greedy_steps (n_cat k : nat) (rc rx rh : list scalar) (name : list N) (w : World) :
  RNN_wf n_cat n_letters n_letters (net w) = true →
  length rc = n_cat → length rx = n_letters → length rh = hidden_size (net w) →
  ∃ steps letters w',
    greedy k [rc] [rx] [rh] name w = (Ok (name ++ letters), w')
    ∧ net w' = net w
    ∧ trace w' = trace w ++ map (sample_iter_event [rc]) steps
    ∧ loop_passes topk_reports k rx rh steps letters
    ∧ length steps ≤ k ∧ (0 < k → 0 < length steps).
Proof.
  revert rx rh name w. induction k as [|k IH]; intros rx rh name w Hwf Hc Hx Hh.
  { exists [], [], w. cbn. rewrite !app_nil_r. split_and!; [done..|lia|lia]. }
  destruct (rnn_call_ok _ _ _ rc rx rh w Hwf Hc Hx Hh) as (ro & rh' & g' & Hcall & Hro & Hrh').
  destruct (topk1_one_row ro) as (v & best & Htop & Hbest).
  { rewrite Hro, n_letters_eq. lia. }
  cbn [greedy]. rewrite M_bind_eq, Hcall.
  rewrite (bind_lift_Ok _ _ _ _ Htop).
  rewrite (bind_lift_Ok _ _ _ best) by done.
  set (w1 := {| net := net w; gen := g';
                trace := trace w ++ [EvForward [rc] [rx] [rh] [ro] [rh']] |}).
  set (s := {| si_input := rx; si_hidden := rh; si_output := ro; si_hidden' := rh';
               si_index := best |}).
  case_bool_decide as Heos.
  - exists [s], [], w1. rewrite app_nil_r. split_and!; [done|done|done| |cbn; lia|cbn; lia].
    cbn [loop_passes]. exists k. split_and!; [done|done|done|by exists v|].
    cbn [si_index s]. by rewrite bool_decide_eq_true_2.
  - destruct (lookup_lt_is_Some_2 all_letters best) as [letter Hl].
    { rewrite length_all_letters. rewrite Hro, n_letters_eq in Hbest.
      rewrite n_letters_eq in Heos. lia. }
    rewrite Hl.
    destruct (IH (one_hot n_letters best) rh' (name ++ [letter]) w1)
      as (steps & letters & w' & Hg & Hnet & Htr & Hpass & Hlen & _);
      [done|done|apply length_one_hot|done|].
    exists (s :: steps), (letter :: letters), w'.
    rewrite Hg, <- app_assoc. split_and!; [done|done| | |cbn; lia|cbn; lia].
    + rewrite Htr. cbn. by rewrite <- app_assoc.
    + cbn [loop_passes]. exists k. split_and!; [done|done|done|by exists v|].
      cbn [si_index s]. rewrite bool_decide_eq_false_2 by done.
      exists letter, letters, (one_hot n_letters best). split_and!; [done|done| |done].
      apply one_hot_at_insert. by rewrite <- Hro.
Qed.

Lemma sample_steps (category : list N) (start : N) (w : World) :
  category ∈ all_categories →
  RNN_wf (n_categories all_categories) n_letters n_letters (net w) = true →
  ∃ row steps letters w',
    categoryTensor all_categories category = Ok [row]
    ∧ sample all_categories category [start] w = (Ok (start :: letters), w')
    ∧ net w' = net w
    ∧ trace w' = trace w ++ map (sample_iter_event [row]) steps
    ∧ loop_passes topk_reports max_length (letter_row start)
        (replicate (hidden_size (net w)) s_zero) steps letters
    ∧ 1 ≤ length steps ≤ max_length.
Proof.
  intros Hin Hwf.
  destruct (categoryTensor_ok all_categories category Hin) as (row & Hct & Hrow).
  destruct (greedy_steps _ max_length row (letter_row start)
              (replicate (hidden_size (net w)) s_zero) [start] w Hwf Hrow)
    as (steps & letters & w' & Hg & Hnet & Htr & Hpass & Hlen & Hpos).
  { apply length_letter_row. }
  { apply length_replicate. }
  exists row, steps, letters, w'. split_and!; [done| |done|done|done| |done].
  - rewrite sample_greedy_eq. unfold sample_greedy.
    rewrite (bind_lift_Ok _ _ _ _ Hct), bind_lift, inputTensor_eq. exact Hg.
  - apply Hpos. unfold max_length. lia.
Qed.

(** C1: for a category of [all_categories], a one-character start and a
    well-shaped network, [sample] returns the start letter followed by the
    letters of a greedy run of at most [max_length] passes.  The first
    pass feeds the one-hot row of the start letter and the zero hidden
    state; every pass is one call of the network with the category
    tensor, selects an index with the highest output, stops without
    appending at the EOS index, and otherwise appends the letter of that
    index and feeds its one-hot row next. *)
Theorem sample_is_greedy `{SO : !ScalarOrder} (category : list N) (start : N) (w : World) :
  category ∈ all_categories →
  RNN_wf (n_categories all_categories) n_letters n_letters (net w) = true →
  ∃ category_tensor x steps letters w',
    categoryTensor all_categories category = Ok category_tensor
    ∧ inputTensor [start] = Ok [[x]]
    ∧ one_hot_at x n_letters (letter_slot start)
    ∧ (start ∈ all_letters → all_letters !! letter_slot start = Some start)
    ∧ sample all_categories category [start] w = (Ok (start :: letters), w')
    ∧ trace w' = trace w ++ map (sample_iter_event category_tensor) steps
    ∧ 1 ≤ length steps ≤ max_length
    ∧ greedy_passes max_length x (replicate (hidden_size (net w)) s_zero) steps letters.
Proof.
  intros Hin Hwf.
  destruct (sample_steps category start w Hin Hwf)
    as (row & steps & letters & w' & Hct & Hrun & _ & Htr & Hpass & Hlen).
  exists [row], (letter_row start), steps, letters, w'.
  split_and!; [done|exact (inputTensor_eq [start])| |apply letter_slot_elem_of
               |done|done|lia|lia|].
  - apply one_hot_at_insert, letter_slot_lt.
  - eapply loop_passes_impl; [|exact Hpass]. apply topk_reports_highest.
Qed.

(** C8: for a category of [all_categories] and a one-character start,
    [sample] returns after at most [max_length = 20] passes of its loop
    (one forward call each) a string that begins with the start letter
    and has between 1 and [max_length + 1 = 21] characters. *)
Theorem sample_terminates_bounded (category : list N) (start : N) (w : World) :
  category ∈ all_categories →
  RNN_wf (n_categories all_categories) n_letters n_letters (net w) = true →
  ∃ rest evs w',
    sample all_categories category [start] w = (Ok (start :: rest), w')
    ∧ 1 ≤ length (start :: rest) ≤ max_length + 1
    ∧ trace w' = trace w ++ evs
    ∧ forallb is_forward evs = true
    ∧ length evs ≤ max_length
    ∧ max_length = 20.
Proof.
  intros Hin Hwf.
  destruct (categoryTensor_ok all_categories category Hin) as (row & Hct & Hrow).
  destruct (greedy_ok _ max_length row (letter_row start)
              (replicate (hidden_size (net w)) s_zero) [start] w Hwf Hrow)
    as (rest & evs & w' & Hg & Hlen & Hk & _ & Htr & Hfw).
  { apply length_letter_row. }
  { apply length_replicate. }
  exists rest, evs, w'. split_and!; [|cbn [length]; lia..|done|done|done|done].
  rewrite sample_greedy_eq. unfold sample_greedy.
  rewrite (bind_lift_Ok _ _ _ _ Hct), bind_lift, inputTensor_eq. exact Hg.
Qed.
End SampleRefinement.

(** ** Parameters, gradients and the update loop *)

Section Params.
Context `{SC : Scalar} `{LB : !Library} `{RG : !Rng} `{AG : !Autograd}.

Lemma length_parameters (self : RNN) : length (parameters self) = 6.
Proof. reflexivity. Qed.

Lemma parameters_with_parameters (self : RNN) (ps : list Param) :
  length ps = 6 → parameters (with_parameters self ps) = ps.
Proof. by destruct ps as [|? [|? [|? [|? [|? [|? [|??]]]]]]]. Qed.

Lemma with_parameters_other (self : RNN) (ps : list Param) :
  length ps ≠ 6 → with_parameters self ps = self.
Proof. by destruct ps as [|? [|? [|? [|? [|? [|? [|??]]]]]]]. Qed.

Lemma mapM_Ok_Forall2 {A B} (f : A → result B) (l : list A) (l' : list B) :
  mapM f l = Ok l' → Forall2 (λ x y, f x = Ok y) l l'.
Proof.
  revert l'. induction l as [|x l IH]; intros l' Hl; cbn [mapM] in Hl.
  - injection Hl as <-. constructor.
  - destruct (f x) as [y|e] eqn:Hy; [|done]. cbn in Hl.
    destruct (mapM f l) as [ys|e]; [|done]. injection Hl as <-.
    constructor; [done|]. by apply IH.
Qed.

Lemma shape2_zip_with (f : scalar → scalar → scalar) (a b : tensor2) :
  shape2 a = shape2 b → shape2 (zip_with (zip_with f) a b) = shape2 a.
Proof.
  unfold shape2. revert b. induction a as [|r a IH]; intros [|r' b]; try done.
  cbn. intros [= Hr Hab]. rewrite IH by done. rewrite length_zip_with. f_equal. lia.
Qed.

Lemma tensor_zip_with_Ok (f : scalar → scalar → scalar) (a b t : tensor2) :
  tensor_zip_with f a b = Ok t ↔ shape2 a = shape2 b ∧ t = zip_with (zip_with f) a b.
Proof.
  unfold tensor_zip_with. case_bool_decide; split.
  - by intros [= <-].
  - by intros [_ ->].
  - done.
  - by intros [? _].
Qed.

Lemma zero_grad_eq (w : World) :
  zero_grad w
  = (Ok tt, {| net := zero_grad_net (net w); gen := gen w;
               trace := trace w ++ [EvZeroGrad] |}).
Proof. reflexivity. Qed.

Lemma Param_wf_zero_grad (p : Param) : Param_wf (zero_grad_param p) = Param_wf p.
Proof.
  unfold Param_wf, zero_grad_param. cbn. destruct (grad p) as [g|]; [|done]. cbn.
  f_equal. unfold shape2. rewrite <- list_fmap_compose.
  replace (map (length ∘ map (λ _ : scalar, s_zero)) g) with (map length g); [done|].
  apply list_fmap_ext. intros ???. cbn. by rewrite length_map.
Qed.

Lemma RNN_wf_zero_grad (n_cat isz osz : nat) (self : RNN) :
  RNN_wf n_cat isz osz (zero_grad_net self) = RNN_wf n_cat isz osz self.
Proof.
  unfold RNN_wf, Linear_wf, zero_grad_net. cbn.
  by rewrite !Param_wf_zero_grad.
Qed.

End Params.

Section Chains.
Context `{SC : Scalar} `{LB : !Library} `{RG : !Rng} `{AG : !Autograd}.

Lemma chain_to_app (self : RNN) (h hm he : tensor2) (evs1 evs2 : list event) :
  chain_to self h evs1 hm → chain_to self hm evs2 he → chain_to self h (evs1 ++ evs2) he.
Proof.
  revert h. induction evs1 as [|[] evs1 IH]; intros h; cbn [chain_to app]; eauto.
  - by intros ->.
  - intros (-> & ? & ?) ?. eauto.
Qed.

Lemma chain_to_hidden_chain (self : RNN) (h he : tensor2) (evs : list event) :
  chain_to self h evs he → hidden_chain self h evs.
Proof.
  revert h. induction evs as [|[] evs IH]; intros h; cbn [chain_to hidden_chain]; eauto.
  intros (-> & ? & ?). eauto.
Qed.

Lemma chain_to_zero_grad (self : RNN) (h he : tensor2) (evs : list event) :
  chain_to (zero_grad_net self) h evs he ↔ chain_to self h evs he.
Proof.
  revert h. induction evs as [|[] evs IH]; intros h; cbn [chain_to]; [done|auto| |auto..].
  by rewrite IH.
Qed.

Lemma rnn_call_chain (c x h : tensor2) (w : World) :
  net (rnn_call c x h w).2 = net w
  ∧ ∃ evs, trace (rnn_call c x h w).2 = trace w ++ evs
      ∧ match (rnn_call c x h w).1 with
        | Ok (_, h') => chain_to (net w) h evs h'
        | Raise _ => evs = []
        end.
Proof.
  destruct (rnn_call c x h w) as [r w'] eqn:Hcall.
  apply rnn_call_inv in Hcall as [Hn Hr]. split; [done|].
  destruct r as [[o h']|e]; cbn.
  - destruct Hr as [Ht Hs]. exists [EvForward c x h o h']. by cbn.
  - exists []. by rewrite app_nil_r.
Qed.

Lemma criterion_eq (output : tensor2) (target : list Z) (w : World) :
  criterion output target w
  = match NLLLoss output target with
    | Ok l => (Ok l, {| net := net w; gen := gen w;
                        trace := trace w ++ [EvCriterion output target l] |})
    | Raise e => (Raise e, w)
    end.
Proof. unfold criterion. rewrite bind_lift. by destruct (NLLLoss output target). Qed.

Lemma train_step_chain ct it tt i (o0 : option tensor2) (h : tensor2) (loss : py_num) (w : World) :
  net (train_step ct it tt i (o0, h, loss) w).2 = net w
  ∧ ∃ evs h', trace (train_step ct it tt i (o0, h, loss) w).2 = trace w ++ evs
      ∧ chain_to (net w) h evs h'
      ∧ ∀ o1 h1 l1, (train_step ct it tt i (o0, h, loss) w).1 = Ok (o1, h1, l1) → h1 = h'.
Proof.
  unfold train_step. rewrite bind_lift.
  destruct (getitem it (Z.of_nat i)) as [x|e].
  2:{ cbn. split; [done|]. exists [], h. by rewrite app_nil_r. }
  rewrite M_bind_eq.
  destruct (rnn_call_chain ct x h w) as (Hn & evs & Ht & Hc).
  destruct (rnn_call ct x h w) as [[[o h']|e] w1]; cbn in Hn, Ht, Hc.
  2:{ cbn. split; [done|]. exists [], h. subst evs. rewrite app_nil_r in Ht. by rewrite Ht, app_nil_r. }
  rewrite bind_lift.
  destruct (getitem tt (Z.of_nat i)) as [t|e].
  2:{ cbn. split; [done|]. by exists evs, h'. }
  rewrite M_bind_eq, criterion_eq.
  destruct (NLLLoss o t) as [l|e].
  2:{ cbn. split; [done|]. by exists evs, h'. }
  cbn. split; [done|]. exists (evs ++ [EvCriterion o t l]), h'. split_and!.
  - by rewrite Ht, app_assoc.
  - eapply chain_to_app; [done|]. by cbn.
  - by intros ??? [= _ <- _].
Qed.

Lemma train_loop_chain ct it tt (xs : list nat) (o0 : option tensor2) (h : tensor2)
    (loss : py_num) (w : World) :
  net (for_eachM xs (train_step ct it tt) (o0, h, loss) w).2 = net w
  ∧ ∃ evs h', trace (for_eachM xs (train_step ct it tt) (o0, h, loss) w).2 = trace w ++ evs
      ∧ chain_to (net w) h evs h'.
Proof.
  revert o0 h loss w. induction xs as [|i xs IH]; intros o0 h loss w.
  { split; [done|]. exists [], h. by rewrite app_nil_r. }
  cbn [for_eachM]. rewrite M_bind_eq.
  destruct (train_step_chain ct it tt i o0 h loss w) as (Hn & evs & h' & Ht & Hc & Hh).
  destruct (train_step ct it tt i (o0, h, loss) w) as [[[[o1 h1] l1]|e] w1];
    cbn in Hn, Ht, Hh.
  2:{ cbn. split; [done|]. by exists evs, h'. }
  rewrite (Hh _ _ _ eq_refl).
  destruct (IH o1 h' l1 w1) as (Hn2 & evs2 & h2 & Ht2 & Hc2).
  split; [congruence|]. exists (evs ++ evs2), h2. split.
  - by rewrite Ht2, Ht, app_assoc.
  - eapply chain_to_app; [done|]. by rewrite <- Hn.
Qed.
End Chains.

Section Updates.
Context `{SC : Scalar} `{LB : !Library} `{RG : !Rng} `{AG : !Autograd}.

Lemma accumulate_grad_data (p p' : Param) (g : tensor2) :
  accumulate_grad p g = Ok p' → data p' = data p.
Proof.
  unfold accumulate_grad. destruct (grad p) as [g0|].
  - destruct (tensor_zip_with s_add g0 g); [|done]. by intros [= <-].
  - case_bool_decide; [|done]. by intros [= <-].
Qed.

Lemma accumulate_grad_ok (p : Param) (g : tensor2) :
  Param_wf p = true → shape2 g = shape2 (data p) →
  ∃ g1, accumulate_grad p g = Ok {| data := data p; grad := Some g1 |}
        ∧ shape2 g1 = shape2 (data p).
Proof.
  unfold Param_wf, accumulate_grad. destruct (grad p) as [g0|]; intros Hwf Hg.
  - apply bool_decide_eq_true_1 in Hwf.
    exists (zip_with (zip_with s_add) g0 g). split.
    + unfold tensor_zip_with. rewrite bool_decide_eq_true_2 by congruence. done.
    + rewrite shape2_zip_with by congruence. done.
  - exists g. by rewrite bool_decide_eq_true_2.
Qed.

Lemma set_net_log (self : RNN) (e : event) (w : World) :
  (set_net self ≫= λ _, log e) w
  = (Ok tt, {| net := self; gen := gen w; trace := trace w ++ [e] |}).
Proof. reflexivity. Qed.

Lemma backward_inv (loss : py_num) (graph : list tensor2 → scalar) (w : World) :
  map data (parameters (net (backward loss graph w).2)) = map data (parameters (net w))
  ∧ gen (backward loss graph w).2 = gen w
  ∧ ∃ evs, trace (backward loss graph w).2 = trace w ++ evs
           ∧ forallb (λ e, negb (is_forward e)) evs = true.
Proof.
  assert (∀ w0 : World, ∃ evs, trace w0 = trace w0 ++ evs
            ∧ forallb (λ e, negb (is_forward e)) evs = true) as Hnil.
  { intros w0. exists []. by rewrite app_nil_r. }
  unfold backward. destruct loss as [n|v]; [by split_and!|].
  rewrite bind_get_net, bind_lift.
  set (gs := gradient graph (map data (parameters (net w)))).
  destruct (mapM _ (zip (parameters (net w)) gs)) as [ps|e] eqn:Hps; [|by split_and!].
  rewrite set_net_log. cbn [snd net gen trace].
  split_and!; [|done|by exists [EvBackward v]].
  destruct (decide (length ps = 6)) as [Hlen|Hlen].
  2:{ by rewrite with_parameters_other. }
  rewrite parameters_with_parameters by done.
  apply mapM_Ok_Forall2 in Hps.
  assert (map data ps = map data (zip (parameters (net w)) gs).*1) as ->.
  { clear Hlen. induction Hps as [|[p g] p' l l' Hp _ IH]; [done|].
    cbn. cbn in Hp. apply accumulate_grad_data in Hp. by rewrite Hp, IH. }
  rewrite fst_zip; [done|].
  apply Forall2_length in Hps. rewrite length_zip_with in Hps.
  rewrite length_parameters in *. lia.
Qed.

Lemma update_parameter_eq (k : nat) (w : World) :
  update_parameter k tt w
  = match parameters (net w) !! k with
    | None => (Raise IndexError, w)
    | Some p =>
        match sgd_update p with
        | Ok p' => (Ok tt, {| net := with_parameters (net w) (<[k := p']> (parameters (net w)));
                              gen := gen w; trace := trace w |})
        | Raise e => (Raise e, w)
        end
    end.
Proof.
  unfold update_parameter. rewrite bind_get_net, bind_lift.
  destruct (parameters (net w) !! k) as [p|]; [|done].
  rewrite bind_lift. by destruct (sgd_update p).
Qed.

Lemma update_parameter_trace (k : nat) (w : World) :
  trace (update_parameter k tt w).2 = trace w ∧ gen (update_parameter k tt w).2 = gen w.
Proof.
  rewrite update_parameter_eq. destruct (parameters (net w) !! k) as [p|]; [|done].
  by destruct (sgd_update p).
Qed.

Lemma sgd_loop_trace (xs : list nat) (w : World) :
  trace (for_eachM xs update_parameter tt w).2 = trace w
  ∧ gen (for_eachM xs update_parameter tt w).2 = gen w.
Proof.
  revert w. induction xs as [|k xs IH]; intros w; [done|].
  cbn [for_eachM]. rewrite M_bind_eq.
  destruct (update_parameter_trace k w) as [Ht Hg].
  destruct (update_parameter k tt w) as [[[]|e] w1]; [|done].
  cbn in Ht, Hg. destruct (IH w1). split; congruence.
Qed.
End Updates.

Arguments sgd_update : simpl never.

Section UpdateLoop.
Context `{SC : Scalar} `{LB : !Library} `{RG : !Rng} `{AG : !Autograd}.

Local Ltac sgd_next H :=
  rewrite M_bind_eq, update_parameter_eq; cbn; rewrite H; cbn.

(** The update loop succeeds exactly when every single update does, and
    then replaces each parameter by its update. *)
Lemma sgd_loop_Ok (w : World) (ps' : list Param) :
  Forall2 (λ p p', sgd_update p = Ok p') (parameters (net w)) ps' →
  for_eachM (py_range 0 (length (parameters (net w)))) update_parameter tt w
  = (Ok tt, {| net := with_parameters (net w) ps'; gen := gen w; trace := trace w |}).
Proof.
  intros HF. cbn in HF.
  apply Forall2_cons_inv_l in HF as (p1 & l1 & H1 & HF & ->).
  apply Forall2_cons_inv_l in HF as (p2 & l2 & H2 & HF & ->).
  apply Forall2_cons_inv_l in HF as (p3 & l3 & H3 & HF & ->).
  apply Forall2_cons_inv_l in HF as (p4 & l4 & H4 & HF & ->).
  apply Forall2_cons_inv_l in HF as (p5 & l5 & H5 & HF & ->).
  apply Forall2_cons_inv_l in HF as (p6 & l6 & H6 & HF & ->).
  apply Forall2_nil_inv_l in HF as ->.
  cbn [length parameters Linear_parameters app py_range Nat.sub seq for_eachM].
  sgd_next H1. sgd_next H2. sgd_next H3. sgd_next H4. sgd_next H5. sgd_next H6.
  reflexivity.
Qed.

Lemma sgd_loop_Ok_inv (w w' : World) :
  for_eachM (py_range 0 (length (parameters (net w)))) update_parameter tt w = (Ok tt, w') →
  ∃ ps', Forall2 (λ p p', sgd_update p = Ok p') (parameters (net w)) ps'
         ∧ w' = {| net := with_parameters (net w) ps'; gen := gen w; trace := trace w |}.
Proof.
  intros Hrun.
  destruct (sgd_update (weight (i2h (net w)))) as [p1|e] eqn:H1.
  2:{ revert Hrun. cbn [length parameters Linear_parameters app py_range Nat.sub seq for_eachM].
      sgd_next H1. done. }
  destruct (sgd_update (bias (i2h (net w)))) as [p2|e] eqn:H2.
  2:{ revert Hrun. cbn [length parameters Linear_parameters app py_range Nat.sub seq for_eachM].
      sgd_next H1. sgd_next H2. done. }
  destruct (sgd_update (weight (i2o (net w)))) as [p3|e] eqn:H3.
  2:{ revert Hrun. cbn [length parameters Linear_parameters app py_range Nat.sub seq for_eachM].
      sgd_next H1. sgd_next H2. sgd_next H3. done. }
  destruct (sgd_update (bias (i2o (net w)))) as [p4|e] eqn:H4.
  2:{ revert Hrun. cbn [length parameters Linear_parameters app py_range Nat.sub seq for_eachM].
      sgd_next H1. sgd_next H2. sgd_next H3. sgd_next H4. done. }
  destruct (sgd_update (weight (o2o (net w)))) as [p5|e] eqn:H5.
  2:{ revert Hrun. cbn [length parameters Linear_parameters app py_range Nat.sub seq for_eachM].
      sgd_next H1. sgd_next H2. sgd_next H3. sgd_next H4. sgd_next H5. done. }
  destruct (sgd_update (bias (o2o (net w)))) as [p6|e] eqn:H6.
  2:{ revert Hrun. cbn [length parameters Linear_parameters app py_range Nat.sub seq for_eachM].
      sgd_next H1. sgd_next H2. sgd_next H3. sgd_next H4. sgd_next H5. sgd_next H6. done. }
  assert (Forall2 (λ p p', sgd_update p = Ok p') (parameters (net w)) [p1; p2; p3; p4; p5; p6])
    as HF by (repeat constructor; done).
  exists [p1; p2; p3; p4; p5; p6]. split; [done|].
  rewrite (sgd_loop_Ok _ _ HF) in Hrun. by injection Hrun as <-.
Qed.
End UpdateLoop.

Section TrainRuns.
Context `{SC : Scalar} `{LB : !Library} `{RG : !Rng} `{AG : !Autograd}.

Lemma chain_to_other (self : RNN) (h : tensor2) (evs : list event) :
  forallb (λ e, negb (is_forward e)) evs = true → chain_to self h evs h.
Proof.
  induction evs as [|[] evs IH]; cbn; try done; auto.
Qed.

(** Every run of [train], failing or not, logs a chain of forward calls
    that starts from the zero hidden state. *)
Lemma train_chain (ct : tensor2) (it : tensor3) (tg : list Z) (w : World) :
  ∃ evs h', trace (train ct it tg w).2 = trace w ++ evs
            ∧ chain_to (net w) (initHidden (net w)) evs h'.
Proof.
  unfold train. rewrite bind_get_net, M_bind_eq, zero_grad_eq, M_bind_eq.
  unfold recording.
  set (w1 := {| net := zero_grad_net (net w); gen := gen w; trace := trace w ++ [EvZeroGrad] |}).
  destruct (train_loop_chain ct it (unsqueeze_last tg) (py_range 0 (length it))
              None (initHidden (net w)) (PyInt 0) w1) as (Hn & evs & h' & Ht & Hc).
  apply (proj1 (chain_to_zero_grad (net w) _ _ _)) in Hc.
  destruct (for_eachM _ _ _ w1) as [[[[o h1] loss]|e] w2]; cbn in Hn, Ht.
  2:{ cbn. exists (EvZeroGrad :: evs), h'. split; [|exact Hc].
      rewrite Ht. cbn. by rewrite <- app_assoc. }
  rewrite M_bind_eq.
  match goal with |- context [backward loss ?g w2] =>
    destruct (backward_inv loss g w2) as (_ & _ & evsB & HtB & HfB);
    destruct (backward loss g w2) as [[[]|e] w3] end; cbn in HtB.
  2:{ cbn. exists (EvZeroGrad :: evs ++ evsB), h'. split.
      - rewrite HtB, Ht. cbn. by rewrite <- !app_assoc.
      - cbn. eapply chain_to_app; [done|]. by apply chain_to_other. }
  rewrite bind_get_net, M_bind_eq.
  destruct (sgd_loop_trace (py_range 0 (length (parameters (net w3)))) w3) as [Ht4 _].
  assert (∃ evs h', trace w3 = trace w ++ evs
             ∧ chain_to (net w) (initHidden (net w)) evs h') as Hgoal.
  { exists (EvZeroGrad :: evs ++ evsB), h'. split.
    - rewrite HtB, Ht. cbn. by rewrite <- !app_assoc.
    - cbn. eapply chain_to_app; [done|]. by apply chain_to_other. }
  destruct (for_eachM _ update_parameter tt w3) as [[[]|e] w4]; cbn in Ht4;
    rewrite <- Ht4 in Hgoal; [|done].
  rewrite bind_lift. destruct o as [o|]; [|done].
  rewrite bind_lift. by destruct (item loss).
Qed.

Lemma greedy_chain (k : nat) (ct cur h : tensor2) (name : list N) (w : World) :
  ∃ evs h', trace (greedy k ct cur h name w).2 = trace w ++ evs
            ∧ chain_to (net w) h evs h'.
Proof.
  revert cur h name w. induction k as [|k IH]; intros cur h name w.
  { exists [], h. by rewrite app_nil_r. }
  cbn [greedy]. rewrite M_bind_eq.
  destruct (rnn_call_chain ct cur h w) as (Hn & evs & Ht & Hc).
  destruct (rnn_call ct cur h w) as [[[o h1]|e] w1]; cbn in Hn, Ht, Hc.
  2:{ cbn. exists [], h. subst evs. by rewrite Ht. }
  assert (∃ evs h', trace w1 = trace w ++ evs ∧ chain_to (net w) h evs h') as Hstop
    by (by exists evs, h1).
  rewrite bind_lift. destruct (topk1 o) as [[topv topi]|e]; [|done].
  rewrite bind_lift. destruct (getitem topi 0 ≫= _) as [best|e]; [|done].
  case_bool_decide; [done|].
  destruct (all_letters !! best) as [letter|]; [|done].
  destruct (IH [one_hot n_letters best] h1 (name ++ [letter]) w1) as (evs2 & h2 & Ht2 & Hc2).
  exists (evs ++ evs2), h2. split.
  - by rewrite Ht2, Ht, app_assoc.
  - eapply chain_to_app; [done|]. by rewrite <- Hn.
Qed.

Lemma sample_chain (all_categories : list (list N)) (category start_letter : list N)
    (w : World) :
  ∃ evs h', trace (sample all_categories category start_letter w).2 = trace w ++ evs
            ∧ chain_to (net w) (initHidden (net w)) evs h'.
Proof.
  rewrite sample_greedy_eq. unfold sample_greedy.
  assert (∃ evs h', trace w = trace w ++ evs
             ∧ chain_to (net w) (initHidden (net w)) evs h') as Hnil.
  { exists [], (initHidden (net w)). by rewrite app_nil_r. }
  rewrite bind_lift. destruct (categoryTensor all_categories category) as [ct|e]; [|done].
  rewrite bind_lift. destruct (inputTensor start_letter ≫= _) as [cur|e]; [|done].
  rewrite bind_get_net. apply greedy_chain.
Qed.

End TrainRuns.

Section GradientDescent.
Context `{SC : Scalar} `{LB : !Library} `{RG : !Rng} `{AG : !Autograd}.

(** A successful run of [train] splits into its phases. *)
Lemma train_Ok_inv (ct : tensor2) (it : tensor3) (tg : list Z) (w : World) r w' :
  train ct it tg w = (Ok r, w') →
  ∃ o h loss w2 w3,
    for_eachM (py_range 0 (length it)) (train_step ct it (unsqueeze_last tg))
      (None, initHidden (net w), PyInt 0)
      {| net := zero_grad_net (net w); gen := gen w; trace := trace w ++ [EvZeroGrad] |}
    = (Ok (o, h, loss), w2)
    ∧ map data (parameters (net w3)) = map data (parameters (net w))
    ∧ for_eachM (py_range 0 (length (parameters (net w3)))) update_parameter Datatypes.tt w3
      = (Ok Datatypes.tt, w').
Proof.
  unfold train. rewrite bind_get_net, M_bind_eq, zero_grad_eq, M_bind_eq.
  unfold recording.
  set (w1 := {| net := zero_grad_net (net w); gen := gen w; trace := trace w ++ [EvZeroGrad] |}).
  destruct (train_loop_chain ct it (unsqueeze_last tg) (py_range 0 (length it))
              None (initHidden (net w)) (PyInt 0) w1) as (Hn & _).
  destruct (for_eachM _ _ _ w1) as [[[[o h1] loss]|e] w2]; [|done]. cbn [snd] in Hn.
  rewrite M_bind_eq.
  match goal with |- context [backward loss ?g w2] =>
    destruct (backward_inv loss g w2) as (Hd & _);
    destruct (backward loss g w2) as [[[]|e] w3] end; [|done]. cbn [snd] in Hd.
  rewrite bind_get_net, M_bind_eq.
  destruct (for_eachM _ update_parameter _ w3) as [[[]|e] w4] eqn:Hloop; [|done].
  rewrite bind_lift. destruct o as [o|]; [|done].
  rewrite bind_lift. destruct (item loss); [|done].
  intros [= <- <-]. exists (Some o), h1, loss, w2, w3. split_and!; [done| |done].
  rewrite Hd, Hn. reflexivity.
Qed.

Lemma sgd_update_Ok (p p' : Param) :
  sgd_update p = Ok p' →
  ∃ g, grad p = Some g ∧ grad p' = Some g ∧ shape2 g = shape2 (data p)
       ∧ data p' = zip_with (zip_with (λ x gx, s_add x (s_mul (s_neg learning_rate) gx)))
                            (data p) g.
Proof.
  unfold sgd_update. destruct (grad p) as [g|]; [|done].
  destruct (tensor_zip_with _ (data p) g) as [d|e] eqn:Hd; [|done].
  apply tensor_zip_with_Ok in Hd as [Hs ->]. intros [= <-]. by exists g.
Qed.

Context `{!ScalarLaws}.

Lemma sgd_update_gradient_step (p0 p p' : Param) :
  data p = data p0 → sgd_update p = Ok p' → gradient_step p0 p'.
Proof.
  intros Hd (g & _ & Hg' & Hs & Hdata)%sgd_update_Ok.
  exists g. rewrite <- Hd. split_and!; [done..|].
  rewrite Hdata. apply zip_with_ext; [|done..].
  intros r gr. apply zip_with_ext; [|done..].
  intros x gx. apply add_neg_mul.
Qed.

(** C4: a training step that returns has replaced every parameter [p] by
    [p - learning_rate * grad(p)], the gradient being the one in the
    parameter's slot after the backward pass, with
    [learning_rate = 0.0005]; the parameter values change in no other
    way. *)
Theorem train_gradient_descent (ct : tensor2) (it : tensor3) (tg : list Z)
    (w : World) r w' :
  train ct it tg w = (Ok r, w') →
  learning_rate = s_of_Q (5 # 10000)
  ∧ Forall2 gradient_step (parameters (net w)) (parameters (net w')).
Proof.
  intros (o & h & loss & w2 & w3 & _ & Hd & Hloop)%train_Ok_inv. split; [done|].
  apply sgd_loop_Ok_inv in Hloop as (ps' & HF & ->). cbn [net].
  rewrite parameters_with_parameters.
  2:{ apply Forall2_length in HF. by rewrite <- HF. }
  revert Hd HF. generalize (parameters (net w3)) (parameters (net w)).
  intros l3 l0 Hd HF. revert l0 Hd.
  induction HF as [|p p' l3 l' Hp _ IH]; intros [|p0 l0] Hd; try done.
  injection Hd as Hp0 Hl0. constructor; [|by apply IH].
  by eapply sgd_update_gradient_step.
Qed.
End GradientDescent.

Section TrainSucceeds.
Context `{SC : Scalar} `{LB : !Library} `{RG : !Rng} `{AG : !Autograd}.

Lemma NLLLoss_one_row (ro : list scalar) (t : Z) :
  (0 ≤ t < Z.of_nat (length ro))%Z → ∃ l, NLLLoss [ro] [t] = Ok l.
Proof.
  intros Ht. unfold NLLLoss. cbn [length zip zip_with mapM nll_term].
  rewrite bool_decide_eq_true_2 by done.
  rewrite (bool_decide_eq_true_2 (0 ≤ t < _)%Z) by done.
  destruct (lookup_lt_is_Some_2 ro (Z.to_nat t)) as [v Hv]; [lia|].
  rewrite Hv. by eexists.
Qed.

Lemma foldl_iadd_Tensor0 (v : scalar) (ls : list scalar) :
  foldl iadd (Tensor0 v) ls = Tensor0 (foldl s_add v ls).
Proof. revert v. induction ls as [|l ls IH]; intros v; [done|]. cbn. apply IH. Qed.

Lemma foldl_iadd_PyInt (n : nat) (ls : list scalar) :
  ls ≠ [] → foldl iadd (PyInt n) ls = Tensor0 (foldl s_add (s_of_nat n) ls).
Proof. destruct ls as [|l ls]; [done|]. intros _. cbn. apply foldl_iadd_Tensor0. Qed.

(** With shapes and class indices in range, the loop of [train] runs through:
    one forward call and one loss term for every index. *)
Lemma train_loop_ok (n_cat : nat) (rc : list scalar) (it : tensor3) (tg : list Z)
    (k i : nat) (o0 : option tensor2) (rh : list scalar) (loss : py_num) (w : World) :
  RNN_wf n_cat n_letters n_letters (net w) = true →
  length rc = n_cat → length rh = hidden_size (net w) →
  Forall (λ x, ∃ rx, x = [rx] ∧ length rx = n_letters) it →
  Forall (λ t, 0 ≤ t < Z.of_nat n_letters)%Z tg →
  i + k ≤ length it → i + k ≤ length tg →
  ∃ steps o' h' w',
    for_eachM (seq i k) (train_step [rc] it (unsqueeze_last tg)) (o0, [rh], loss) w
    = (Ok (o', h', foldl iadd loss (map ti_loss steps)), w')
    ∧ net w' = net w
    ∧ trace w' = trace w ++ concat (map (train_iter_events [rc]) steps)
    ∧ length steps = k
    ∧ (∀ j s, steps !! j = Some s →
         it !! (i + j) = Some (ti_input s) ∧ tg !! (i + j) = Some (ti_target s)
         ∧ NLLLoss (ti_output s) [ti_target s] = Ok (ti_loss s))
    ∧ o' = from_option (λ s, Some (ti_output s)) o0 (last steps).
Proof.
  intros Hwf Hc Hh Hit Htg. revert i o0 rh loss w Hwf Hh.
  induction k as [|k IH]; intros i o0 rh loss w Hwf Hh Hi1 Hi2.
  { exists [], o0, [rh], w. cbn. rewrite app_nil_r. split_and!; try done. }
  destruct (lookup_lt_is_Some_2 it i) as [x Hx]; [lia|].
  destruct (Forall_lookup_1 _ _ _ _ Hit Hx) as (rx & -> & Hrx).
  destruct (lookup_lt_is_Some_2 tg i) as [t Ht]; [lia|].
  pose proof (Forall_lookup_1 _ _ _ _ Htg Ht) as Htr. cbn beta in Htr.
  destruct (rnn_call_ok _ _ _ rc rx rh w Hwf Hc Hrx Hh) as (ro & rh' & g' & Hcall & Hro & Hrh').
  destruct (NLLLoss_one_row ro t) as [l Hl]; [by rewrite Hro|].
  set (w1 := {| net := net w; gen := g';
                trace := (trace w ++ [EvForward [rc] [rx] [rh] [ro] [rh']])
                         ++ [EvCriterion [ro] [t] l] |}).
  destruct (IH (S i) (Some [ro]) rh' (iadd loss l) w1)
    as (steps & o' & h' & w' & Hrun & Hnet & Htrace & Hlen & Hsteps & Ho'); [done|done|lia|lia|].
  set (s := {| ti_input := [rx]; ti_hidden := [rh]; ti_output := [ro];
               ti_hidden' := [rh']; ti_target := t; ti_loss := l |}).
  exists (s :: steps), o', h', w'. split_and!.
  - cbn [seq for_eachM]. rewrite M_bind_eq. unfold train_step at 1.
    rewrite (bind_lift_Ok _ _ _ _ (getitem_nat _ _ _ Hx)).
    rewrite M_bind_eq, Hcall.
    assert (unsqueeze_last tg !! i = Some [t]) as Ht'.
    { unfold unsqueeze_last. by rewrite list_lookup_fmap, Ht. }
    rewrite (bind_lift_Ok _ _ _ _ (getitem_nat _ _ _ Ht')).
    rewrite M_bind_eq, criterion_eq, Hl. cbn [mret M_ret].
    exact Hrun.
  - done.
  - rewrite Htrace. cbn. by rewrite <- !app_assoc.
  - cbn. by rewrite Hlen.
  - intros [|j] s' Hs'.
    + injection Hs' as <-. rewrite Nat.add_0_r. by cbn.
    + cbn in Hs'. replace (i + S j) with (S i + j) by lia. by apply Hsteps.
  - rewrite Ho'. rewrite last_cons. by destruct (last steps).
Qed.
End TrainSucceeds.

Section TrainTheorem.
Context `{SC : Scalar} `{LB : !Library} `{RG : !Rng} `{AG : !Autograd}.

Lemma accumulate_all_ok (l : list Param) (gs : list tensor2) :
  Forall (λ p, Param_wf p = true) l →
  map shape2 gs = map shape2 (map data l) →
  ∃ ps, mapM (λ pg : Param * tensor2, accumulate_grad pg.1 pg.2) (zip l gs) = Ok ps
        ∧ length ps = length l
        ∧ Forall (λ p, ∃ g, grad p = Some g ∧ shape2 g = shape2 (data p)) ps.
Proof.
  intros Hwf. revert gs. induction Hwf as [|p l Hp _ IH]; intros gs Hs.
  { exists []. by destruct gs. }
  destruct gs as [|g gs]; [done|]. injection Hs as Hg Hs.
  destruct (IH gs Hs) as (ps & Hps & Hlen & Hready).
  destruct (accumulate_grad_ok p g Hp Hg) as (g1 & Hacc & Hg1).
  exists ({| data := data p; grad := Some g1 |} :: ps). split_and!.
  - cbn [zip zip_with mapM fst snd]. cbn [fst snd] in Hps. rewrite Hacc, Hps. done.
  - cbn. by rewrite Hlen.
  - constructor; [|done]. by exists g1.
Qed.

Lemma sgd_all_ok (ps : list Param) :
  Forall (λ p, ∃ g, grad p = Some g ∧ shape2 g = shape2 (data p)) ps →
  ∃ ps', Forall2 (λ p p', sgd_update p = Ok p') ps ps'.
Proof.
  induction 1 as [|p ps (g & Hg & Hs) _ [ps' IH]]; [by exists []|].
  eexists (_ :: ps'). constructor; [|done].
  unfold sgd_update. rewrite Hg. unfold tensor_zip_with.
  rewrite bool_decide_eq_true_2 by done. done.
Qed.

Lemma RNN_wf_parameters (n_cat isz osz : nat) (self : RNN) :
  RNN_wf n_cat isz osz self = true → Forall (λ p, Param_wf p = true) (parameters self).
Proof.
  intros (W1 & W2 & W3 & _)%RNN_wf_fields. unfold Linear_wf in *.
  rewrite !andb_true_iff in W1, W2, W3.
  destruct W1 as [[_ ?] ?], W2 as [[_ ?] ?], W3 as [[_ ?] ?].
  repeat constructor; done.
Qed.

Context `{!AutogradLaws}.

Lemma backward_ok (n_cat isz osz : nat) (v : scalar) (graph : list tensor2 → scalar)
    (w : World) :
  RNN_wf n_cat isz osz (net w) = true →
  ∃ ps, backward (Tensor0 v) graph w
        = (Ok Datatypes.tt, {| net := with_parameters (net w) ps; gen := gen w;
                               trace := trace w ++ [EvBackward v] |})
        ∧ length ps = 6
        ∧ Forall (λ p, ∃ g, grad p = Some g ∧ shape2 g = shape2 (data p)) ps.
Proof.
  intros Hwf%RNN_wf_parameters.
  destruct (accumulate_all_ok (parameters (net w))
              (gradient graph (map data (parameters (net w)))) Hwf)
    as (ps & Hps & Hlen & Hready); [apply gradient_shape|].
  exists ps. split_and!; [|done..].
  unfold backward. rewrite bind_get_net, (bind_lift_Ok _ _ _ _ Hps). apply set_net_log.
Qed.

(** C3 (amended): for a category of [all_categories] and a non-empty line
    whose characters from the second on belong to [all_letters], [train]
    on the tensors of category and line performs exactly one forward call
    and one [NLLLoss] term per input character, sums the terms, calls
    [backward] once on the sum, and returns the last output with the sum
    divided by [input_line_tensor.size(0)]. *)
Theorem train_one_step_per_character (all_categories : list (list N))
    (category line : list N) (w : World) :
  category ∈ all_categories →
  line ≠ [] →
  Forall (λ c, c ∈ all_letters) (tail line) →
  RNN_wf (n_categories all_categories) n_letters n_letters (net w) = true →
  train_spec all_categories category line w.
Proof.
  intros Hin Hne Hall Hwf.
  destruct (categoryTensor_ok all_categories category Hin) as (rc & Hct & Hrc).
  set (it := map (λ c, [letter_row c]) line).
  set (tg := map (str_find all_letters) (tail line) ++ [Z.of_nat n_letters - 1]%Z).
  assert (length it = length line) as Hlit by (unfold it; by rewrite length_map).
  assert (length tg = length line) as Hltg.
  { unfold tg. rewrite length_app, length_map. destruct line; [done|]. cbn. lia. }
  assert (Forall (λ x, ∃ rx, x = [rx] ∧ length rx = n_letters) it) as Hit.
  { unfold it. apply Forall_fmap, Forall_true. intros c. cbn.
    exists (letter_row c). split; [done|]. apply length_letter_row. }
  assert (Forall (λ t, 0 ≤ t < Z.of_nat n_letters)%Z tg) as Htg.
  { unfold tg. apply Forall_app. split.
    - apply Forall_fmap. eapply Forall_impl; [exact Hall|]. intros c Hc. cbn.
      destruct (str_find_elem_of _ _ Hc) as (k & Hk & ->).
      apply lookup_lt_Some in Hk. rewrite length_all_letters in Hk.
      rewrite n_letters_eq. lia.
    - constructor; [|done]. rewrite n_letters_eq. lia. }
  set (w1 := {| net := zero_grad_net (net w); gen := gen w;
                trace := trace w ++ [EvZeroGrad] |}).
  destruct (train_loop_ok (n_categories all_categories) rc it tg (length it) 0 None
              (replicate (hidden_size (net w)) s_zero) (PyInt 0) w1)
    as (steps & o' & h' & w2 & Hloop & Hn2 & Ht2 & Hlen & Hsteps & Ho');
    [exact (eq_trans (RNN_wf_zero_grad _ _ _ _) Hwf)|done|by rewrite length_replicate
    |done|done|lia|lia|].
  assert (steps ≠ []) as Hsne.
  { intros ->. rewrite Hlit in Hlen. by destruct line. }
  rewrite foldl_iadd_PyInt in Hloop by (by destruct steps).
  set (total := foldl s_add (s_of_nat 0) (map ti_loss steps)) in *.
  destruct (last steps) as [s_last|] eqn:Hlast.
  2:{ apply last_None in Hlast. done. }
  cbn in Ho'. subst o'.
  assert (∃ w', train [rc] it tg w
                = (Ok (ti_output s_last, s_div total (s_of_nat (length it))), w')
              ∧ trace w' = trace w2 ++ [EvBackward total]) as (w' & Hrun & Htr).
  { unfold train. rewrite bind_get_net, M_bind_eq, zero_grad_eq, M_bind_eq.
    unfold recording. unfold py_range at 1. rewrite Nat.sub_0_r.
    change (initHidden (net w)) with [replicate (hidden_size (net w)) s_zero].
    fold w1. rewrite Hloop. rewrite M_bind_eq.
    match goal with |- context [backward (Tensor0 total) ?g w2] =>
      destruct (backward_ok (n_categories all_categories) n_letters n_letters total g w2)
        as (ps & Hback & Hps6 & Hready);
        [rewrite Hn2; exact (eq_trans (RNN_wf_zero_grad _ _ _ _) Hwf)|];
      rewrite Hback
    end.
    destruct (sgd_all_ok ps Hready) as [ps' Hsgd].
    set (w3 := {| net := with_parameters (net w2) ps; gen := gen w2;
                  trace := trace w2 ++ [EvBackward total] |}).
    assert (Forall2 (λ p p', sgd_update p = Ok p') (parameters (net w3)) ps') as Hsgd3.
    { cbn [net w3]. by rewrite parameters_with_parameters. }
    rewrite bind_get_net, M_bind_eq, (sgd_loop_Ok w3 ps' Hsgd3).
    eexists. split; reflexivity. }
  exists [rc], it, tg, steps, (ti_output s_last), w'.
  split_and!; [done|apply inputTensor_eq|apply targetTensor_eq|done|done| |by eexists|done|].
  - intros i s Hs. by apply (Hsteps i s).
  - rewrite Htr, Ht2. cbn [trace w1]. by rewrite <- !app_assoc.
Qed.
End TrainTheorem.

(** ** The hidden state from call to call *)

Section HiddenState.
Context `{SC : Scalar} `{LB : !Library} `{RG : !Rng} `{AG : !Autograd}.

Lemma chain_to_app_inv (self : RNN) (h he : tensor2) (evs1 evs2 : list event) :
  chain_to self h (evs1 ++ evs2) he →
  ∃ hm, chain_to self h evs1 hm ∧ chain_to self hm evs2 he.
Proof.
  revert h. induction evs1 as [|[] evs1 IH]; intros h; cbn [app chain_to].
  - intros Hc. by exists h.
  - apply IH.
  - intros (-> & Hs & Hc). destruct (IH _ Hc) as (hm & ? & ?). by exists hm.
  - apply IH.
  - apply IH.
Qed.

Lemma chain_to_train_calls (self : RNN) (ct h he : tensor2) (steps : list train_iter) :
  chain_to self h (concat (map (train_iter_events ct) steps)) he →
  hidden_threaded self ct h (map train_call steps).
Proof.
  revert h. induction steps as [|s steps IH]; intros h; [done|].
  cbn [map concat train_iter_events app chain_to hidden_threaded train_call].
  intros (Hh & Hs & Hc). split_and!; [done|done|by apply IH].
Qed.

Lemma chain_to_sample_calls (self : RNN) (ct h he : tensor2) (steps : list sample_iter) :
  chain_to self h (map (sample_iter_event ct) steps) he →
  hidden_threaded self ct h (map sample_call steps).
Proof.
  revert h. induction steps as [|s steps IH]; intros h; [done|].
  cbn [map sample_iter_event chain_to hidden_threaded sample_call].
  intros (Hh & Hs & Hc). split_and!; [done|done|by apply IH].
Qed.

Context `{AL : !AutogradLaws}.

(** The log of [train] on the tensors of a non-empty line whose characters
    from the second on are letters: one forward call and one loss term
    for every row of the input, in order. *)
Lemma train_log (n_cat : nat) (rc : list scalar) (line : list N) (w : World) :
  RNN_wf n_cat n_letters n_letters (net w) = true →
  length rc = n_cat → line ≠ [] →
  Forall (λ c, c ∈ all_letters) (tail line) →
  ∃ steps v,
    trace (train [rc] (map (λ c, [letter_row c]) line)
             (map (str_find all_letters) (tail line) ++ [Z.of_nat n_letters - 1]%Z) w).2
    = trace w ++ [EvZeroGrad] ++ concat (map (train_iter_events [rc]) steps)
      ++ [EvBackward v]
    ∧ length steps = length line
    ∧ ∀ j s, steps !! j = Some s →
        map (λ c, [letter_row c]) line !! j = Some (ti_input s).
Proof.
  intros Hwf Hrc Hne Hall.
  set (it := map (λ c, [letter_row c]) line).
  set (tg := map (str_find all_letters) (tail line) ++ [Z.of_nat n_letters - 1]%Z).
  assert (length it = length line) as Hlit by (unfold it; by rewrite length_map).
  assert (length tg = length line) as Hltg.
  { unfold tg. rewrite length_app, length_map. destruct line; [done|]. cbn. lia. }
  assert (Forall (λ x, ∃ rx, x = [rx] ∧ length rx = n_letters) it) as Hit.
  { unfold it. apply Forall_fmap, Forall_true. intros c. cbn.
    exists (letter_row c). split; [done|]. apply length_letter_row. }
  assert (Forall (λ t, 0 ≤ t < Z.of_nat n_letters)%Z tg) as Htg.
  { unfold tg. apply Forall_app. split.
    - apply Forall_fmap. eapply Forall_impl; [exact Hall|]. intros c Hc. cbn.
      destruct (str_find_elem_of _ _ Hc) as (k & Hk & ->).
      apply lookup_lt_Some in Hk. rewrite length_all_letters in Hk.
      rewrite n_letters_eq. lia.
    - constructor; [|done]. rewrite n_letters_eq. lia. }
  set (w1 := {| net := zero_grad_net (net w); gen := gen w;
                trace := trace w ++ [EvZeroGrad] |}).
  destruct (train_loop_ok n_cat rc it tg (length it) 0 None
              (replicate (hidden_size (net w)) s_zero) (PyInt 0) w1)
    as (steps & o' & h' & w2 & Hloop & Hn2 & Ht2 & Hlen & Hsteps & Ho');
    [exact (eq_trans (RNN_wf_zero_grad _ _ _ _) Hwf)|done|by rewrite length_replicate
    |done|done|lia|lia|].
  assert (map ti_loss steps ≠ []) as Hsne.
  { destruct steps; [|done]. cbn in Hlen. rewrite Hlit in Hlen. by destruct line. }
  rewrite foldl_iadd_PyInt in Hloop by done.
  set (total := foldl s_add (s_of_nat 0) (map ti_loss steps)) in *.
  destruct (last steps) as [s_last|] eqn:Hlast.
  2:{ apply last_None in Hlast. by subst steps. }
  cbn in Ho'. subst o'.
  exists steps, total. split_and!; [|lia|].
  - unfold train. rewrite bind_get_net, M_bind_eq, zero_grad_eq, M_bind_eq.
    unfold recording. unfold py_range at 1. rewrite Nat.sub_0_r.
    change (initHidden (net w)) with [replicate (hidden_size (net w)) s_zero].
    fold w1. rewrite Hloop. rewrite M_bind_eq.
    match goal with |- context [backward (Tensor0 total) ?g w2] =>
      destruct (backward_ok n_cat n_letters n_letters total g w2)
        as (ps & Hback & Hps6 & Hready);
        [rewrite Hn2; exact (eq_trans (RNN_wf_zero_grad _ _ _ _) Hwf)|];
      rewrite Hback
    end.
    destruct (sgd_all_ok ps Hready) as [ps' Hsgd].
    set (w3 := {| net := with_parameters (net w2) ps; gen := gen w2;
                  trace := trace w2 ++ [EvBackward total] |}).
    assert (Forall2 (λ p p', sgd_update p = Ok p') (parameters (net w3)) ps') as Hsgd3.
    { cbn [net w3]. by rewrite parameters_with_parameters. }
    rewrite bind_get_net, M_bind_eq, (sgd_loop_Ok w3 ps' Hsgd3).
    cbn [snd trace w3]. rewrite Ht2. cbn [trace w1]. by rewrite <- !app_assoc.
  - intros j s Hs. by destruct (Hsteps j s Hs).
Qed.

(** C7: [forward] returns the hidden state that [i2h] computes from the
    joined (category, input, hidden), and [initHidden] is the all-zeros
    [1 x hidden_size] tensor.  On a well-shaped network, [train] on the
    tensors of a category and of a non-empty line of letters calls the
    network exactly once per input row, in order, and [sample] calls it
    once per pass of its loop, at least once and at most [max_length]
    times; in both
    the first call gets the zeros of [initHidden] and every later call the
    hidden state the call before returned.  The chain of hidden states
    also holds of the calls of any run of [train] or [sample], failing or
    not. *)
Theorem hidden_state_threaded (all_categories : list (list N)) (category line : list N)
    (start : N) (w : World) :
  category ∈ all_categories →
  line ≠ [] →
  Forall (λ c, c ∈ all_letters) (tail line) →
  RNN_wf (n_categories all_categories) n_letters n_letters (net w) = true →
  (∀ (self : RNN) (c x h : tensor2) (w0 : World),
     match (forward self c x h w0).1 with
     | Ok (_, h') => i2h_step self c x h h'
     | Raise _ => True
     end)
  ∧ (∀ self : RNN, initHidden self = [replicate (hidden_size self) s_zero])
  ∧ (∃ category_tensor input_line_tensor target_line_tensor steps v,
       categoryTensor all_categories category = Ok category_tensor
       ∧ inputTensor line = Ok input_line_tensor
       ∧ targetTensor line = Ok target_line_tensor
       ∧ trace (train category_tensor input_line_tensor target_line_tensor w).2
         = trace w ++ [EvZeroGrad]
           ++ concat (map (train_iter_events category_tensor) steps)
           ++ [EvBackward v]
       ∧ length steps = length input_line_tensor
       ∧ length steps = length line
       ∧ (∀ i s, steps !! i = Some s → input_line_tensor !! i = Some (ti_input s))
       ∧ hidden_threaded (net w) category_tensor (initHidden (net w))
           (map train_call steps))
  ∧ (∃ category_tensor x steps letters,
       categoryTensor all_categories category = Ok category_tensor
       ∧ inputTensor [start] = Ok [[x]]
       ∧ trace (sample all_categories category [start] w).2
         = trace w ++ map (sample_iter_event category_tensor) steps
       ∧ 1 ≤ length steps ≤ max_length
       ∧ loop_passes topk_reports max_length x (replicate (hidden_size (net w)) s_zero)
           steps letters
       ∧ hidden_threaded (net w) category_tensor (initHidden (net w))
           (map sample_call steps))
  ∧ (∀ (ct : tensor2) (it : tensor3) (tg : list Z) (w0 : World),
       ∃ evs, trace (train ct it tg w0).2 = trace w0 ++ evs
              ∧ hidden_chain (net w0) (initHidden (net w0)) evs)
  ∧ (∀ (cats : list (list N)) (cat start_letter : list N) (w0 : World),
       ∃ evs, trace (sample cats cat start_letter w0).2 = trace w0 ++ evs
              ∧ hidden_chain (net w0) (initHidden (net w0)) evs).
Proof.
  intros Hin Hne Hall Hwf. split_and!.
  - intros self c x h w0.
    destruct (forward self c x h w0) as [r w'] eqn:Hf.
    apply forward_inv in Hf as (_ & _ & Hstep). cbn.
    destruct r as [[o h']|e]; [|done]. by apply (Hstep o h').
  - done.
  - destruct (categoryTensor_ok all_categories category Hin) as (row & Hct & Hrow).
    destruct (train_log _ row line w Hwf Hrow Hne Hall) as (steps & v & Htr & Hlen & Hrows).
    destruct (train_chain [row] (map (λ c, [letter_row c]) line)
                (map (str_find all_letters) (tail line) ++ [Z.of_nat n_letters - 1]%Z) w)
      as (evs & h' & Ht & Hc).
    rewrite Htr in Ht. apply app_inv_head in Ht. subst evs.
    cbn [app chain_to] in Hc.
    apply chain_to_app_inv in Hc as (hm & Hc & _).
    eexists [row], _, _, steps, v.
    split_and!; [done|apply inputTensor_eq|apply targetTensor_eq|exact Htr
                 |by rewrite length_map|done|done|].
    by eapply chain_to_train_calls.
  - destruct (sample_steps all_categories category start w Hin Hwf)
      as (row & steps & letters & w' & Hct & Hrun & _ & Htr & Hpass & Hlen).
    destruct (sample_chain all_categories category [start] w) as (evs & h' & Ht & Hc).
    rewrite Hrun in Ht. cbn [snd] in Ht. rewrite Htr in Ht.
    apply app_inv_head in Ht. subst evs.
    exists [row], (letter_row start), steps, letters. rewrite Hrun.
    split_and!; [done|exact (inputTensor_eq [start])|done|lia|lia|done|].
    by eapply chain_to_sample_calls.
  - intros ct it tg w0. destruct (train_chain ct it tg w0) as (evs & h' & Ht & Hc).
    exists evs. split; [done|]. by eapply chain_to_hidden_chain.
  - intros cats cat start_letter w0.
    destruct (sample_chain cats cat start_letter w0) as (evs & h' & Ht & Hc).
    exists evs. split; [done|]. by eapply chain_to_hidden_chain.
Qed.
End HiddenState.

(** ** The shapes of the network are an invariant of the notebook *)

Section ShapeInvariant.
Context `{SC : Scalar} `{LB : !Library} `{RG : !Rng} `{AG : !Autograd}.

Lemma uniform_row_length (n : nat) (lo hi : scalar) (g : rng) :
  length (uniform_row n lo hi g).1 = n.
Proof.
  revert g. induction n as [|n IH]; intros g; [done|]. cbn [uniform_row].
  destruct (rng_uniform lo hi g) as [x g1]. specialize (IH g1).
  destruct (uniform_row n lo hi g1) as [r g2]. cbn in *. by rewrite IH.
Qed.

Lemma uniform_rows_shape (r c : nat) (lo hi : scalar) (g : rng) :
  shape2 (uniform_rows r c lo hi g).1 = replicate r c.
Proof.
  revert g. induction r as [|r IH]; intros g; [done|]. cbn [uniform_rows].
  pose proof (uniform_row_length c lo hi g) as Hrow.
  destruct (uniform_row c lo hi g) as [x g1]. specialize (IH g1).
  destruct (uniform_rows r c lo hi g1) as [t g2]. cbn in *. by rewrite Hrow, IH.
Qed.

Lemma Linear_init_wf (in_f out_f : nat) (g : rng) :
  Linear_wf (Linear_init in_f out_f g).1 = true
  ∧ in_features (Linear_init in_f out_f g).1 = in_f
  ∧ out_features (Linear_init in_f out_f g).1 = out_f.
Proof.
  unfold Linear_init.
  set (bound := s_div s_one (s_sqrt (s_of_nat in_f))).
  pose proof (uniform_rows_shape out_f in_f (s_neg bound) bound g) as Hw.
  destruct (uniform_rows out_f in_f (s_neg bound) bound g) as [wt g1].
  pose proof (uniform_rows_shape 1 out_f (s_neg bound) bound g1) as Hb.
  destruct (uniform_rows 1 out_f (s_neg bound) bound g1) as [b g2].
  cbn in *. unfold Linear_wf, has_shape, Param_wf. cbn.
  by rewrite !bool_decide_eq_true_2.
Qed.

(** [RNN(input_size, hidden_size, output_size)] builds a well-shaped network. *)
Lemma RNN_init_wf (n_cat isz hsz osz : nat) (g : rng) :
  RNN_wf n_cat isz osz (RNN_init n_cat isz hsz osz g).1 = true.
Proof.
  unfold RNN_init.
  destruct (Linear_init_wf (n_cat + isz + hsz) hsz g) as (W1 & I1 & O1).
  destruct (Linear_init (n_cat + isz + hsz) hsz g) as [l1 g1].
  destruct (Linear_init_wf (n_cat + isz + hsz) osz g1) as (W2 & I2 & O2).
  destruct (Linear_init (n_cat + isz + hsz) osz g1) as [l2 g2].
  destruct (Linear_init_wf (hsz + osz) osz g2) as (W3 & I3 & O3).
  destruct (Linear_init (hsz + osz) osz g2) as [l3 g3].
  cbn in *. unfold RNN_wf. cbn. rewrite W1, W2, W3.
  by rewrite !bool_decide_eq_true_2.
Qed.

Lemma rnn_init_wf (n_cat : nat) (g : rng) :
  RNN_wf n_cat n_letters n_letters (rnn_init n_cat g).1 = true.
Proof. apply RNN_init_wf. Qed.

(** Parameters of the same shapes keep the network well-shaped. *)
Lemma RNN_wf_with_parameters (n_cat isz osz : nat) (self : RNN) (ps : list Param) :
  RNN_wf n_cat isz osz self = true →
  Forall2 same_shapes (parameters self) ps →
  RNN_wf n_cat isz osz (with_parameters self ps) = true.
Proof.
  intros Hwf HF. cbn in HF.
  apply Forall2_cons_inv_l in HF as (p1 & l1 & [S1 P1] & HF & ->).
  apply Forall2_cons_inv_l in HF as (p2 & l2 & [S2 P2] & HF & ->).
  apply Forall2_cons_inv_l in HF as (p3 & l3 & [S3 P3] & HF & ->).
  apply Forall2_cons_inv_l in HF as (p4 & l4 & [S4 P4] & HF & ->).
  apply Forall2_cons_inv_l in HF as (p5 & l5 & [S5 P5] & HF & ->).
  apply Forall2_cons_inv_l in HF as (p6 & l6 & [S6 P6] & HF & ->).
  apply Forall2_nil_inv_l in HF as ->.
  revert Hwf. unfold RNN_wf, Linear_wf, has_shape. cbn.
  rewrite S1, S2, S3, S4, S5, S6, P1, P2, P3, P4, P5, P6.
  rewrite !andb_true_iff. tauto.
Qed.

Lemma accumulate_grad_same_shapes (p p' : Param) (g : tensor2) :
  Param_wf p = true → accumulate_grad p g = Ok p' → same_shapes p p'.
Proof.
  unfold accumulate_grad, Param_wf, same_shapes. destruct (grad p) as [g0|]; intros Hp.
  - destruct (tensor_zip_with s_add g0 g) as [g1|] eqn:Hg1; [|done].
    apply tensor_zip_with_Ok in Hg1 as [Hs ->]. intros [= <-]. cbn.
    apply bool_decide_eq_true_1 in Hp. split; [done|].
    apply bool_decide_eq_true_2. rewrite shape2_zip_with by done. done.
  - case_bool_decide as Hs; [|done]. intros [= <-]. cbn. split; [done|].
    by apply bool_decide_eq_true_2.
Qed.

Lemma sgd_update_same_shapes (p p' : Param) :
  Param_wf p = true → sgd_update p = Ok p' → same_shapes p p'.
Proof.
  unfold sgd_update, Param_wf, same_shapes. destruct (grad p) as [g|]; [|done]. intros Hp.
  destruct (tensor_zip_with _ (data p) g) as [d|] eqn:Hd; [|done].
  apply tensor_zip_with_Ok in Hd as [Hs ->]. intros [= <-]. cbn [data grad].
  rewrite shape2_zip_with by done. split; [done|].
  unfold Param_wf. cbn [data grad]. by rewrite shape2_zip_with by done.
Qed.

Lemma accumulate_all_same_shapes (l : list Param) (gs : list tensor2) (ps : list Param) :
  Forall (λ p, Param_wf p = true) l → length l ≤ length gs →
  Forall2 (λ (pg : Param * tensor2) p', accumulate_grad pg.1 pg.2 = Ok p') (zip l gs) ps →
  Forall2 same_shapes l ps.
Proof.
  intros Hpw. revert gs ps. induction Hpw as [|p l Hp _ IH]; intros gs ps Hgs Hps.
  - destruct gs; apply Forall2_nil_inv_l in Hps as ->; constructor.
  - destruct gs as [|g gs]; [cbn in Hgs; lia|]. cbn [zip zip_with] in Hps.
    apply Forall2_cons_inv_l in Hps as (p' & ps' & Hp' & Hps & ->). constructor.
    + by eapply accumulate_grad_same_shapes.
    + apply (IH gs); [|done]. cbn in Hgs. lia.
Qed.

Lemma backward_wf (n_cat isz osz : nat) (loss : py_num) (graph : list tensor2 → scalar)
    (w : World) :
  RNN_wf n_cat isz osz (net w) = true →
  RNN_wf n_cat isz osz (net (backward loss graph w).2) = true.
Proof.
  intros Hwf. unfold backward. destruct loss as [n|v]; [done|].
  rewrite bind_get_net, bind_lift.
  destruct (mapM _ (zip (parameters (net w)) _)) as [ps|e] eqn:Hps; [|done].
  rewrite set_net_log. cbn [snd net].
  destruct (decide (length ps = 6)) as [Hlen|Hlen].
  2:{ by rewrite with_parameters_other. }
  apply RNN_wf_with_parameters; [done|].
  apply mapM_Ok_Forall2 in Hps.
  eapply accumulate_all_same_shapes; [by eapply RNN_wf_parameters| |exact Hps].
  apply Forall2_length in Hps. rewrite length_zip_with in Hps.
  pose proof (length_parameters (net w)). lia.
Qed.

Lemma update_parameter_wf (n_cat isz osz k : nat) (w : World) :
  RNN_wf n_cat isz osz (net w) = true →
  RNN_wf n_cat isz osz (net (update_parameter k Datatypes.tt w).2) = true.
Proof.
  intros Hwf. rewrite update_parameter_eq.
  destruct (parameters (net w) !! k) as [p|] eqn:Hk; [|done].
  destruct (sgd_update p) as [p'|] eqn:Hp; [|done]. cbn [snd net].
  apply RNN_wf_with_parameters; [done|].
  pose proof (RNN_wf_parameters _ _ _ _ Hwf) as Hpw.
  revert Hk Hpw. generalize (parameters (net w)). intros l. revert k.
  induction l as [|q l IH]; intros [|k] Hk Hpw; try done; cbn in *.
  - injection Hk as ->. apply Forall_cons in Hpw as [Hq Hpw]. constructor.
    + by eapply sgd_update_same_shapes.
    + clear -Hpw. induction Hpw; constructor; [by split|done].
  - apply Forall_cons in Hpw as [Hq Hpw]. constructor; [by split|]. by apply IH.
Qed.

Lemma sgd_loop_wf (n_cat isz osz : nat) (xs : list nat) (w : World) :
  RNN_wf n_cat isz osz (net w) = true →
  RNN_wf n_cat isz osz (net (for_eachM xs update_parameter Datatypes.tt w).2) = true.
Proof.
  revert w. induction xs as [|k xs IH]; intros w Hwf; [done|].
  cbn [for_eachM]. rewrite M_bind_eq.
  pose proof (update_parameter_wf _ _ _ k w Hwf) as Hk.
  destruct (update_parameter k Datatypes.tt w) as [[[]|e] w1]; [|done].
  by apply IH.
Qed.

(** Training, whether it returns or raises, leaves a well-shaped network
    well-shaped: what [sample] needs holds after any number of steps. *)
Lemma train_wf (n_cat isz osz : nat) (ct : tensor2) (it : tensor3) (tg : list Z)
    (w : World) :
  RNN_wf n_cat isz osz (net w) = true →
  RNN_wf n_cat isz osz (net (train ct it tg w).2) = true.
Proof.
  intros Hwf. unfold train. rewrite bind_get_net, M_bind_eq, zero_grad_eq, M_bind_eq.
  unfold recording.
  set (w1 := {| net := zero_grad_net (net w); gen := gen w; trace := trace w ++ [EvZeroGrad] |}).
  assert (RNN_wf n_cat isz osz (net w1) = true) as Hwf1
    by exact (eq_trans (RNN_wf_zero_grad _ _ _ _) Hwf).
  destruct (train_loop_chain ct it (unsqueeze_last tg) (py_range 0 (length it))
              None (initHidden (net w)) (PyInt 0) w1) as (Hn & _).
  destruct (for_eachM _ _ _ w1) as [[[[o h1] loss]|e] w2]; cbn [snd] in Hn.
  2:{ cbn [snd]. by rewrite Hn. }
  rewrite M_bind_eq.
  assert (RNN_wf n_cat isz osz (net w2) = true) as Hwf2 by (by rewrite Hn).
  match goal with |- context [backward loss ?g w2] =>
    pose proof (backward_wf _ _ _ loss g w2 Hwf2) as Hwf3;
    destruct (backward loss g w2) as [[[]|e] w3] end; [|done]. cbn [snd] in Hwf3.
  rewrite bind_get_net, M_bind_eq.
  pose proof (sgd_loop_wf _ _ _ (py_range 0 (length (parameters (net w3)))) w3 Hwf3) as Hwf4.
  destruct (for_eachM _ update_parameter _ w3) as [[[]|e] w4]; [|done]. cbn [snd] in Hwf4.
  rewrite bind_lift. destruct o as [o|]; [|done].
  rewrite bind_lift. by destruct (item loss).
Qed.
End ShapeInvariant.

(** * Further properties of the code *)

(** ** Further properties of the example tensors *)

Lemma list_index_absent {A} `{EqDecision A} (x : A) (l : list A) :
  x ∉ l → list_index x l = Raise ValueError.
Proof.
  intros Hnot. unfold list_index.
  destruct (list_find _ l) as [[li y]|] eqn:Hf; [|done].
  apply list_find_Some in Hf as (Hli & -> & _).
  exfalso. apply Hnot. by eapply list_elem_of_lookup_2.
Qed.

Section MoreTensors.
Context `{SC : Scalar}.

(** X1: a category that is not in [all_categories] makes [categoryTensor]
    raise [ValueError] (from [list.index]). *)
Theorem categoryTensor_unknown (all_categories : list (list N)) (category : list N) :
  category ∉ all_categories →
  categoryTensor all_categories category = Raise ValueError.
Proof.
  intros Hnot. unfold categoryTensor. by rewrite (list_index_absent _ _ Hnot).
Qed.

(** X2: [inputTensor] never raises.  It returns one [1 x n_letters] slice
    per character, one-hot at the character's index in [all_letters]; a
    character outside [all_letters] gets its one, through index [-1], in
    the last slot, the one of EOS. *)
Theorem inputTensor_total (line : list N) :
  ∃ t, inputTensor line = Ok t ∧ length t = length line
    ∧ ∀ li c, line !! li = Some c →
        ∃ row k, t !! li = Some [row] ∧ one_hot_at row n_letters k
          ∧ (c ∈ all_letters → all_letters !! k = Some c)
          ∧ (c ∉ all_letters → k = n_letters - 1).
Proof.
  exists (map (λ c, [letter_row c]) line). split_and!.
  - apply inputTensor_eq.
  - by rewrite length_map.
  - intros li c Hc. exists (letter_row c), (letter_slot c). split_and!.
    + by rewrite list_lookup_fmap, Hc.
    + apply one_hot_at_insert, letter_slot_lt.
    + apply letter_slot_elem_of.
    + intros Hf%str_find_not_elem_of. unfold letter_slot.
      rewrite Hf, n_letters_eq. reflexivity.
Qed.

(** X3: [targetTensor] never raises.  For a non-empty line it has
    [len(line)] entries, for the empty line the single EOS entry; entry [i]
    is [all_letters.find(line[i+1])], the last one is EOS, and every entry
    lies between [-1] and [n_letters - 1]. *)
Theorem targetTensor_total (line : list N) :
  ∃ t, targetTensor line = Ok t
    ∧ length t = Nat.max 1 (length line)
    ∧ last t = Some (Z.of_nat n_letters - 1)%Z
    ∧ (∀ i c, line !! S i = Some c → t !! i = Some (str_find all_letters c))
    ∧ Forall (λ k, -1 ≤ k ≤ Z.of_nat n_letters - 1)%Z t.
Proof.
  exists (map (str_find all_letters) (tail line) ++ [Z.of_nat n_letters - 1]%Z).
  split_and!.
  - apply targetTensor_eq.
  - rewrite length_app, length_map. destruct line; cbn; lia.
  - apply last_snoc.
  - intros i c Hc. destruct line as [|c0 line]; [done|].
    change (line !! i = Some c) in Hc. cbn [tail].
    rewrite lookup_app_l.
    + by rewrite list_lookup_fmap, Hc.
    + rewrite length_map. by eapply lookup_lt_Some.
  - apply Forall_app. split.
    + apply Forall_fmap, Forall_true. intros c. cbn.
      pose proof (str_find_range all_letters c) as Hr.
      rewrite length_all_letters in Hr. rewrite n_letters_eq. lia.
    + constructor; [|done]. rewrite n_letters_eq. lia.
Qed.

(** X4: input and target of a line are aligned for next-letter prediction:
    the target of step [i], used as a (Python) index into the input row of
    step [i + 1], finds the one of that row.  This holds for every line. *)
Theorem target_indexes_next_input (line : list N) :
  ∃ it tg, inputTensor line = Ok it ∧ targetTensor line = Ok tg
    ∧ ∀ i, S i < length line →
        ∃ t row, tg !! i = Some t ∧ it !! S i = Some [row]
                 ∧ getitem row t = Ok s_one.
Proof.
  exists (map (λ c, [letter_row c]) line),
    (map (str_find all_letters) (tail line) ++ [Z.of_nat n_letters - 1]%Z).
  split_and!; [apply inputTensor_eq|apply targetTensor_eq|].
  intros i Hi. destruct (lookup_lt_is_Some_2 line (S i)) as [c Hc]; [done|].
  exists (str_find all_letters c), (letter_row c). split_and!.
  - destruct line as [|c0 line]; [done|].
    change (line !! i = Some c) in Hc. cbn [length] in Hi. cbn [tail].
    rewrite lookup_app_l by (rewrite length_map; lia).
    by rewrite list_lookup_fmap, Hc.
  - by rewrite list_lookup_fmap, Hc.
  - unfold getitem. rewrite length_letter_row, norm_index_letter. rsimpl.
    unfold letter_row, one_hot.
    rewrite list_lookup_insert_eq; [done|].
    rewrite length_replicate. apply letter_slot_lt.
Qed.
End MoreTensors.

(** ** Further properties of data loading *)

Lemma py_split_length (sep : N) (s : list N) :
  length (py_split sep s) = S (length (filter (λ c, c = sep) s)).
Proof.
  induction s as [|c s IH]; [done|]. cbn [py_split].
  case_bool_decide as Hc.
  - rewrite filter_cons_True by done. cbn. by rewrite IH.
  - rewrite filter_cons_False by done.
    destruct (py_split sep s) as [|w ws]; [done|]. exact IH.
Qed.

Lemma lstrip_all_space `{Unicode} (s : list N) :
  Forall (λ c, char_isspace c = true) s → lstrip s = [].
Proof.
  intros Hs. unfold lstrip.
  destruct (list_find _ s) as [[i c]|] eqn:Hf; [|done].
  apply list_find_Some in Hf as (Hi & Hc & _).
  rewrite (Forall_lookup_1 _ _ _ _ Hs Hi) in Hc. done.
Qed.

Section MoreData.
Context `{UC : Unicode} `{FS : FileSystem}.

(** X6: on a file that can be read, [readLines] returns at least one
    line: one more than there are newlines in the stripped text of the
    file; every line it returns is made of [all_letters] only.  On a file
    that cannot be read it raises the error of the read. *)
Theorem readLines_lines (filename : list N) :
  match open_read filename with
  | Ok text =>
      ∃ lines, readLines filename = Ok lines
        ∧ length lines = S (length (filter (λ c, c = chr_newline) (py_strip text)))
        ∧ Forall (Forall (λ c, c ∈ all_letters)) lines
  | Raise e => readLines filename = Raise e
  end.
Proof.
  unfold readLines. destruct (open_read filename) as [text|e]; [|done]. rsimpl.
  eexists. split_and!; [done| |].
  - by rewrite length_map, py_split_length.
  - apply Forall_fmap, Forall_true. intros line. apply unicodeToAscii_all_letters.
Qed.

Lemma stored_lines_facts (filename text : list N) :
  open_read filename = Ok text →
  0 < length (stored_lines filename)
  ∧ Forall (Forall (λ c, c ∈ all_letters)) (stored_lines filename).
Proof.
  intros Hr. rewrite (stored_lines_Ok _ _ Hr). split.
  - rewrite length_map, py_split_length. lia.
  - apply Forall_fmap, Forall_true. intros line. apply unicodeToAscii_all_letters.
Qed.

Lemma foldl_insert_lookup_Some (files : list (list N))
    (m : gmap (list N) (list (list N))) c lines :
  foldl (λ m f, <[category_of f := stored_lines f]> m) m files !! c = Some lines →
  (∃ f, f ∈ files ∧ category_of f = c ∧ lines = stored_lines f) ∨ m !! c = Some lines.
Proof.
  revert m. induction files as [|f files IH]; intros m Hl; [by right|].
  cbn [foldl] in Hl. apply IH in Hl as [(f' & Hf' & <- & ->)|Hl].
  - left. exists f'. split_and!; [|done..]. by apply elem_of_cons; right.
  - destruct (decide (category_of f = c)) as [<-|Hne].
    + rewrite lookup_insert_eq in Hl. injection Hl as <-.
      left. exists f. split_and!; [|done..]. by apply elem_of_cons; left.
    + rewrite lookup_insert_ne in Hl by done. by right.
Qed.

Lemma foldl_insert_lookup_is_Some (files : list (list N))
    (m : gmap (list N) (list (list N))) c :
  c ∈ map category_of files →
  is_Some (foldl (λ m f, <[category_of f := stored_lines f]> m) m files !! c).
Proof.
  revert m. induction files as [|f0 files IH]; intros m Hc.
  - by apply elem_of_nil in Hc.
  - cbn [foldl]. destruct (decide (c ∈ map category_of files)) as [Hin|Hnin]; [by apply IH|].
    cbn [map] in Hc. apply elem_of_cons in Hc as [->|?]; [|done].
    rewrite lookup_foldl_insert_fresh by done. rewrite lookup_insert_eq. by eexists.
Qed.

Context `{UL : !UnicodeLaws}.

(** X5: on text made of [all_letters] only, [unicodeToAscii] changes
    nothing. *)
Theorem unicodeToAscii_fixes_letters (s : list N) :
  Forall (λ c, c ∈ all_letters) s → unicodeToAscii s = s.
Proof.
  intros Hs. unfold unicodeToAscii. rewrite normalize_NFD_all_letters by done.
  apply filter_Forall_id. eapply Forall_impl; [exact Hs|].
  intros c Hc. split; [by apply category_all_letters|].
  unfold str_contains. by apply bool_decide_eq_true_2.
Qed.

(** X7: a file that holds white space only (an empty file too) gives the
    single empty line, not an empty list of lines. *)
Theorem readLines_blank_file (filename text : list N) :
  open_read filename = Ok text →
  Forall (λ c, char_isspace c = true) text →
  readLines filename = Ok [[]].
Proof.
  intros Hr Hs. rewrite (readLines_Ok _ _ Hr). f_equal. unfold py_strip.
  rewrite (lstrip_all_space _ Hs). change (reverse []) with (@nil N).
  rewrite (lstrip_all_space []) by constructor. cbn [reverse rev_append py_split map].
  unfold unicodeToAscii. by rewrite normalize_NFD_all_letters by constructor.
Qed.
End MoreData.

Section MorePaths.
Context `{UC : Unicode} `{FS : FileSystem}.

(** X8: the category of a data file is its file name without directory
    and extension: for a name without [/] that is not empty and does not
    begin with a dot, [basename] drops the directory, [splitext] splits
    off [.txt], and the category read back is the name. *)
Theorem category_of_data_file (stem : list N) :
  chr_slash ∉ stem → head stem ≠ Some chr_dot → stem ≠ [] →
  basename (names_dir ++ stem ++ txt_ext) = stem ++ txt_ext
  ∧ splitext (stem ++ txt_ext) = (stem, txt_ext)
  ∧ category_of (names_dir ++ stem ++ txt_ext) = stem.
Proof.
  intros Hs Hd Hne.
  pose proof (basename_names stem Hs) as Hb.
  pose proof (splitext_names stem Hs Hd Hne) as Hx.
  split_and!; [done..|]. unfold category_of. by rewrite Hb, Hx.
Qed.

Context `{FL : !FileSystemLaws}.

Lemma load_data_Ok_inv (category_lines : gmap (list N) (list (list N)))
    (all_categories : list (list N)) :
  load_data = Ok (category_lines, all_categories) →
  all_categories = map category_of (glob names_pattern)
  ∧ category_lines
    = foldl (λ m f, <[category_of f := stored_lines f]> m) ∅ (glob names_pattern)
  ∧ 0 < length all_categories
  ∧ Forall (λ f, ∃ text, open_read f = Ok text) (glob names_pattern).
Proof.
  rewrite load_data_eq.
  pose proof (load_loop_inv (glob names_pattern) ∅ []) as Hinv.
  destruct (for_each (glob names_pattern) load_step (∅, [])) as [[cl ac]|e] eqn:Hloop;
    [|done].
  rewrite (load_loop_Ok _ _ _ Hinv) in Hloop. injection Hloop as <- <-. cbn [app].
  case_bool_decide as Hn; [done|]. intros [= <- <-]. split_and!; [done..|lia|done].
Qed.

(** X9: after loading, [all_categories] lists the categories of the files
    in the order of [glob], without repetition; the keys of
    [category_lines] are exactly these categories; and every list of lines
    stored is non-empty and holds only lines over [all_letters]. *)
Theorem load_data_tables (category_lines : gmap (list N) (list (list N)))
    (all_categories : list (list N)) :
  load_data = Ok (category_lines, all_categories) →
  all_categories = map category_of (findFiles names_pattern)
  ∧ NoDup all_categories
  ∧ (∀ category, category ∈ all_categories ↔ is_Some (category_lines !! category))
  ∧ ∀ category lines, category_lines !! category = Some lines →
      0 < length lines ∧ Forall (Forall (λ c, c ∈ all_letters)) lines.
Proof.
  intros (-> & -> & _ & Hread)%load_data_Ok_inv. unfold findFiles. split_and!.
  - done.
  - apply glob_categories_NoDup.
  - intros category. split.
    + apply foldl_insert_lookup_is_Some.
    + intros [lines Hl]. apply foldl_insert_lookup_Some in Hl as [(f & Hf & <- & _)|Hl].
      * by apply list_elem_of_fmap_2.
      * by rewrite lookup_empty in Hl.
  - intros category lines Hl.
    apply foldl_insert_lookup_Some in Hl as [(f & Hf & _ & ->)|Hl].
    + rewrite Forall_forall in Hread. destruct (Hread f Hf) as [text Htext].
      unfold stored_lines. rewrite (readLines_Ok _ _ Htext). split.
      * rewrite length_map, py_split_length. lia.
      * apply Forall_fmap, Forall_true. intros line. apply unicodeToAscii_all_letters.
    + by rewrite lookup_empty in Hl.
Qed.
End MorePaths.

(** ** Further properties of the network and the training step *)

Section MoreNetwork.
Context `{SC : Scalar} `{LB : !Library} `{RG : !Rng} `{AG : !Autograd}.

Lemma Linear_init_grads (in_f out_f : nat) (g : rng) :
  grad (weight (Linear_init in_f out_f g).1) = None
  ∧ grad (bias (Linear_init in_f out_f g).1) = None.
Proof.
  unfold Linear_init.
  destruct (uniform_rows out_f in_f _ _ g) as [wt g1].
  by destruct (uniform_rows 1 out_f _ _ g1) as [b g2].
Qed.

(** X10: [RNN(input_size, hidden_size, output_size)] builds the three
    layers with the shapes [forward] needs ([i2h] and [i2o] read the
    joined category, input and hidden state, [o2o] the joined hidden state
    and output), sets [hidden_size], a dropout rate of 0.1, and leaves
    every gradient slot empty. *)
Theorem RNN_init_shapes (n_cat isz hsz osz : nat) (g : rng) :
  RNN_wf n_cat isz osz (RNN_init n_cat isz hsz osz g).1 = true
  ∧ hidden_size (RNN_init n_cat isz hsz osz g).1 = hsz
  ∧ dropout_p (RNN_init n_cat isz hsz osz g).1 = s_of_Q (1 # 10)
  ∧ Forall (λ p, grad p = None) (parameters (RNN_init n_cat isz hsz osz g).1).
Proof.
  split; [apply RNN_init_wf|]. unfold RNN_init.
  destruct (Linear_init_grads (n_cat + isz + hsz) hsz g) as [G1 G2].
  destruct (Linear_init (n_cat + isz + hsz) hsz g) as [l1 g1].
  destruct (Linear_init_grads (n_cat + isz + hsz) osz g1) as [G3 G4].
  destruct (Linear_init (n_cat + isz + hsz) osz g1) as [l2 g2].
  destruct (Linear_init_grads (hsz + osz) osz g2) as [G5 G6].
  destruct (Linear_init (hsz + osz) osz g2) as [l3 g3].
  cbn in *. split_and!; [done..|]. repeat constructor; done.
Qed.

(** X11: on a well-shaped network, [forward] on one-row tensors checks
    one thing, that the joined width of category, input and hidden state
    is the input width of the layers: then it returns an output row of
    [output_size] entries and a hidden row of [hidden_size] entries and
    changes only the state of the random generator; otherwise it raises
    a [RuntimeError] of the library (whatever its message) and changes
    nothing. *)
Theorem forward_width_check (n_cat isz osz : nat) (self : RNN) (rc rx rh : list scalar)
    (w : World) :
  RNN_wf n_cat isz osz self = true →
  if bool_decide (length rc + length rx + length rh = n_cat + isz + hidden_size self)
  then ∃ ro rh' g',
         forward self [rc] [rx] [rh] w
         = (Ok ([ro], [rh']), {| net := net w; gen := g'; trace := trace w |})
         ∧ length ro = osz ∧ length rh' = hidden_size self
  else ∃ msg, forward self [rc] [rx] [rh] w = (Raise (RuntimeError msg), w).
Proof.
  intros Hwf.
  destruct (RNN_wf_fields _ _ _ _ Hwf) as (W1 & W2 & W3 & I1 & O1 & I2 & O2 & I3 & O3).
  case_bool_decide as Hlen.
  - assert (length (rc ++ rx ++ rh) = in_features (i2h self)) as Hin1.
    { rewrite !length_app. lia. }
    assert (length (rc ++ rx ++ rh) = in_features (i2o self)) as Hin2.
    { rewrite !length_app. lia. }
    pose proof (Linear_forward_row _ _ Hin1) as E1.
    pose proof (Linear_forward_row _ _ Hin2) as E2.
    pose proof (Linear_wf_out _ (rc ++ rx ++ rh) W1) as L1.
    pose proof (Linear_wf_out _ (rc ++ rx ++ rh) W2) as L2.
    set (h1 := zip_with s_add (map (dot (rc ++ rx ++ rh)) (data (weight (i2h self))))
                 (bias_row (i2h self))) in *.
    set (o1 := zip_with s_add (map (dot (rc ++ rx ++ rh)) (data (weight (i2o self))))
                 (bias_row (i2o self))) in *.
    assert (length (h1 ++ o1) = in_features (o2o self)) as Hin3.
    { rewrite length_app. lia. }
    pose proof (Linear_forward_row _ _ Hin3) as E3.
    pose proof (Linear_wf_out _ (h1 ++ o1) W3) as L3.
    set (o2 := zip_with s_add (map (dot (h1 ++ o1)) (data (weight (o2o self))))
                 (bias_row (o2o self))) in *.
    exists (log_softmax_row (dropout_row (dropout_p self) o2 (gen w)).1), h1,
           (dropout_row (dropout_p self) o2 (gen w)).2.
    split_and!; [|rewrite log_softmax_row_length, dropout_row_length; lia|lia].
    unfold forward.
    rewrite (bind_lift_Ok _ _ _ _ (cat_dim1_rows3 rc rx rh)).
    rewrite (bind_lift_Ok _ _ _ _ E1), (bind_lift_Ok _ _ _ _ E2).
    rewrite (bind_lift_Ok _ _ _ _ (cat_dim1_rows2 h1 o1)).
    rewrite (bind_lift_Ok _ _ _ _ E3).
    rewrite M_bind_eq, dropout_one_row. reflexivity.
  - unfold forward. rewrite (bind_lift_Ok _ _ _ _ (cat_dim1_rows3 rc rx rh)).
    rewrite bind_lift. unfold Linear_forward. cbn [forallb].
    assert ((length (rc ++ rx ++ rh) =? in_features (i2h self)) = false) as ->;
      [|by eexists].
    apply Nat.eqb_neq. rewrite !length_app. lia.
Qed.

Lemma same_frame_refl (self : RNN) : same_frame self self.
Proof. by repeat split. Qed.

Lemma same_frame_trans (a b c : RNN) : same_frame a b → same_frame b c → same_frame a c.
Proof.
  intros (A1 & A2 & A3 & A4 & A5 & A6 & A7 & A8) (B1 & B2 & B3 & B4 & B5 & B6 & B7 & B8).
  unfold same_frame. split_and!; congruence.
Qed.

Lemma same_frame_with_parameters (self : RNN) (ps : list Param) :
  same_frame self (with_parameters self ps).
Proof.
  destruct ps as [|? [|? [|? [|? [|? [|? [|??]]]]]]]; by repeat split.
Qed.

Lemma backward_frame (loss : py_num) (graph : list tensor2 → scalar) (w : World) :
  same_frame (net w) (net (backward loss graph w).2).
Proof.
  unfold backward. destruct loss as [n|v]; [apply same_frame_refl|].
  rewrite bind_get_net, bind_lift.
  destruct (mapM _ (zip (parameters (net w)) _)) as [ps|e]; [|apply same_frame_refl].
  rewrite set_net_log. apply same_frame_with_parameters.
Qed.

Lemma sgd_loop_frame (xs : list nat) (w : World) :
  same_frame (net w) (net (for_eachM xs update_parameter Datatypes.tt w).2).
Proof.
  revert w. induction xs as [|k xs IH]; intros w; [apply same_frame_refl|].
  cbn [for_eachM]. rewrite M_bind_eq.
  assert (same_frame (net w) (net (update_parameter k Datatypes.tt w).2)) as Hk.
  { rewrite update_parameter_eq.
    destruct (parameters (net w) !! k) as [p|]; [|apply same_frame_refl].
    destruct (sgd_update p); [|apply same_frame_refl].
    apply same_frame_with_parameters. }
  destruct (update_parameter k Datatypes.tt w) as [[[]|e] w1]; [|done].
  eapply same_frame_trans; [exact Hk|apply IH].
Qed.

Lemma train_frame (ct : tensor2) (it : tensor3) (tg : list Z) (w : World) :
  same_frame (net w) (net (train ct it tg w).2).
Proof.
  unfold train. rewrite bind_get_net, M_bind_eq, zero_grad_eq, M_bind_eq.
  unfold recording.
  set (w1 := {| net := zero_grad_net (net w); gen := gen w; trace := trace w ++ [EvZeroGrad] |}).
  assert (same_frame (net w) (net w1)) as H1 by apply same_frame_with_parameters.
  destruct (train_loop_chain ct it (unsqueeze_last tg) (py_range 0 (length it))
              None (initHidden (net w)) (PyInt 0) w1) as (Hn & _).
  destruct (for_eachM _ _ _ w1) as [[[[o h1] loss]|e] w2]; cbn [snd] in Hn.
  2:{ cbn [snd]. by rewrite Hn. }
  rewrite M_bind_eq.
  assert (same_frame (net w) (net w2)) as H2 by (by rewrite Hn).
  match goal with |- context [backward loss ?g w2] =>
    pose proof (backward_frame loss g w2) as H3;
    destruct (backward loss g w2) as [[[]|e] w3] end; cbn [snd] in H3.
  2:{ cbn [snd]. by eapply same_frame_trans. }
  rewrite bind_get_net, M_bind_eq.
  pose proof (sgd_loop_frame (py_range 0 (length (parameters (net w3)))) w3) as H4.
  assert (same_frame (net w) (net w3)) as H3' by (by eapply same_frame_trans).
  destruct (for_eachM _ update_parameter _ w3) as [[[]|e] w4]; cbn [snd] in H4.
  2:{ cbn [snd]. by eapply same_frame_trans. }
  assert (same_frame (net w) (net w4)) as H4' by (by eapply same_frame_trans).
  rewrite bind_lift. destruct o as [o|]; [|done].
  rewrite bind_lift. by destruct (item loss).
Qed.

(** X12: whether it returns or raises, [train] leaves a well-shaped
    network well-shaped and touches nothing of it but parameter values and
    gradient slots: sizes and dropout rate stay. *)
Theorem train_keeps_network_shape (n_cat isz osz : nat) (ct : tensor2) (it : tensor3)
    (tg : list Z) (w : World) :
  RNN_wf n_cat isz osz (net w) = true →
  RNN_wf n_cat isz osz (net (train ct it tg w).2) = true
  ∧ same_frame (net w) (net (train ct it tg w).2).
Proof.
  intros Hwf. split; [by apply train_wf|apply train_frame].
Qed.

(** X13: on an empty input, [train] raises [AttributeError] at
    [loss.backward()] ([loss] is still the integer 0): it has called
    [zero_grad] and nothing else, no forward pass, and no parameter value
    has changed. *)
Theorem train_empty_input (ct : tensor2) (tg : list Z) (w : World) :
  train ct [] tg w
  = (Raise AttributeError,
     {| net := zero_grad_net (net w); gen := gen w; trace := trace w ++ [EvZeroGrad] |})
  ∧ map data (parameters (zero_grad_net (net w))) = map data (parameters (net w)).
Proof. split; reflexivity. Qed.

Lemma train_loop_locals ct it tt (xs : list nat) (o0 : option tensor2) (h0 : tensor2)
    (l0 : py_num) (w : World) o h l w' :
  for_eachM xs (train_step ct it tt) (o0, h0, l0) w = (Ok (o, h, l), w') →
  (xs = [] ∧ o = o0 ∧ l = l0) ∨ (is_Some o ∧ ∃ v, l = Tensor0 v).
Proof.
  revert o0 h0 l0 w. induction xs as [|i xs IH]; intros o0 h0 l0 w Hrun.
  { left. by injection Hrun as <- <- <-. }
  right. cbn [for_eachM] in Hrun. rewrite M_bind_eq in Hrun.
  destruct (train_step ct it tt i (o0, h0, l0) w) as [[[[o1 h1] l1]|e] w1] eqn:Hstep; [|done].
  assert (is_Some o1 ∧ ∃ v, l1 = Tensor0 v) as [Ho1 [v1 ->]].
  { revert Hstep. unfold train_step. rewrite bind_lift.
    destruct (getitem it (Z.of_nat i)); [|done]. rewrite M_bind_eq.
    destruct (rnn_call ct a h0 w) as [[[o' h']|e] w2]; [|done]. rewrite bind_lift.
    destruct (getitem tt (Z.of_nat i)); [|done]. rewrite M_bind_eq, criterion_eq.
    destruct (NLLLoss o' a0); [|done]. intros [= <- <- <- <-].
    split; [by eexists|]. destruct l0; by eexists. }
  apply IH in Hrun as [(-> & -> & ->)|Hrun]; [|done].
  split; [done|by eexists].
Qed.

Context `{AL : !AutogradLaws}.

(** X14: a training step that raises leaves every parameter value as it
    was: on a well-shaped network an exception can only come from the
    forward loop or from [backward] on an empty input, before any update. *)
Theorem train_failure_keeps_values (n_cat isz osz : nat) (ct : tensor2) (it : tensor3)
    (tg : list Z) (w : World) (e : exn) :
  RNN_wf n_cat isz osz (net w) = true →
  (train ct it tg w).1 = Raise e →
  map data (parameters (net (train ct it tg w).2)) = map data (parameters (net w)).
Proof.
  intros Hwf. unfold train. rewrite bind_get_net, M_bind_eq, zero_grad_eq, M_bind_eq.
  unfold recording.
  set (w1 := {| net := zero_grad_net (net w); gen := gen w; trace := trace w ++ [EvZeroGrad] |}).
  destruct (train_loop_chain ct it (unsqueeze_last tg) (py_range 0 (length it))
              None (initHidden (net w)) (PyInt 0) w1) as (Hn & _).
  destruct (for_eachM _ _ _ w1) as [[[[o h1] loss]|e1] w2] eqn:Hloop; cbn [snd] in Hn.
  2:{ intros _. cbn [snd]. by rewrite Hn. }
  rewrite M_bind_eq.
  apply train_loop_locals in Hloop as [(_ & -> & ->)|[[o' ->] [v ->]]].
  { intros _. cbn. by rewrite Hn. }
  match goal with |- context [backward (Tensor0 v) ?g w2] =>
    destruct (backward_ok n_cat isz osz v g w2) as (ps & Hback & Hps6 & Hready);
      [rewrite Hn; exact (eq_trans (RNN_wf_zero_grad _ _ _ _) Hwf)|];
    rewrite Hback
  end.
  destruct (sgd_all_ok ps Hready) as [ps' Hsgd].
  set (w3 := {| net := with_parameters (net w2) ps; gen := gen w2;
                trace := trace w2 ++ [EvBackward v] |}).
  assert (Forall2 (λ p p', sgd_update p = Ok p') (parameters (net w3)) ps') as Hsgd3.
  { cbn [net w3]. by rewrite parameters_with_parameters. }
  rewrite bind_get_net, M_bind_eq, (sgd_loop_Ok w3 ps' Hsgd3). done.
Qed.
End MoreNetwork.

(** ** Further properties of sampling *)

Section MoreSampling.
Context `{SC : Scalar} `{LB : !Library} `{RG : !Rng} `{AG : !Autograd}.
Variable all_categories : list (list N).

(** X15: for a category that is not in [all_categories], [sample] raises
    [ValueError] before it touches the network: no forward call, no random
    draw. *)
Theorem sample_unknown_category (category start_letter : list N) (w : World) :
  category ∉ all_categories →
  sample all_categories category start_letter w = (Raise ValueError, w).
Proof.
  intros Hnot. unfold sample, categoryTensor.
  by rewrite bind_lift, (list_index_absent _ _ Hnot).
Qed.

(** X16: with the empty string as start, [sample] raises [IndexError] at
    [input[0]] in the first pass of its loop, before any forward call. *)
Theorem sample_empty_start (category : list N) (w : World) :
  category ∈ all_categories →
  sample all_categories category [] w = (Raise IndexError, w).
Proof.
  intros Hin. destruct (categoryTensor_ok all_categories category Hin) as (row & Hct & _).
  unfold sample. rewrite (bind_lift_Ok _ _ _ _ Hct). reflexivity.
Qed.

Lemma greedy_net (k : nat) (ct cur h : tensor2) (name : list N) (w : World) :
  net (greedy k ct cur h name w).2 = net w.
Proof.
  revert cur h name w. induction k as [|k IH]; intros cur h name w; [done|].
  cbn [greedy]. rewrite M_bind_eq.
  destruct (rnn_call_chain ct cur h w) as (Hn & _).
  destruct (rnn_call ct cur h w) as [[[o h1]|e] w1]; cbn [snd] in Hn; [|done].
  rewrite bind_lift. destruct (topk1 o) as [[topv topi]|e]; [|done].
  rewrite bind_lift. destruct (getitem topi 0 ≫= _) as [best|e]; [|done].
  case_bool_decide; [done|].
  destruct (all_letters !! best) as [letter|]; [|done].
  by rewrite IH.
Qed.

(** X17: sampling never changes the network, whatever the arguments and
    whether it returns or raises. *)
Theorem sample_keeps_network (category start_letter : list N) (w : World) :
  net (sample all_categories category start_letter w).2 = net w.
Proof.
  rewrite sample_greedy_eq. unfold sample_greedy.
  rewrite bind_lift. destruct (categoryTensor all_categories category) as [ct|e]; [|done].
  rewrite bind_lift. destruct (inputTensor start_letter ≫= _) as [cur|e]; [|done].
  rewrite bind_get_net. apply greedy_net.
Qed.

Lemma greedy_name (k : nat) (ct cur h : tensor2) (name : list N) (w : World) :
  greedy k ct cur h name w = with_prefix name (greedy k ct cur h [] w).
Proof.
  revert cur h name w. induction k as [|k IH]; intros cur h name w.
  { cbn. unfold with_prefix. cbn. by rewrite app_nil_r. }
  cbn [greedy]. rewrite !M_bind_eq.
  destruct (rnn_call ct cur h w) as [[[o h1]|e] w1]; [|done].
  rewrite !bind_lift. destruct (topk1 o) as [[topv topi]|e]; [|done].
  rewrite !bind_lift. destruct (getitem topi 0 ≫= _) as [best|e]; [|done].
  case_bool_decide.
  { unfold with_prefix. cbn. by rewrite app_nil_r. }
  destruct (all_letters !! best) as [letter|]; [|done].
  rewrite (IH _ _ (name ++ [letter])), (IH _ _ ([] ++ [letter])).
  unfold with_prefix. cbn [fst snd].
  destruct (greedy k ct [one_hot n_letters best] h1 [] w1).1; [|done].
  by rewrite <- !app_assoc.
Qed.

(** X18: of a start string with several characters only the first is fed
    to the network: the run is that of the one-character start, and the
    name is the whole start string followed by the same generated letters. *)
Theorem sample_reads_first_letter (category : list N) (c : N) (rest : list N) (w : World) :
  (sample all_categories category (c :: rest) w).2
  = (sample all_categories category [c] w).2
  ∧ (sample all_categories category (c :: rest) w).1
    = match (sample all_categories category [c] w).1 with
      | Ok name => Ok ((c :: rest) ++ drop 1 name)
      | Raise e => Raise e
      end.
Proof.
  rewrite !sample_greedy_eq. unfold sample_greedy. rewrite !bind_lift.
  destruct (categoryTensor all_categories category) as [ct|e]; [|done].
  rewrite !bind_lift, !inputTensor_eq. cbn [map]. rsimpl.
  change (getitem ([letter_row c] :: map (λ c0, [letter_row c0]) rest) 0)
    with (Ok (A := tensor2) [letter_row c]).
  change (getitem [[letter_row c]] 0) with (Ok (A := tensor2) [letter_row c]).
  cbn beta iota. rewrite !bind_get_net.
  rewrite (greedy_name _ _ _ _ (c :: rest)), (greedy_name _ _ _ _ [c]).
  unfold with_prefix. cbn [fst snd]. split; [done|].
  by destruct (greedy max_length ct [letter_row c] (initHidden (net w)) [] w).1.
Qed.

Lemma greedy_letters (k : nat) (ct cur h : tensor2) (w : World) (n : list N) :
  (greedy k ct cur h [] w).1 = Ok n →
  Forall (λ c, c ∈ all_letters) n ∧ length n ≤ k.
Proof.
  revert cur h w n. induction k as [|k IH]; intros cur h w n.
  { intros [= <-]. split; [constructor|done]. }
  cbn [greedy]. rewrite M_bind_eq.
  destruct (rnn_call ct cur h w) as [[[o h1]|e] w1]; [|done].
  rewrite bind_lift. destruct (topk1 o) as [[topv topi]|e]; [|done].
  rewrite bind_lift. destruct (getitem topi 0 ≫= _) as [best|e]; [|done].
  case_bool_decide.
  { intros [= <-]. split; [constructor|cbn; lia]. }
  destruct (all_letters !! best) as [letter|] eqn:Hl; [|done].
  rewrite greedy_name. unfold with_prefix. cbn [fst].
  destruct (greedy k ct [one_hot n_letters best] h1 [] w1).1 as [n'|e] eqn:Hn'; [|done].
  intros [= <-]. destruct (IH _ _ _ _ Hn') as [Hall Hlen]. split.
  - constructor; [by eapply list_elem_of_lookup_2|done].
  - cbn. lia.
Qed.

(** X19: whenever [sample] returns, the name is the start string followed
    by at most [max_length] characters, all of them letters of
    [all_letters]: the EOS marker never appears in a name. *)
Theorem sample_appends_letters (category start_letter : list N) (w : World) :
  match (sample all_categories category start_letter w).1 with
  | Ok name =>
      ∃ generated, name = start_letter ++ generated
        ∧ Forall (λ c, c ∈ all_letters) generated
        ∧ length generated ≤ max_length
  | Raise _ => True
  end.
Proof.
  rewrite sample_greedy_eq. unfold sample_greedy. rewrite bind_lift.
  destruct (categoryTensor all_categories category) as [ct|e]; [|done].
  rewrite bind_lift. destruct (inputTensor start_letter ≫= _) as [cur|e]; [|done].
  rewrite bind_get_net, greedy_name. unfold with_prefix. cbn [fst].
  destruct (greedy max_length ct cur (initHidden (net w)) [] w).1 as [n|e] eqn:Hn; [|done].
  exists n. split; [done|]. by eapply greedy_letters.
Qed.

(** With a well-shaped network and a known category, sampling from one
    letter returns and leaves the network as it was. *)
Lemma sample_ok (category : list N) (start : N) (w : World) :
  category ∈ all_categories →
  RNN_wf (n_categories all_categories) n_letters n_letters (net w) = true →
  ∃ rest w',
    sample all_categories category [start] w = (Ok (start :: rest), w')
    ∧ length rest ≤ max_length ∧ net w' = net w.
Proof.
  intros Hin Hwf.
  destruct (categoryTensor_ok all_categories category Hin) as (row & Hct & Hrow).
  destruct (greedy_ok _ max_length row (letter_row start)
              (replicate (hidden_size (net w)) s_zero) [start] w Hwf Hrow)
    as (rest & evs & w' & Hg & Hlen & Hk & Hnet & _).
  { apply length_letter_row. }
  { apply length_replicate. }
  exists rest, w'. split_and!; [|lia|done].
  rewrite sample_greedy_eq. unfold sample_greedy.
  rewrite (bind_lift_Ok _ _ _ _ Hct), bind_lift, inputTensor_eq. exact Hg.
Qed.
End MoreSampling.

(** ** The cells around the model *)

Lemma div_succ (n p : nat) :
  0 < p → S n / p = n / p + (if bool_decide (S n mod p = 0) then 1 else 0).
Proof.
  intros Hp.
  pose proof (Nat.div_mod_eq n p). pose proof (Nat.div_mod_eq (S n) p).
  pose proof (Nat.mod_upper_bound n p ltac:(lia)).
  pose proof (Nat.mod_upper_bound (S n) p ltac:(lia)).
  case_bool_decide; nia.
Qed.

(** The multiples of [p] among [1 .. n]. *)
Lemma count_multiples (p n : nat) :
  0 < p → length (filter (λ i, i mod p = 0) (seq 1 n)) = n / p.
Proof.
  intros Hp. induction n as [|n IH].
  { cbn. symmetry. by apply Nat.div_small. }
  rewrite seq_S, filter_app, length_app, IH, div_succ by done.
  cbn [Nat.add]. case_bool_decide.
  - by rewrite filter_cons_True.
  - by rewrite filter_cons_False.
Qed.

Lemma last_seq_1 (n : nat) : 0 < n → last (seq 1 n) = Some n.
Proof. destruct n; [lia|]. intros _. rewrite seq_S. apply last_snoc. Qed.

Section NotebookFacts.
Context `{SC : Scalar} `{LB : !Library} `{RG : !Rng} `{AG : !Autograd} `{PR : PyRandom} `{CO : !Console}.

Lemma NB_bind_eq {A B} (m : NB A) (f : A → NB B) (s : Notebook) :
  (m ≫= f) s = match m s with
               | (Returns a, s') => f a s'
               | (Raises e, s') => (Raises e, s')
               end.
Proof. reflexivity. Qed.

Lemma NB_bind_Returns {A B} (m : NB A) (f : A → NB B) (s s' : Notebook) (a : A) :
  m s = (Returns a, s') → (m ≫= f) s = f a s'.
Proof. intros Hm. by rewrite NB_bind_eq, Hm. Qed.

Lemma nb_lift_Ok {A} (r : result A) (a : A) (s : Notebook) :
  r = Ok a → nb_lift r s = (Returns a, s).
Proof. by intros ->. Qed.

Lemma py_mod_pos (a b : nat) : 0 < b → py_mod a b = mret (a mod b).
Proof. intros Hb. unfold py_mod. by rewrite bool_decide_eq_false_2 by lia. Qed.

Section RandomFacts.
Context `{PL : !PyRandomLaws}.

Lemma randomChoice_nonempty {A} (l : list A) (s : Notebook) :
  0 < length l →
  ∃ x s', randomChoice l s = (Returns x, s') ∧ x ∈ l
    ∧ nb_world s' = nb_world s ∧ nb_clock s' = nb_clock s
    ∧ nb_stdout s' = nb_stdout s.
Proof.
  intros Hl. unfold randomChoice. rewrite NB_bind_eq. unfold randint.
  rewrite bool_decide_eq_true_2 by lia.
  pose proof (randint_draw_range 0 (Z.of_nat (length l) - 1) (nb_random s)
                ltac:(lia)) as Hr.
  destruct (randint_draw _ _ _) as [n g]. cbn [fst] in Hr.
  destruct (lookup_lt_is_Some_2 l (Z.to_nat n)) as [x Hx]; [lia|].
  exists x. eexists. split_and!.
  - apply nb_lift_Ok. rewrite <- (Z2Nat.id n) by lia. by apply getitem_nat.
  - by eapply list_elem_of_lookup_2.
  - done.
  - done.
  - done.
Qed.

(** X20: [randomChoice] on the empty list raises [ValueError] (the range
    of [randint(0, -1)] is empty) and draws nothing; on a non-empty list
    it returns one of the elements of the list, and touches neither the
    network nor the output. *)
Theorem randomChoice_element {A} (l : list A) (s : Notebook) :
  match l with
  | [] => randomChoice l s = (Raises (Lib ValueError), s)
  | _ :: _ =>
      ∃ x s', randomChoice l s = (Returns x, s') ∧ x ∈ l
        ∧ nb_world s' = nb_world s ∧ nb_stdout s' = nb_stdout s
  end.
Proof.
  destruct l as [|a l]; [reflexivity|].
  destruct (randomChoice_nonempty (a :: l) s) as (x & s' & Hrun & Hx & Hw & _ & Ho).
  { cbn. lia. }
  by exists x, s'.
Qed.

Section Tables.
Variable all_categories : list (list N).
Variable category_lines : gmap (list N) (list (list N)).

Hypothesis some_category : 0 < length all_categories.
Hypothesis all_have_lines : ∀ category, category ∈ all_categories →
  ∃ lines, category_lines !! category = Some lines ∧ 0 < length lines.

Lemma randomTrainingPair_ok (s : Notebook) :
  ∃ category lines line s',
    randomTrainingPair all_categories category_lines s = (Returns (category, line), s')
    ∧ category ∈ all_categories
    ∧ category_lines !! category = Some lines ∧ line ∈ lines
    ∧ nb_world s' = nb_world s ∧ nb_clock s' = nb_clock s
    ∧ nb_stdout s' = nb_stdout s.
Proof.
  destruct (randomChoice_nonempty all_categories s some_category)
    as (category & s1 & Hc & Hin & Hw1 & Hk1 & Ho1).
  destruct (all_have_lines category Hin) as (lines & Hlines & Hne).
  destruct (randomChoice_nonempty lines s1 Hne) as (line & s2 & Hl & Hlin & Hw2 & Hk2 & Ho2).
  exists category, lines, line, s2. split_and!; try done; try congruence.
  unfold randomTrainingPair. rewrite (NB_bind_Returns _ _ _ _ _ Hc), Hlines.
  rewrite NB_bind_eq. cbn [mret NB_ret]. by rewrite (NB_bind_Returns _ _ _ _ _ Hl).
Qed.

Lemma randomTrainingExample_ok (s : Notebook) :
  ∃ category lines line row s',
    randomTrainingPair all_categories category_lines s = (Returns (category, line), s')
    ∧ randomTrainingExample all_categories category_lines s
      = (Returns ([row], map (λ c, [letter_row c]) line,
                  map (str_find all_letters) (tail line) ++ [Z.of_nat n_letters - 1]%Z), s')
    ∧ category ∈ all_categories
    ∧ category_lines !! category = Some lines ∧ line ∈ lines
    ∧ categoryTensor all_categories category = Ok [row]
    ∧ length row = n_categories all_categories
    ∧ nb_world s' = nb_world s ∧ nb_clock s' = nb_clock s
    ∧ nb_stdout s' = nb_stdout s.
Proof.
  destruct (randomTrainingPair_ok s)
    as (category & lines & line & s' & Hp & Hin & Hlines & Hlin & Hw & Hk & Ho).
  destruct (categoryTensor_ok all_categories category Hin) as (row & Hct & Hrow).
  exists category, lines, line, row, s'. split_and!; try done.
  unfold randomTrainingExample. rewrite (NB_bind_Returns _ _ _ _ _ Hp). cbn beta iota.
  rewrite (NB_bind_Returns _ _ _ _ _ (nb_lift_Ok _ _ _ Hct)).
  rewrite (NB_bind_Returns _ _ _ _ _ (nb_lift_Ok _ _ _ (inputTensor_eq line))).
  by rewrite (NB_bind_Returns _ _ _ _ _ (nb_lift_Ok _ _ _ (targetTensor_eq line))).
Qed.
End Tables.
End RandomFacts.
End NotebookFacts.

Section SamplesCell.
Context `{SC : Scalar} `{LB : !Library} `{RG : !Rng} `{AG : !Autograd} `{PR : PyRandom} `{CO : !Console}.
Variable all_categories : list (list N).

(** X21: for a known category and a well-shaped network, [samples] prints
    exactly one name per start letter, in order; each name begins with its
    start letter and has at most [max_length] more characters; the network
    is the same afterwards. *)
Theorem samples_prints_names (category start_letters : list N) (s : Notebook) :
  category ∈ all_categories →
  RNN_wf (n_categories all_categories) n_letters n_letters (net (nb_world s)) = true →
  ∃ names s',
    samples all_categories category start_letters s = (Returns Datatypes.tt, s')
    ∧ nb_stdout s' = nb_stdout s ++ names
    ∧ Forall2 (λ c name, ∃ rest, name = c :: rest ∧ length rest ≤ max_length)
        start_letters names
    ∧ net (nb_world s') = net (nb_world s).
Proof.
  intros Hin. revert s. induction start_letters as [|c cs IH]; intros s Hwf.
  { exists [], s. split_and!; [done|by rewrite app_nil_r|constructor|done]. }
  destruct (sample_ok all_categories category c (nb_world s) Hin Hwf)
    as (rest & w' & Hrun & Hlen & Hnet).
  set (s1 := {| nb_world := w'; nb_random := nb_random s; nb_clock := nb_clock s;
                nb_stdout := nb_stdout s ++ [c :: rest] |}).
  destruct (IH s1) as (names & s' & Hrest & Hout & Hall & Hnet').
  { cbn. by rewrite Hnet. }
  exists ((c :: rest) :: names), s'. split_and!.
  - unfold samples in *. cbn [for_eachNB]. rewrite !NB_bind_eq.
    unfold nb_run at 1. rewrite Hrun. cbn [outcome_of]. exact Hrest.
  - rewrite Hout. cbn. by rewrite <- app_assoc.
  - constructor; [by exists rest|done].
  - rewrite Hnet'. exact Hnet.
Qed.
End SamplesCell.

Section TrainingCell.
Context `{SC : Scalar} `{LB : !Library} `{RG : !Rng} `{AG : !Autograd} `{AL : !AutogradLaws}.

(** On the tensors of a non-empty line whose characters from the second on
    are letters, [train] returns. *)
Lemma train_returns (n_cat : nat) (rc : list scalar) (line : list N) (w : World) :
  RNN_wf n_cat n_letters n_letters (net w) = true →
  length rc = n_cat → 0 < length line →
  Forall (λ c, c ∈ all_letters) (tail line) →
  ∃ output loss w',
    train [rc] (map (λ c, [letter_row c]) line)
      (map (str_find all_letters) (tail line) ++ [Z.of_nat n_letters - 1]%Z) w
    = (Ok (output, loss), w').
Proof.
  intros Hwf Hrc Hne Hall.
  set (it := map (λ c, [letter_row c]) line).
  set (tg := map (str_find all_letters) (tail line) ++ [Z.of_nat n_letters - 1]%Z).
  assert (length it = length line) as Hlit by (unfold it; by rewrite length_map).
  assert (length tg = length line) as Hltg.
  { unfold tg. rewrite length_app, length_map. destruct line; [cbn in Hne; lia|]. cbn. lia. }
  assert (Forall (λ x, ∃ rx, x = [rx] ∧ length rx = n_letters) it) as Hit.
  { unfold it. apply Forall_fmap, Forall_true. intros c. cbn.
    exists (letter_row c). split; [done|]. apply length_letter_row. }
  assert (Forall (λ t, 0 ≤ t < Z.of_nat n_letters)%Z tg) as Htg.
  { unfold tg. apply Forall_app. split.
    - apply Forall_fmap. eapply Forall_impl; [exact Hall|]. intros c Hc. cbn.
      destruct (str_find_elem_of _ _ Hc) as (k & Hk & ->).
      apply lookup_lt_Some in Hk. rewrite length_all_letters in Hk.
      rewrite n_letters_eq. lia.
    - constructor; [|done]. rewrite n_letters_eq. lia. }
  set (w1 := {| net := zero_grad_net (net w); gen := gen w;
                trace := trace w ++ [EvZeroGrad] |}).
  destruct (train_loop_ok n_cat rc it tg (length it) 0 None
              (replicate (hidden_size (net w)) s_zero) (PyInt 0) w1)
    as (steps & o' & h' & w2 & Hloop & Hn2 & _ & Hlen & _ & Ho');
    [exact (eq_trans (RNN_wf_zero_grad _ _ _ _) Hwf)|done|by rewrite length_replicate
    |done|done|lia|lia|].
  assert (map ti_loss steps ≠ []) as Hsne.
  { destruct steps; [cbn in Hlen; lia|done]. }
  rewrite foldl_iadd_PyInt in Hloop by done.
  destruct (last steps) as [s_last|] eqn:Hlast.
  2:{ apply last_None in Hlast. by subst steps. }
  cbn in Ho'. subst o'.
  unfold train. rewrite bind_get_net, M_bind_eq, zero_grad_eq, M_bind_eq.
  unfold recording. unfold py_range at 1. rewrite Nat.sub_0_r.
  change (initHidden (net w)) with [replicate (hidden_size (net w)) s_zero].
  fold w1. rewrite Hloop. rewrite M_bind_eq.
  match goal with |- context [backward (Tensor0 ?total) ?g w2] =>
    destruct (backward_ok n_cat n_letters n_letters total g w2)
      as (ps & Hback & Hps6 & Hready);
      [rewrite Hn2; exact (eq_trans (RNN_wf_zero_grad _ _ _ _) Hwf)|];
    rewrite Hback;
    set (w3 := {| net := with_parameters (net w2) ps; gen := gen w2;
                  trace := trace w2 ++ [EvBackward total] |})
  end.
  destruct (sgd_all_ok ps Hready) as [ps' Hsgd].
  assert (Forall2 (λ p p', sgd_update p = Ok p') (parameters (net w3)) ps') as Hsgd3.
  { cbn [net w3]. by rewrite parameters_with_parameters. }
  rewrite bind_get_net, M_bind_eq, (sgd_loop_Ok w3 ps' Hsgd3).
  by eexists _, _, _.
Qed.
Lemma NLLLoss_negative_target (ro : list scalar) (t : Z) :
  (t < 0)%Z → NLLLoss [ro] [t] = Raise IndexError.
Proof.
  intros Ht. unfold NLLLoss. cbn [length zip zip_with mapM nll_term].
  rewrite bool_decide_eq_true_2 by done.
  by rewrite (bool_decide_eq_false_2 (0 ≤ t < _)%Z) by lia.
Qed.

(** The loop of [train] stops with [IndexError] at the first target that
    is [-1]. *)
Lemma train_loop_stops (n_cat : nat) (rc : list scalar) (it : tensor3) (tg : list Z)
    (k i : nat) (o0 : option tensor2) (rh : list scalar) (loss : py_num) (w : World) :
  RNN_wf n_cat n_letters n_letters (net w) = true →
  length rc = n_cat → length rh = hidden_size (net w) →
  Forall (λ x, ∃ rx, x = [rx] ∧ length rx = n_letters) it →
  Forall (λ t, t < Z.of_nat n_letters)%Z tg →
  i + k ≤ length it → i + k ≤ length tg →
  Exists (λ t, t < 0)%Z (take k (drop i tg)) →
  ∃ w', for_eachM (seq i k) (train_step [rc] it (unsqueeze_last tg)) (o0, [rh], loss) w
        = (Raise IndexError, w').
Proof.
  intros Hwf Hc Hh Hit Htg. revert i o0 rh loss w Hwf Hh.
  induction k as [|k IH]; intros i o0 rh loss w Hwf Hh Hi1 Hi2 Hbad.
  { rewrite take_0 in Hbad. by apply Exists_nil in Hbad. }
  destruct (lookup_lt_is_Some_2 it i) as [x Hx]; [lia|].
  destruct (Forall_lookup_1 _ _ _ _ Hit Hx) as (rx & -> & Hrx).
  destruct (lookup_lt_is_Some_2 tg i) as [t Ht]; [lia|].
  pose proof (Forall_lookup_1 _ _ _ _ Htg Ht) as Htr. cbn beta in Htr.
  destruct (rnn_call_ok _ _ _ rc rx rh w Hwf Hc Hrx Hh) as (ro & rh' & g' & Hcall & Hro & Hrh').
  assert (unsqueeze_last tg !! i = Some [t]) as Ht'.
  { unfold unsqueeze_last. by rewrite list_lookup_fmap, Ht. }
  cbn [seq for_eachM]. rewrite M_bind_eq. unfold train_step at 1.
  rewrite (bind_lift_Ok _ _ _ _ (getitem_nat _ _ _ Hx)).
  rewrite M_bind_eq, Hcall.
  rewrite (bind_lift_Ok _ _ _ _ (getitem_nat _ _ _ Ht')).
  rewrite M_bind_eq, criterion_eq.
  rewrite (drop_S _ _ _ Ht) in Hbad. cbn [take] in Hbad.
  destruct (decide (t < 0)%Z) as [Hneg|Hpos].
  { rewrite (NLLLoss_negative_target _ _ Hneg). by eexists. }
  apply Exists_cons in Hbad as [?|Hbad]; [done|].
  destruct (NLLLoss_one_row ro t) as [l Hl]; [rewrite Hro; lia|].
  rewrite Hl. cbn [mret M_ret].
  set (w1 := {| net := net w; gen := g';
                trace := (trace w ++ [EvForward [rc] [rx] [rh] [ro] [rh']])
                         ++ [EvCriterion [ro] [t] l] |}).
  apply (IH (S i) (Some [ro]) rh' (iadd loss l) w1); [done|done|lia|lia|done].
Qed.

(** X25: what [train] does on the tensors of a line is decided by the
    line.  On a well-shaped network it returns exactly when the line is
    not empty and its characters from the second on are in [all_letters];
    on the empty line it raises [AttributeError]; with a character outside
    [all_letters] after the first it raises [IndexError] (a target of
    [-1] reaches the loss). *)
Theorem train_outcome_by_line (all_categories : list (list N)) (category line : list N)
    (category_tensor : tensor2) (input_line_tensor : tensor3) (target_line_tensor : list Z)
    (w : World) :
  RNN_wf (n_categories all_categories) n_letters n_letters (net w) = true →
  categoryTensor all_categories category = Ok category_tensor →
  inputTensor line = Ok input_line_tensor →
  targetTensor line = Ok target_line_tensor →
  match (train category_tensor input_line_tensor target_line_tensor w).1 with
  | Ok _ => 0 < length line ∧ Forall (λ c, c ∈ all_letters) (tail line)
  | Raise e =>
      (line = [] ∧ e = AttributeError)
      ∨ (Exists (λ c, c ∉ all_letters) (tail line) ∧ e = IndexError)
  end.
Proof.
  intros Hwf Hct Hit Htg.
  rewrite inputTensor_eq in Hit. injection Hit as <-.
  rewrite targetTensor_eq in Htg. injection Htg as <-.
  destruct line as [|c line]; [by left|].
  assert (category ∈ all_categories) as Hin.
  { destruct (decide (category ∈ all_categories)) as [|Hnot]; [done|].
    unfold categoryTensor in Hct. by rewrite (list_index_absent _ _ Hnot) in Hct. }
  destruct (categoryTensor_ok all_categories category Hin) as (row & Hrow & Hlen).
  rewrite Hrow in Hct. injection Hct as <-.
  destruct (decide (Forall (λ c, c ∈ all_letters) (tail (c :: line)))) as [Hall|Hbad].
  { destruct (train_returns (n_categories all_categories) row (c :: line) w)
      as (output & loss & w' & Hrun); [done|done|cbn; lia|done|].
    rewrite Hrun. cbn [fst]. split; [cbn; lia|done]. }
  apply not_Forall_Exists in Hbad; [|intros ?; apply _].
  set (it := map (λ c, [letter_row c]) (c :: line)).
  set (tg := map (str_find all_letters) (tail (c :: line)) ++ [Z.of_nat n_letters - 1]%Z).
  assert (length it = S (length line)) as Hlit by (unfold it; by rewrite length_map).
  assert (length tg = S (length line)) as Hltg.
  { unfold tg. rewrite length_app, length_map. cbn. lia. }
  assert (Forall (λ x, ∃ rx, x = [rx] ∧ length rx = n_letters) it) as Hshape.
  { unfold it. apply Forall_fmap, Forall_true. intros c'. cbn.
    exists (letter_row c'). split; [done|]. apply length_letter_row. }
  assert (Forall (λ t, t < Z.of_nat n_letters)%Z tg) as Hrange.
  { unfold tg. apply Forall_app. split.
    - apply Forall_fmap, Forall_true. intros c'. cbn.
      pose proof (str_find_range all_letters c') as Hr.
      rewrite length_all_letters in Hr. rewrite n_letters_eq. lia.
    - constructor; [|done]. rewrite n_letters_eq. lia. }
  assert (Exists (λ t, t < 0)%Z (take (length it) (drop 0 tg))) as Hstop.
  { rewrite drop_0, take_ge by lia. unfold tg. apply Exists_app. left.
    apply Exists_fmap. eapply Exists_impl; [exact Hbad|].
    intros c' Hc'. cbn. rewrite (str_find_not_elem_of _ _ Hc'). lia. }
  set (w1 := {| net := zero_grad_net (net w); gen := gen w;
                trace := trace w ++ [EvZeroGrad] |}).
  destruct (train_loop_stops (n_categories all_categories) row it tg (length it) 0 None
              (replicate (hidden_size (net w)) s_zero) (PyInt 0) w1)
    as (w2 & Hloop);
    [exact (eq_trans (RNN_wf_zero_grad _ _ _ _) Hwf)|done|by rewrite length_replicate
    |done|done|lia|lia|done|].
  unfold train. rewrite bind_get_net, M_bind_eq, zero_grad_eq, M_bind_eq.
  unfold recording. unfold py_range at 1. rewrite Nat.sub_0_r.
  change (initHidden (net w)) with [replicate (hidden_size (net w)) s_zero].
  fold w1. rewrite Hloop. cbn [fst]. by right.
Qed.
End TrainingCell.

Lemma print_every_pos : 0 < print_every.
Proof. unfold print_every. lia. Qed.

Lemma plot_every_pos : 0 < plot_every.
Proof. unfold plot_every. lia. Qed.

Lemma n_iters_pos : 0 < n_iters.
Proof. unfold n_iters. lia. Qed.

Lemma n_iters_plotted : n_iters mod plot_every = 0.
Proof. by vm_compute. Qed.

Opaque n_iters print_every plot_every.

Section TrainingLoop.
Context `{SC : Scalar} `{LB : !Library} `{RG : !Rng} `{AG : !Autograd} `{AL : !AutogradLaws}.
Context `{PR : PyRandom} `{PL : !PyRandomLaws} `{CO : !Console}.
Variable all_categories : list (list N).
Variable category_lines : gmap (list N) (list (list N)).

Hypothesis some_category : 0 < length all_categories.
Hypothesis all_have_lines : ∀ category, category ∈ all_categories →
  ∃ lines, category_lines !! category = Some lines ∧ 0 < length lines.
Hypothesis lines_of_letters : ∀ category lines, category_lines !! category = Some lines →
  Forall (Forall (λ c, c ∈ all_letters)) lines.

Lemma timeSince_ok (since : scalar) (s : Notebook) :
  ∃ text s', timeSince since s = (Returns text, s')
    ∧ nb_world s' = nb_world s ∧ nb_stdout s' = nb_stdout s.
Proof.
  unfold timeSince. rewrite NB_bind_eq. unfold time_now.
  destruct (time_time (nb_clock s)) as [t c]. by eexists _, _.
Qed.

(** One pass of the loop, by the line that was drawn. *)
Lemma training_pass_cases (start : scalar) (iter : nat) (tl : scalar) (al : list scalar)
    (s : Notebook) :
  RNN_wf (n_categories all_categories) n_letters n_letters (net (nb_world s)) = true →
  ∃ category lines line s1,
    randomTrainingPair all_categories category_lines s = (Returns (category, line), s1)
    ∧ category ∈ all_categories
    ∧ category_lines !! category = Some lines ∧ line ∈ lines
    ∧ match line with
      | [] =>
          ∃ s', training_pass all_categories category_lines start iter (tl, al) s
                = (Raises (Lib AttributeError), s')
                ∧ nb_stdout s' = nb_stdout s
      | _ :: _ =>
          ∃ tl' al' printed s',
            training_pass all_categories category_lines start iter (tl, al) s
            = (Returns (tl', al'), s')
            ∧ RNN_wf (n_categories all_categories) n_letters n_letters
                (net (nb_world s')) = true
            ∧ length al'
              = length al + (if bool_decide (iter mod plot_every = 0) then 1 else 0)
            ∧ nb_stdout s' = nb_stdout s ++ printed
            ∧ length printed = (if bool_decide (iter mod print_every = 0) then 1 else 0)
            ∧ (iter mod plot_every = 0 → tl' = s_of_nat 0)
      end.
Proof.
  intros Hwf.
  destruct (randomTrainingExample_ok all_categories category_lines
              some_category all_have_lines s)
    as (category & lines & line & row & s1 & Hpair & Hex & Hin & Hlines & Hlin & _ & Hrow
        & Hw1 & _ & Ho1).
  exists category, lines, line, s1. split_and!; [done..|].
  pose proof (lines_of_letters category lines Hlines) as Hgood.
  rewrite Forall_forall in Hgood. specialize (Hgood line Hlin).
  destruct line as [|c line].
  { eexists. split.
    - unfold training_pass. rewrite (NB_bind_Returns _ _ _ _ _ Hex). cbn beta iota.
      rewrite NB_bind_eq. reflexivity.
    - exact Ho1. }
  destruct (train_returns (n_categories all_categories) row (c :: line) (nb_world s1))
    as (output & loss & w2 & Htrain);
    [by rewrite Hw1|done|cbn; lia|by inversion Hgood|].
  pose proof (train_wf (n_categories all_categories) n_letters n_letters [row]
                (map (λ c, [letter_row c]) (c :: line))
                (map (str_find all_letters) (tail (c :: line))
                 ++ [Z.of_nat n_letters - 1]%Z)
                (nb_world s1)) as Hwf2.
  rewrite Htrain in Hwf2. cbn [snd] in Hwf2. rewrite Hw1 in Hwf2. specialize (Hwf2 Hwf).
  unfold training_pass. rewrite (NB_bind_Returns _ _ _ _ _ Hex). cbn beta iota.
  rewrite NB_bind_eq. unfold nb_run at 1. rewrite Htrain. cbn [outcome_of]. cbn beta iota.
  set (s2 := {| nb_world := w2; nb_random := nb_random s1; nb_clock := nb_clock s1;
                nb_stdout := nb_stdout s1 |}).
  rewrite (py_mod_pos _ _ print_every_pos), (py_mod_pos _ _ plot_every_pos).
  rewrite NB_bind_eq. cbn [mret NB_ret]. cbn beta iota.
  rewrite NB_bind_eq.
  case_bool_decide as Hprint.
  - destruct (timeSince_ok start s2) as (text & s3 & Htime & Hw3 & Ho3).
    rewrite (NB_bind_Returns _ _ _ _ _ Htime). unfold print at 1. cbn beta iota.
    rewrite NB_bind_eq. cbn [mret NB_ret]. cbn beta iota.
    case_bool_decide as Hplot.
    + eexists _, _, [_], _. split_and!; [done|by cbn; rewrite Hw3|by rewrite length_app
        |by cbn; rewrite Ho3; cbn; rewrite Ho1|done|done].
    + eexists _, _, [_], _. split_and!; [done|by cbn; rewrite Hw3|lia
        |by cbn; rewrite Ho3; cbn; rewrite Ho1|done|done].
  - cbn [mret NB_ret]. cbn beta iota. rewrite NB_bind_eq. cbn [mret NB_ret]. cbn beta iota.
    case_bool_decide as Hplot.
    + eexists _, _, [], _. split_and!; [done|done|by rewrite length_app
        |by cbn; rewrite Ho1, app_nil_r|done|done].
    + eexists _, _, [], _. split_and!; [done|done|lia
        |by cbn; rewrite Ho1, app_nil_r|done|done].
Qed.

Hypothesis no_empty_line : ∀ category lines, category_lines !! category = Some lines →
  Forall (λ line, 0 < length line) lines.

Lemma training_passes_ok (start : scalar) (xs : list nat) (tl : scalar) (al : list scalar)
    (s : Notebook) :
  RNN_wf (n_categories all_categories) n_letters n_letters (net (nb_world s)) = true →
  ∃ tl' al' printed s',
    for_eachNB xs (training_pass all_categories category_lines start) (tl, al) s
    = (Returns (tl', al'), s')
    ∧ RNN_wf (n_categories all_categories) n_letters n_letters (net (nb_world s')) = true
    ∧ length al' = length al + length (filter (λ i, i mod plot_every = 0) xs)
    ∧ nb_stdout s' = nb_stdout s ++ printed
    ∧ length printed = length (filter (λ i, i mod print_every = 0) xs)
    ∧ (∀ i, last xs = Some i → i mod plot_every = 0 → tl' = s_of_nat 0).
Proof.
  revert tl al s. induction xs as [|x xs IH]; intros tl al s Hwf.
  { exists tl, al, [], s. split_and!; [done|done|by cbn|by rewrite app_nil_r|done|done]. }
  destruct (training_pass_cases start x tl al s Hwf)
    as (category & lines & line & s0 & _ & _ & Hlines & Hlin & Hpass).
  pose proof (no_empty_line category lines Hlines) as Hne.
  rewrite Forall_forall in Hne. specialize (Hne line Hlin).
  destruct line as [|c line]; [cbn in Hne; lia|].
  destruct Hpass as (tl1 & al1 & pr1 & s1 & Hpass & Hwf1 & Hal1 & Ho1 & Hpr1 & Htl1).
  destruct (IH tl1 al1 s1 Hwf1)
    as (tl2 & al2 & pr2 & s2 & Hrest & Hwf2 & Hal2 & Ho2 & Hpr2 & Htl2).
  exists tl2, al2, (pr1 ++ pr2), s2. split_and!.
  - cbn [for_eachNB]. by rewrite (NB_bind_Returns _ _ _ _ _ Hpass).
  - done.
  - rewrite Hal2, Hal1. destruct (decide (x mod plot_every = 0)) as [Hx|Hx].
    + rewrite bool_decide_eq_true_2, filter_cons_True by exact Hx. cbn [length]. lia.
    + rewrite bool_decide_eq_false_2, filter_cons_False by exact Hx. lia.
  - by rewrite Ho2, Ho1, app_assoc.
  - rewrite length_app, Hpr1, Hpr2. destruct (decide (x mod print_every = 0)) as [Hx|Hx].
    + by rewrite bool_decide_eq_true_2, filter_cons_True by exact Hx.
    + by rewrite bool_decide_eq_false_2, filter_cons_False by exact Hx.
  - intros i Hlast Hi. destruct xs as [|x' xs].
    + injection Hlast as ->. cbn in Hrest. injection Hrest as <- _ _. by apply Htl1.
    + by apply (Htl2 i).
Qed.

Lemma training_loop_ok (s : Notebook) :
  RNN_wf (n_categories all_categories) n_letters n_letters (net (nb_world s)) = true →
  ∃ all_losses printed s',
    training_loop all_categories category_lines s
    = (Returns (s_of_nat 0, all_losses), s')
    ∧ length all_losses = n_iters / plot_every
    ∧ nb_stdout s' = nb_stdout s ++ printed
    ∧ length printed = n_iters / print_every
    ∧ RNN_wf (n_categories all_categories) n_letters n_letters (net (nb_world s')) = true.
Proof.
  intros Hwf. unfold training_loop. rewrite NB_bind_eq. unfold time_now.
  destruct (time_time (nb_clock s)) as [start c].
  set (s0 := {| nb_world := nb_world s; nb_random := nb_random s; nb_clock := c;
                nb_stdout := nb_stdout s |}).
  destruct (training_passes_ok start (py_range 1 (n_iters + 1)) (s_of_nat 0) [] s0 Hwf)
    as (tl & al & printed & s' & Hrun & Hwf' & Hal & Ho & Hpr & Htl).
  unfold py_range in *. rewrite Nat.add_sub in *.
  rewrite (count_multiples _ _ plot_every_pos) in Hal.
  rewrite (count_multiples _ _ print_every_pos) in Hpr.
  rewrite (Htl n_iters) in Hrun.
  - exists al, printed, s'.
    split_and!; [exact Hrun|exact Hal|exact Ho|exact Hpr|exact Hwf'].
  - apply last_seq_1, n_iters_pos.
  - apply n_iters_plotted.
Qed.
End TrainingLoop.

Section LoadedData.
Context `{SC : Scalar} `{LB : !Library} `{RG : !Rng} `{AG : !Autograd} `{AL : !AutogradLaws}.
Context `{PR : PyRandom} `{PL : !PyRandomLaws} `{CO : !Console}.
Context `{UC : Unicode} `{FS : !FileSystem}.

(** What the cells after cell 2 rely on. *)
Lemma loaded_tables (category_lines : gmap (list N) (list (list N)))
    (all_categories : list (list N)) :
  load_data = Ok (category_lines, all_categories) →
  0 < length all_categories
  ∧ (∀ category, category ∈ all_categories →
       ∃ lines, category_lines !! category = Some lines ∧ 0 < length lines)
  ∧ (∀ category lines, category_lines !! category = Some lines →
       Forall (Forall (λ c, c ∈ all_letters)) lines).
Proof.
  intros (-> & -> & Hne & Hread)%load_data_Ok_inv.
  assert (∀ (category : list N) (lines : list (list N)),
            foldl (λ m f, <[category_of f := stored_lines f]> m)
              (∅ : gmap (list N) (list (list N))) (glob names_pattern)
              !! category = Some lines →
            0 < length lines ∧ Forall (Forall (λ c, c ∈ all_letters)) lines) as Hlines.
  { intros category lines Hl.
    apply foldl_insert_lookup_Some in Hl as [(f & Hf & _ & ->)|Hl].
    - rewrite Forall_forall in Hread. destruct (Hread f Hf) as [text Htext].
      by eapply stored_lines_facts.
    - by rewrite lookup_empty in Hl. }
  split_and!; [done|..].
  - intros category Hin.
    destruct (foldl_insert_lookup_is_Some (glob names_pattern) ∅ category Hin)
      as [lines Hl].
    exists lines. split; [done|]. by destruct (Hlines _ _ Hl).
  - intros category lines Hl. by destruct (Hlines _ _ Hl).
Qed.

(** X22: on the tables that cell 2 loaded, [randomTrainingExample] never
    raises: it returns the three tensors of a category of [all_categories]
    and of one of the lines read for that category, a line of letters
    only, and changes nothing but the generator of [random]. *)
Theorem randomTrainingExample_loaded (category_lines : gmap (list N) (list (list N)))
    (all_categories : list (list N)) (s : Notebook) :
  load_data = Ok (category_lines, all_categories) →
  ∃ category lines line category_tensor input_line_tensor target_line_tensor s',
    randomTrainingExample all_categories category_lines s
    = (Returns (category_tensor, input_line_tensor, target_line_tensor), s')
    ∧ category ∈ all_categories
    ∧ category_lines !! category = Some lines ∧ line ∈ lines
    ∧ Forall (λ c, c ∈ all_letters) line
    ∧ categoryTensor all_categories category = Ok category_tensor
    ∧ inputTensor line = Ok input_line_tensor
    ∧ targetTensor line = Ok target_line_tensor
    ∧ nb_world s' = nb_world s ∧ nb_clock s' = nb_clock s
    ∧ nb_stdout s' = nb_stdout s.
Proof.
  intros (Hne & Hlines & Hletters)%loaded_tables.
  destruct (randomTrainingExample_ok all_categories category_lines Hne Hlines s)
    as (category & lines & line & row & s' & _ & Hex & Hin & Hl & Hlin & Hct & _
        & Hw & Hk & Ho).
  exists category, lines, line. eexists _, _, _, s'.
  split_and!; [exact Hex|done|done|done| |done|apply inputTensor_eq
               |apply targetTensor_eq|done|done|done].
  pose proof (Hletters category lines Hl) as Hall. rewrite Forall_forall in Hall.
  by apply Hall.
Qed.

(** X23: when cell 2 loaded the data and no line read is empty, cell 16
    runs to its end: it builds the network, goes through its [n_iters]
    passes without an exception, leaves [total_loss] at 0, has appended
    200 averages to [all_losses] and printed 20 progress lines, and the
    network still has the shapes it was built with. *)
Theorem training_cell_runs (category_lines : gmap (list N) (list (list N)))
    (all_categories : list (list N)) (s : Notebook) :
  load_data = Ok (category_lines, all_categories) →
  (∀ category lines, category_lines !! category = Some lines →
     Forall (λ line, 0 < length line) lines) →
  ∃ all_losses printed s',
    training_cell all_categories category_lines s
    = (Returns (s_of_nat 0, all_losses), s')
    ∧ length all_losses = 200
    ∧ nb_stdout s' = nb_stdout s ++ printed
    ∧ length printed = 20
    ∧ RNN_wf (n_categories all_categories) n_letters n_letters (net (nb_world s')) = true.
Proof.
  intros (Hne & Hlines & Hletters)%loaded_tables Hfull.
  unfold training_cell. rewrite NB_bind_eq. unfold build_rnn.
  pose proof (rnn_init_wf (n_categories all_categories) (gen (nb_world s))) as Hwf.
  destruct (rnn_init _ _) as [r g]. cbn [fst] in Hwf.
  destruct (training_loop_ok all_categories category_lines Hne Hlines Hletters Hfull
              {| nb_world := {| net := r; gen := g; trace := trace (nb_world s) |};
                 nb_random := nb_random s; nb_clock := nb_clock s;
                 nb_stdout := nb_stdout s |} Hwf)
    as (all_losses & printed & s' & Hrun & Hal & Ho & Hpr & Hwf').
  exists all_losses, printed, s'. split_and!; [done| |done| |done].
  - rewrite Hal. by vm_compute.
  - rewrite Hpr. by vm_compute.
Qed.

(** X24: on loaded data and a well-shaped network, a pass of the training
    loop can fail in one way only.  When the line drawn is empty, [train]
    raises [AttributeError] and nothing is printed; for every other line
    the pass returns. *)
Theorem training_pass_outcome (category_lines : gmap (list N) (list (list N)))
    (all_categories : list (list N)) (start : scalar) (iter : nat)
    (total_loss : scalar) (all_losses : list scalar) (s : Notebook) :
  load_data = Ok (category_lines, all_categories) →
  RNN_wf (n_categories all_categories) n_letters n_letters (net (nb_world s)) = true →
  ∃ category line s1,
    randomTrainingPair all_categories category_lines s = (Returns (category, line), s1)
    ∧ match line with
      | [] =>
          ∃ s', training_pass all_categories category_lines start iter
                  (total_loss, all_losses) s
                = (Raises (Lib AttributeError), s')
                ∧ nb_stdout s' = nb_stdout s
      | _ :: _ =>
          ∃ globals s', training_pass all_categories category_lines start iter
                          (total_loss, all_losses) s
                        = (Returns globals, s')
      end.
Proof.
  intros (Hne & Hlines & Hletters)%loaded_tables Hwf.
  destruct (training_pass_cases all_categories category_lines Hne Hlines Hletters
              start iter total_loss all_losses s Hwf)
    as (category & lines & line & s1 & Hpair & _ & _ & _ & Hcase).
  exists category, line, s1. split; [done|].
  destruct line as [|c line]; [done|].
  destruct Hcase as (tl' & al' & printed & s' & Hrun & _). by exists (tl', al'), s'.
Qed.
End LoadedData.

(** ** The instances satisfy the laws *)

Import Demo.

Lemma all_letters_below_128 (c : N) : c ∈ all_letters → (c < 128)%N.
Proof.
  revert c. apply Forall_forall. apply (bool_decide_unpack _). by vm_compute.
Qed.

Lemma small_unicode_laws : @UnicodeLaws Demo.small_unicode.
Proof.
  split.
  - intros s Hs. cbn. induction Hs as [|c s Hc Hs IH]; [done|].
    cbn [map concat]. rewrite IH. apply all_letters_below_128 in Hc.
    unfold Demo.nfd_char. rewrite !bool_decide_eq_false_2 by lia. done.
  - intros c Hc%all_letters_below_128. cbn. apply bool_decide_eq_false_2. lia.
Qed.

Lemma two_files_laws : @FileSystemLaws Demo.two_files.
Proof.
  split.
  - apply (bool_decide_unpack _). by vm_compute.
  - intros p. cbn. rewrite bool_decide_eq_true_2 by done.
    intros [->|[->|[]%elem_of_nil]%elem_of_cons]%elem_of_cons.
    + exists (str_of "Irish"). split_and!; [by vm_compute|..|done|done].
      apply (bool_decide_unpack _). by vm_compute.
    + exists (str_of "French"). split_and!; [by vm_compute|..|done|done].
      apply (bool_decide_unpack _). by vm_compute.
Qed.

Lemma fx_scalar_laws : @ScalarLaws Demo.fx_scalar.
Proof.
  split. intros x a b. cbn. unfold Demo.fx_mul.
  rewrite Z.mul_opp_l, Z.quot_opp_l by done. lia.
Qed.

Lemma const_autograd_laws : @AutogradLaws Demo.fx_scalar Demo.const_autograd.
Proof.
  split. intros f θ. cbn. rewrite <- list_fmap_compose.
  apply list_fmap_ext. intros _ t _. cbn. unfold shape2.
  rewrite <- list_fmap_compose. apply list_fmap_ext. intros _ r _. cbn.
  by rewrite length_map.
Qed.

Lemma french_in_categories : Demo.french ∈ Demo.categories.
Proof. apply (bool_decide_unpack _). by vm_compute. Qed.

Lemma small_rnn_wf :
  RNN_wf (n_categories Demo.categories) n_letters n_letters (net Demo.world0) = true.
Proof. apply RNN_init_wf. Qed.

Lemma load_data_no_files :
  @load_data small_unicode no_files = Raise (RuntimeError data_not_found).
Proof. reflexivity. Qed.

Lemma fx_scalar_order : @ScalarOrder Demo.fx_scalar.
Proof.
  split.
  - intros x. apply Z.ltb_irrefl.
  - intros x y z. cbn. rewrite !Z.ltb_lt. lia.
Qed.


Lemma directory_entry_laws : @FileSystemLaws Demo.directory_entry.
Proof.
  split.
  - apply (bool_decide_unpack _). by vm_compute.
  - intros p. cbn. rewrite bool_decide_eq_true_2 by done.
    intros [->|[]%elem_of_nil]%elem_of_cons.
    exists (str_of "Dir"). split_and!; [by vm_compute|..|done|done].
    apply (bool_decide_unpack _). by vm_compute.
Qed.

(** ** The theorems at work on the example data *)

Lemma categoryTensor_one_hot_witness :
  Demo.french ∈ Demo.categories
  ∧ ∃ li row,
      categoryTensor (H := Demo.fx_scalar) Demo.categories Demo.french = Ok [row]
      ∧ Demo.categories !! li = Some Demo.french
      ∧ (∀ j, j < li → Demo.categories !! j ≠ Some Demo.french)
      ∧ one_hot_at row (n_categories Demo.categories) li.
Proof.
  split; [exact french_in_categories|].
  exact (categoryTensor_one_hot Demo.categories Demo.french french_in_categories).
Defined.

Lemma inputTensor_one_hot_witness :
  Forall (λ c, c ∈ all_letters) Demo.abel
  ∧ inputTensor_spec (H := Demo.fx_scalar) Demo.abel.
Proof.
  assert (Forall (λ c, c ∈ all_letters) Demo.abel) as Hall.
  { apply (bool_decide_unpack _). by vm_compute. }
  split; [exact Hall|]. exact (inputTensor_one_hot Demo.abel Hall).
Defined.

(** [inputTensor("1")] puts its one into the last slot, the one of EOS;
    no index of [all_letters] holds the digit. *)
Lemma inputTensor_digit_cex :
  inputTensor (H := Demo.fx_scalar) (str_of "1") = Ok [[one_hot n_letters (n_letters - 1)]]
  ∧ ¬ inputTensor_spec (H := Demo.fx_scalar) (str_of "1").
Proof.
  split; [by vm_compute|].
  intros (t & _ & _ & Hrows).
  destruct (Hrows 0 49%N eq_refl) as (row & k & _ & Hk & _).
  apply list_elem_of_lookup_2 in Hk. revert Hk.
  apply (bool_decide_unpack _). by vm_compute.
Qed.

Lemma targetTensor_shifted_with_EOS_witness :
  Demo.abel ≠ [] ∧ Forall (λ c, c ∈ all_letters) (tail Demo.abel)
  ∧ targetTensor_spec Demo.abel.
Proof.
  assert (Forall (λ c, c ∈ all_letters) (tail Demo.abel)) as Hall.
  { apply (bool_decide_unpack _). by vm_compute. }
  assert (Demo.abel ≠ []) as Hne by done.
  split_and!; [exact Hne|exact Hall|].
  exact (targetTensor_shifted_with_EOS Demo.abel Hne Hall).
Defined.

(** [targetTensor("a1")] holds [-1], which is no index of [all_letters]. *)
Lemma targetTensor_digit_cex :
  targetTensor (str_of "a1") = Ok [-1; 58]%Z ∧ ¬ targetTensor_spec (str_of "a1").
Proof.
  split; [by vm_compute|].
  intros (t & _ & _ & Hrows & _).
  destruct (Hrows 0 ltac:(cbn; lia)) as (c & k & Hc & Hk & _).
  injection Hc as <-.
  apply list_elem_of_lookup_2 in Hk. revert Hk.
  apply (bool_decide_unpack _). by vm_compute.
Qed.

Lemma unicodeToAscii_letters_idempotent_witness :
  unicodeToAscii (H := Demo.small_unicode) Demo.oneal = str_of "O'Neal"
  ∧ Forall (λ c, c ∈ all_letters) (unicodeToAscii (H := Demo.small_unicode) Demo.oneal)
  ∧ unicodeToAscii (H := Demo.small_unicode)
      (unicodeToAscii (H := Demo.small_unicode) Demo.oneal)
    = unicodeToAscii (H := Demo.small_unicode) Demo.oneal.
Proof.
  split; [by vm_compute|].
  exact (@unicodeToAscii_letters_idempotent Demo.small_unicode small_unicode_laws
           Demo.oneal).
Defined.



Lemma sample_is_greedy_witness :
  ∃ category_tensor x steps letters w',
    categoryTensor Demo.categories Demo.french = Ok category_tensor
    ∧ inputTensor [65%N] = Ok [[x]]
    ∧ one_hot_at x n_letters (letter_slot 65%N)
    ∧ (65%N ∈ all_letters → all_letters !! letter_slot 65%N = Some 65%N)
    ∧ sample Demo.categories Demo.french [65%N] Demo.world0
      = (Ok (65%N :: letters), w')
    ∧ trace w' = trace Demo.world0 ++ map (sample_iter_event category_tensor) steps
    ∧ 1 ≤ length steps ≤ max_length
    ∧ greedy_passes max_length x (replicate (hidden_size (net Demo.world0)) s_zero)
        steps letters.
Proof.
  exact (sample_is_greedy (SO := fx_scalar_order) Demo.categories Demo.french 65%N
           Demo.world0 french_in_categories small_rnn_wf).
Defined.

Lemma hidden_state_threaded_witness :
  (∃ category_tensor input_line_tensor target_line_tensor steps v,
     categoryTensor Demo.categories Demo.french = Ok category_tensor
     ∧ inputTensor Demo.abel = Ok input_line_tensor
     ∧ targetTensor Demo.abel = Ok target_line_tensor
     ∧ trace (train category_tensor input_line_tensor target_line_tensor Demo.world0).2
       = trace Demo.world0 ++ [EvZeroGrad]
         ++ concat (map (train_iter_events category_tensor) steps)
         ++ [EvBackward v]
     ∧ length steps = length input_line_tensor
     ∧ length steps = length Demo.abel
     ∧ (∀ i s, steps !! i = Some s → input_line_tensor !! i = Some (ti_input s))
     ∧ hidden_threaded (net Demo.world0) category_tensor (initHidden (net Demo.world0))
         (map train_call steps))
  ∧ (∃ category_tensor x steps letters,
       categoryTensor Demo.categories Demo.french = Ok category_tensor
       ∧ inputTensor [65%N] = Ok [[x]]
       ∧ trace (sample Demo.categories Demo.french [65%N] Demo.world0).2
         = trace Demo.world0 ++ map (sample_iter_event category_tensor) steps
       ∧ 1 ≤ length steps ≤ max_length
       ∧ loop_passes topk_reports max_length x
           (replicate (hidden_size (net Demo.world0)) s_zero) steps letters
       ∧ hidden_threaded (net Demo.world0) category_tensor (initHidden (net Demo.world0))
           (map sample_call steps)).
Proof.
  destruct (hidden_state_threaded (AL := const_autograd_laws) Demo.categories Demo.french
              Demo.abel 65%N Demo.world0 french_in_categories)
    as (_ & _ & Htrain & Hsample & _); [done| |exact small_rnn_wf|by split].
  apply (bool_decide_unpack _). by vm_compute.
Defined.

Lemma sample_terminates_bounded_witness :
  ∃ rest evs w',
    sample Demo.categories Demo.french [65%N] Demo.world0 = (Ok (65%N :: rest), w')
    ∧ 1 ≤ length (65%N :: rest) ≤ max_length + 1
    ∧ trace w' = trace Demo.world0 ++ evs
    ∧ forallb is_forward evs = true
    ∧ length evs ≤ max_length
    ∧ max_length = 20.
Proof.
  exact (sample_terminates_bounded Demo.categories Demo.french 65%N Demo.world0
           french_in_categories small_rnn_wf).
Defined.

Lemma train_one_step_per_character_witness :
  train_spec Demo.categories Demo.french Demo.abel Demo.world0.
Proof.
  apply (@train_one_step_per_character _ _ _ _ const_autograd_laws).
  - exact french_in_categories.
  - done.
  - apply (bool_decide_unpack _). by vm_compute.
  - exact small_rnn_wf.
Defined.

(** On the line ["a1"] the first loss term has target [-1]: [NLLLoss]
    raises, and [train] with it. *)
Lemma train_digit_cex :
  (train Demo.french_tensor (Demo.unwrap [] (inputTensor (str_of "a1")))
     (Demo.unwrap [] (targetTensor (str_of "a1"))) Demo.world0).1 = Raise IndexError
  ∧ ¬ train_spec Demo.categories Demo.french (str_of "a1") Demo.world0.
Proof.
  assert ((train Demo.french_tensor (Demo.unwrap [] (inputTensor (str_of "a1")))
             (Demo.unwrap [] (targetTensor (str_of "a1"))) Demo.world0).1
          = Raise IndexError) as Hfail by (by vm_compute).
  split; [exact Hfail|].
  intros (ct & it & tg & steps & o & w' & Hct & Hit & Htg & _ & _ & _ & _ & Hrun & _).
  assert (ct = Demo.french_tensor) as ->.
  { unfold Demo.french_tensor. by rewrite Hct. }
  assert (it = Demo.unwrap [] (inputTensor (str_of "a1"))) as -> by (by rewrite Hit).
  assert (tg = Demo.unwrap [] (targetTensor (str_of "a1"))) as -> by (by rewrite Htg).
  rewrite Hrun in Hfail. discriminate Hfail.
Qed.

Lemma train_gradient_descent_witness :
  ∃ r w',
    train Demo.french_tensor Demo.abel_input Demo.abel_target Demo.world0 = (Ok r, w')
    ∧ Forall2 gradient_step (parameters (net Demo.world0)) (parameters (net w')).
Proof.
  destruct (train Demo.french_tensor Demo.abel_input Demo.abel_target Demo.world0)
    as [[r|e] w'] eqn:Hrun.
  - exists r, w'. split; [done|].
    exact (proj2 (@train_gradient_descent _ _ _ _ fx_scalar_laws _ _ _ _ _ _ Hrun)).
  - exfalso. apply (f_equal fst) in Hrun. vm_compute in Hrun. discriminate Hrun.
Defined.

(** ** The further properties on the example data *)

Import DemoCells.

Lemma lcg_random_laws : @PyRandomLaws DemoCells.lcg_random.
Proof.
  split. intros a b g Hab. cbn.
  pose proof (Z.mod_pos_bound (Z.of_N (g / 65536)) (b - a + 1) ltac:(lia)). lia.
Qed.

Lemma blank_file_laws : @FileSystemLaws DemoCells.blank_file.
Proof.
  split.
  - apply (bool_decide_unpack _). by vm_compute.
  - intros p. cbn. rewrite bool_decide_eq_true_2 by done.
    intros [->|[]%elem_of_nil]%elem_of_cons.
    exists (str_of "Blank"). split_and!; [by vm_compute|..|done|done].
    apply (bool_decide_unpack _). by vm_compute.
Qed.

Lemma german_not_in_categories : str_of "German" ∉ Demo.categories.
Proof. apply (bool_decide_unpack _). by vm_compute. Qed.

Lemma tables_loaded :
  @load_data small_unicode two_files = Ok (DemoCells.tables.1, DemoCells.tables.2).
Proof. by vm_compute. Qed.

Lemma blank_tables_loaded :
  @load_data small_unicode DemoCells.blank_file
  = Ok (DemoCells.blank_tables.1, DemoCells.blank_tables.2).
Proof. by vm_compute. Qed.

Lemma tables_no_empty_line (category : list N) (lines : list (list N)) :
  DemoCells.tables.1 !! category = Some lines → Forall (λ line, 0 < length line) lines.
Proof.
  revert category lines.
  change (map_Forall (λ _ lines, Forall (λ line : list N, 0 < length line) lines)
            DemoCells.tables.1).
  apply (bool_decide_unpack _). by vm_compute.
Qed.

Lemma blank_notebook_wf :
  RNN_wf (n_categories DemoCells.blank_tables.2) n_letters n_letters
    (net (nb_world DemoCells.blank_notebook)) = true.
Proof. apply (RNN_init_wf 1). Qed.

Lemma categoryTensor_unknown_witness :
  categoryTensor (H := Demo.fx_scalar) Demo.categories (str_of "German") = Raise ValueError.
Proof.
  exact (categoryTensor_unknown Demo.categories (str_of "German") german_not_in_categories).
Defined.

Lemma unicodeToAscii_fixes_letters_witness :
  unicodeToAscii (H := Demo.small_unicode) Demo.abel = Demo.abel.
Proof.
  apply (unicodeToAscii_fixes_letters (UL := small_unicode_laws)).
  apply (bool_decide_unpack _). by vm_compute.
Defined.

Lemma readLines_blank_file_witness :
  @readLines Demo.small_unicode DemoCells.blank_file DemoCells.blank_txt = Ok [[]].
Proof.
  apply (readLines_blank_file (UL := small_unicode_laws) (FS := DemoCells.blank_file)
           DemoCells.blank_txt [32; 10; 9]%N); [reflexivity|].
  apply (bool_decide_unpack _). by vm_compute.
Defined.

Lemma category_of_data_file_witness :
  basename (names_dir ++ Demo.french ++ txt_ext) = Demo.french ++ txt_ext
  ∧ splitext (Demo.french ++ txt_ext) = (Demo.french, txt_ext)
  ∧ category_of (names_dir ++ Demo.french ++ txt_ext) = Demo.french.
Proof.
  apply (category_of_data_file Demo.french).
  - apply (bool_decide_unpack _). by vm_compute.
  - discriminate.
  - discriminate.
Defined.

Lemma load_data_tables_witness :
  DemoCells.tables.2 = map category_of (@findFiles Demo.two_files names_pattern)
  ∧ NoDup DemoCells.tables.2
  ∧ (∀ category, category ∈ DemoCells.tables.2
                 ↔ is_Some (DemoCells.tables.1 !! category))
  ∧ ∀ category lines, DemoCells.tables.1 !! category = Some lines →
      0 < length lines ∧ Forall (Forall (λ c, c ∈ all_letters)) lines.
Proof.
  exact (load_data_tables (FL := two_files_laws)
           DemoCells.tables.1 DemoCells.tables.2 tables_loaded).
Defined.

Lemma forward_width_check_witness :
  ∃ ro rh' g',
    forward (net Demo.world0) [replicate 2 s_zero] [replicate n_letters s_zero]
      [replicate 3 s_zero] Demo.world0
    = (Ok ([ro], [rh']),
       {| net := net Demo.world0; gen := g'; trace := trace Demo.world0 |})
    ∧ length ro = n_letters ∧ length rh' = hidden_size (net Demo.world0).
Proof.
  pose proof (forward_width_check (n_categories Demo.categories) n_letters n_letters
                (net Demo.world0) (replicate 2 s_zero) (replicate n_letters s_zero)
                (replicate 3 s_zero) Demo.world0 small_rnn_wf) as Hf.
  rewrite bool_decide_eq_true_2 in Hf; [exact Hf|].
  rewrite !length_replicate. reflexivity.
Defined.

Lemma train_keeps_network_shape_witness :
  RNN_wf (n_categories Demo.categories) n_letters n_letters
    (net (train Demo.french_tensor Demo.abel_input Demo.abel_target Demo.world0).2) = true
  ∧ same_frame (net Demo.world0)
      (net (train Demo.french_tensor Demo.abel_input Demo.abel_target Demo.world0).2).
Proof.
  exact (train_keeps_network_shape (n_categories Demo.categories) n_letters n_letters
           Demo.french_tensor Demo.abel_input Demo.abel_target Demo.world0 small_rnn_wf).
Defined.

Lemma train_failure_keeps_values_witness :
  (train Demo.french_tensor [] Demo.abel_target Demo.world0).1 = Raise AttributeError
  ∧ map data (parameters
                (net (train Demo.french_tensor [] Demo.abel_target Demo.world0).2))
    = map data (parameters (net Demo.world0)).
Proof.
  split; [reflexivity|].
  apply (train_failure_keeps_values (AL := const_autograd_laws)
           (n_categories Demo.categories) n_letters n_letters
           Demo.french_tensor [] Demo.abel_target Demo.world0 AttributeError small_rnn_wf).
  reflexivity.
Defined.

Lemma sample_unknown_category_witness :
  sample Demo.categories (str_of "German") [65%N] Demo.world0
  = (Raise ValueError, Demo.world0).
Proof.
  exact (sample_unknown_category Demo.categories (str_of "German") [65%N] Demo.world0
           german_not_in_categories).
Defined.

Lemma sample_empty_start_witness :
  sample Demo.categories Demo.french [] Demo.world0 = (Raise IndexError, Demo.world0).
Proof.
  exact (sample_empty_start Demo.categories Demo.french Demo.world0 french_in_categories).
Defined.

Lemma randomChoice_element_witness :
  ∃ x s', randomChoice Demo.categories DemoCells.notebook0 = (Returns x, s')
    ∧ x ∈ Demo.categories
    ∧ nb_world s' = nb_world DemoCells.notebook0
    ∧ nb_stdout s' = nb_stdout DemoCells.notebook0.
Proof.
  exact (randomChoice_element (PL := lcg_random_laws) Demo.categories DemoCells.notebook0).
Defined.

Lemma samples_prints_names_witness :
  ∃ names s',
    samples Demo.categories Demo.french (str_of "FRE") DemoCells.notebook0
    = (Returns Datatypes.tt, s')
    ∧ nb_stdout s' = nb_stdout DemoCells.notebook0 ++ names
    ∧ Forall2 (λ c name, ∃ rest, name = c :: rest ∧ length rest ≤ max_length)
        (str_of "FRE") names
    ∧ net (nb_world s') = net (nb_world DemoCells.notebook0).
Proof.
  exact (samples_prints_names Demo.categories Demo.french (str_of "FRE")
           DemoCells.notebook0 french_in_categories small_rnn_wf).
Defined.

Lemma randomTrainingExample_loaded_witness :
  ∃ category lines line category_tensor input_line_tensor target_line_tensor s',
    randomTrainingExample DemoCells.tables.2 DemoCells.tables.1 DemoCells.notebook0
    = (Returns (category_tensor, input_line_tensor, target_line_tensor), s')
    ∧ category ∈ DemoCells.tables.2
    ∧ DemoCells.tables.1 !! category = Some lines ∧ line ∈ lines
    ∧ Forall (λ c, c ∈ all_letters) line
    ∧ categoryTensor DemoCells.tables.2 category = Ok category_tensor
    ∧ inputTensor line = Ok input_line_tensor
    ∧ targetTensor line = Ok target_line_tensor
    ∧ nb_world s' = nb_world DemoCells.notebook0
    ∧ nb_clock s' = nb_clock DemoCells.notebook0
    ∧ nb_stdout s' = nb_stdout DemoCells.notebook0.
Proof.
  exact (randomTrainingExample_loaded (PL := lcg_random_laws)
           DemoCells.tables.1 DemoCells.tables.2 DemoCells.notebook0 tables_loaded).
Defined.

Lemma training_cell_runs_witness :
  ∃ all_losses printed s',
    training_cell DemoCells.tables.2 DemoCells.tables.1 DemoCells.notebook0
    = (Returns (s_of_nat 0, all_losses), s')
    ∧ length all_losses = 200
    ∧ nb_stdout s' = nb_stdout DemoCells.notebook0 ++ printed
    ∧ length printed = 20
    ∧ RNN_wf (n_categories DemoCells.tables.2) n_letters n_letters
        (net (nb_world s')) = true.
Proof.
  exact (training_cell_runs (AL := const_autograd_laws) (PL := lcg_random_laws)
           DemoCells.tables.1 DemoCells.tables.2 DemoCells.notebook0 tables_loaded
           tables_no_empty_line).
Defined.

Lemma training_pass_outcome_witness :
  ∃ category line s1,
    randomTrainingPair DemoCells.blank_tables.2 DemoCells.blank_tables.1
      DemoCells.blank_notebook
    = (Returns (category, line), s1)
    ∧ match line with
      | [] =>
          ∃ s', training_pass DemoCells.blank_tables.2 DemoCells.blank_tables.1 0%Z 1
                  (s_of_nat 0, []) DemoCells.blank_notebook
                = (Raises (Lib AttributeError), s')
                ∧ nb_stdout s' = nb_stdout DemoCells.blank_notebook
      | _ :: _ =>
          ∃ globals s', training_pass DemoCells.blank_tables.2 DemoCells.blank_tables.1
                          0%Z 1 (s_of_nat 0, []) DemoCells.blank_notebook
                        = (Returns globals, s')
      end.
Proof.
  exact (training_pass_outcome (AL := const_autograd_laws) (PL := lcg_random_laws)
           (FS := DemoCells.blank_file)
           DemoCells.blank_tables.1 DemoCells.blank_tables.2
           0%Z 1 (s_of_nat 0) [] DemoCells.blank_notebook blank_tables_loaded
           blank_notebook_wf).
Defined.

Lemma train_outcome_by_line_witness :
  match (train Demo.french_tensor Demo.abel_input Demo.abel_target Demo.world0).1 with
  | Ok _ => 0 < length Demo.abel ∧ Forall (λ c, c ∈ all_letters) (tail Demo.abel)
  | Raise e =>
      (Demo.abel = [] ∧ e = AttributeError)
      ∨ (Exists (λ c, c ∉ all_letters) (tail Demo.abel) ∧ e = IndexError)
  end.
Proof.
  apply (train_outcome_by_line (AL := const_autograd_laws) Demo.categories Demo.french
           Demo.abel Demo.french_tensor Demo.abel_input Demo.abel_target Demo.world0
           small_rnn_wf).
  - by vm_compute.
  - by vm_compute.
  - by vm_compute.
Defined.
